(** * CloudDrop: secure channel, negotiation and chunked transfer

    A shallow embedding of [public/js/crypto.js] (class [CryptoManager]) and
    [public/js/webrtc.js] (class [WebRTCManager]).

    - JavaScript [Map]s keyed by peer id are [gmap string _].
    - Every [async] method is run to completion as one step: an [await] is
      sequencing, and a rejected promise is a thrown completion.  Where the
      code waits for other handlers to run, in the polling of
      [ensureConnection], what happens in that time is a parameter.
      Back-pressure sleeps are not part of the model.
    - The WebCrypto primitives, the base64 codec and the random source belong
      to the browser: they are the fields of the class [Platform].  What the
      properties assume of them is stated as hypotheses where the properties
      begin; a reference platform, on which the model runs by computation,
      instantiates them. *)

From Stdlib Require Import ZArith Lia Bool.
From Stdlib Require Import Init.Byte.
From stdpp Require Import gmap strings list fin_maps sorting.

Open Scope string_scope.
Open Scope list_scope.

(** ** Completions of JavaScript code *)

Inductive js_error : Type :=
| TypeError              (* property read on [null] / [undefined] *)
| InvalidStateError      (* DOMException of RTCPeerConnection / RTCDataChannel *)
| DataError              (* [crypto.subtle.importKey] on malformed key data *)
| OperationError         (* [crypto.subtle.decrypt]: the tag does not verify *)
| InvalidCharacterError  (* [atob] on a string that is not base64 *)
| SyntaxError            (* [JSON.parse] on a string that is not JSON *)
| Pending                (* the call awaits a promise owned by another call *)
| OutOfFuel              (* a loop of the model ran past its bound *)
| Error (msg : string).  (* [throw new Error(msg)] *)

Inductive completion (A : Type) : Type :=
| Normal (a : A)
| Throw (e : js_error).
Arguments Normal {A} a.
Arguments Throw {A} e.

(** Code that reads and mutates a store [S] and may throw.  A throw keeps the
    mutations made before it, as in JavaScript. *)
Definition JS (S A : Type) : Type := S -> completion A * S.

Definition ret {S A} (a : A) : JS S A := fun s => (Normal a, s).
Definition throw {S A} (e : js_error) : JS S A := fun s => (Throw e, s).
Definition bind {S A B} (c : JS S A) (k : A -> JS S B) : JS S B :=
  fun s => match c s with
           | (Normal a, s') => k a s'
           | (Throw e, s') => (Throw e, s')
           end.
Definition gets {S A} (f : S -> A) : JS S A := fun s => (Normal (f s), s).
Definition modify {S} (f : S -> S) : JS S unit := fun s => (Normal tt, f s).
(** [try { c } catch (e) { h e }] *)
Definition try_catch {S A} (c : JS S A) (h : js_error -> JS S A) : JS S A :=
  fun s => match c s with
           | (Normal a, s') => (Normal a, s')
           | (Throw e, s') => h e s'
           end.
(** A value that must not be [null] / [undefined] to be dereferenced. *)
Definition deref {S A} (o : option A) : JS S A :=
  match o with Some a => ret a | None => throw TypeError end.

Notation "'do' x <- c ; k" := (bind c (fun x => k))
  (at level 10, x name, c at level 100, k at level 200).
Notation "c ;; k" := (bind c (fun _ => k))
  (at level 100, k at level 200, right associativity).

(** ** Bytes *)

Abbreviation bytes := (list Byte.byte).

#[global] Instance byte_eq_decision : EqDecision Byte.byte := Byte.byte_eq_dec.

(** [new Uint8Array(data).slice(0, n)] and [.slice(n)] clamp to the length. *)
Definition slice_to (n : nat) (b : bytes) : bytes := take n b.
Definition slice_from (n : nat) (b : bytes) : bytes := drop n b.

(** ** The browser's RTCPeerConnection and RTCDataChannel

    The connection object is the browser's, not the repository's: this is the
    W3C signaling state machine as far as [webrtc.js] drives it. *)

Inductive SignalingState : Type :=
| stable | have_local_offer | have_remote_offer
| have_local_pranswer | have_remote_pranswer | signaling_closed.

Inductive ConnectionState : Type :=
| conn_new | conn_connecting | conn_connected
| conn_disconnected | conn_failed | conn_closed.

Inductive IceConnectionState : Type :=
| ice_new | ice_checking | ice_connected | ice_completed
| ice_failed | ice_disconnected | ice_closed.

Inductive SdpType : Type := sdp_offer | sdp_pranswer | sdp_answer | sdp_rollback.

#[global] Instance SignalingState_eq_dec : EqDecision SignalingState.
Proof. solve_decision. Defined.
#[global] Instance ConnectionState_eq_dec : EqDecision ConnectionState.
Proof. solve_decision. Defined.
#[global] Instance IceConnectionState_eq_dec : EqDecision IceConnectionState.
Proof. solve_decision. Defined.
#[global] Instance SdpType_eq_dec : EqDecision SdpType.
Proof. solve_decision. Defined.

(** [RTCSessionDescription]: [{type, sdp}] *)
#[projections(primitive)]
Record SessionDescription : Type := { sd_type : SdpType; sd_sdp : string }.

#[projections(primitive)]
Record RTCPeerConnection : Type := {
  signalingState : SignalingState;
  connectionState : ConnectionState;
  iceConnectionState : IceConnectionState;
  currentLocalDescription : option SessionDescription;
  pendingLocalDescription : option SessionDescription;
  currentRemoteDescription : option SessionDescription;
  pendingRemoteDescription : option SessionDescription;
  (** candidates accepted by [addIceCandidate], oldest first *)
  remoteCandidates : list string
}.

(** [pc.remoteDescription]: the pending description if any, else the current. *)
Definition remoteDescription (pc : RTCPeerConnection) : option SessionDescription :=
  match pendingRemoteDescription pc with
  | Some d => Some d
  | None => currentRemoteDescription pc
  end.
Definition localDescription (pc : RTCPeerConnection) : option SessionDescription :=
  match pendingLocalDescription pc with
  | Some d => Some d
  | None => currentLocalDescription pc
  end.

Definition new_RTCPeerConnection : RTCPeerConnection :=
  {| signalingState := stable; connectionState := conn_new;
     iceConnectionState := ice_new;
     currentLocalDescription := None; pendingLocalDescription := None;
     currentRemoteDescription := None; pendingRemoteDescription := None;
     remoteCandidates := [] |}.

(** The descriptions and signaling state after a description is applied. *)
Definition with_signaling (st : SignalingState)
    (cl pl cr pr : option SessionDescription) (pc : RTCPeerConnection) : RTCPeerConnection :=
  {| signalingState := st; connectionState := connectionState pc;
     iceConnectionState := iceConnectionState pc;
     currentLocalDescription := cl; pendingLocalDescription := pl;
     currentRemoteDescription := cr; pendingRemoteDescription := pr;
     remoteCandidates := remoteCandidates pc |}.

Definition with_iceConnectionState (s : IceConnectionState) (pc : RTCPeerConnection) : RTCPeerConnection :=
  {| signalingState := signalingState pc; connectionState := connectionState pc;
     iceConnectionState := s;
     currentLocalDescription := currentLocalDescription pc;
     pendingLocalDescription := pendingLocalDescription pc;
     currentRemoteDescription := currentRemoteDescription pc;
     pendingRemoteDescription := pendingRemoteDescription pc;
     remoteCandidates := remoteCandidates pc |}.

Definition with_connectionState (s : ConnectionState) (pc : RTCPeerConnection) : RTCPeerConnection :=
  {| signalingState := signalingState pc; connectionState := s;
     iceConnectionState := iceConnectionState pc;
     currentLocalDescription := currentLocalDescription pc;
     pendingLocalDescription := pendingLocalDescription pc;
     currentRemoteDescription := currentRemoteDescription pc;
     pendingRemoteDescription := pendingRemoteDescription pc;
     remoteCandidates := remoteCandidates pc |}.

(** The SDP text is produced by the browser and opaque to the manager. *)
Definition pc_createOffer : JS RTCPeerConnection SessionDescription := fun pc =>
  match signalingState pc with
  | stable | have_local_offer => (Normal {| sd_type := sdp_offer; sd_sdp := "" |}, pc)
  | _ => (Throw InvalidStateError, pc)
  end.

Definition pc_createAnswer : JS RTCPeerConnection SessionDescription := fun pc =>
  match signalingState pc with
  | have_remote_offer | have_local_pranswer =>
      (Normal {| sd_type := sdp_answer; sd_sdp := "" |}, pc)
  | _ => (Throw InvalidStateError, pc)
  end.

Definition pc_setLocalDescription (d : SessionDescription) : JS RTCPeerConnection unit := fun pc =>
  match sd_type d, signalingState pc with
  | sdp_offer, (stable | have_local_offer) =>
      (Normal tt, with_signaling have_local_offer
         (currentLocalDescription pc) (Some d)
         (currentRemoteDescription pc) (pendingRemoteDescription pc) pc)
  | sdp_answer, (have_remote_offer | have_local_pranswer) =>
      (Normal tt, with_signaling stable
         (Some d) None (pendingRemoteDescription pc) None pc)
  | sdp_pranswer, (have_remote_offer | have_local_pranswer) =>
      (Normal tt, with_signaling have_local_pranswer
         (currentLocalDescription pc) (Some d)
         (currentRemoteDescription pc) (pendingRemoteDescription pc) pc)
  | sdp_rollback, (have_local_offer | have_remote_offer) =>
      (Normal tt, with_signaling stable
         (currentLocalDescription pc) None (currentRemoteDescription pc) None pc)
  | _, _ => (Throw InvalidStateError, pc)
  end.

Definition pc_setRemoteDescription (d : SessionDescription) : JS RTCPeerConnection unit := fun pc =>
  match sd_type d, signalingState pc with
  | sdp_offer, (stable | have_remote_offer) =>
      (Normal tt, with_signaling have_remote_offer
         (currentLocalDescription pc) (pendingLocalDescription pc)
         (currentRemoteDescription pc) (Some d) pc)
  | sdp_offer, have_local_offer =>
      (* the browser rolls the local offer back before applying the remote one *)
      (Normal tt, with_signaling have_remote_offer
         (currentLocalDescription pc) None (currentRemoteDescription pc) (Some d) pc)
  | sdp_answer, (have_local_offer | have_remote_pranswer) =>
      (Normal tt, with_signaling stable
         (pendingLocalDescription pc) None (Some d) None pc)
  | sdp_pranswer, (have_local_offer | have_remote_pranswer) =>
      (Normal tt, with_signaling have_remote_pranswer
         (currentLocalDescription pc) (pendingLocalDescription pc)
         (currentRemoteDescription pc) (Some d) pc)
  | sdp_rollback, (have_local_offer | have_remote_offer) =>
      (Normal tt, with_signaling stable
         (currentLocalDescription pc) None (currentRemoteDescription pc) None pc)
  | _, _ => (Throw InvalidStateError, pc)
  end.

(** [addIceCandidate] rejects while there is no remote description. *)
Definition pc_addIceCandidate (c : string) : JS RTCPeerConnection unit := fun pc =>
  match signalingState pc, remoteDescription pc with
  | signaling_closed, _ => (Throw InvalidStateError, pc)
  | _, None => (Throw InvalidStateError, pc)
  | _, Some _ =>
      (Normal tt,
       {| signalingState := signalingState pc; connectionState := connectionState pc;
          iceConnectionState := iceConnectionState pc;
          currentLocalDescription := currentLocalDescription pc;
          pendingLocalDescription := pendingLocalDescription pc;
          currentRemoteDescription := currentRemoteDescription pc;
          pendingRemoteDescription := pendingRemoteDescription pc;
          remoteCandidates := remoteCandidates pc ++ [c] |})
  end.

Definition pc_close (pc : RTCPeerConnection) : RTCPeerConnection :=
  {| signalingState := signaling_closed; connectionState := conn_closed;
     iceConnectionState := ice_closed;
     currentLocalDescription := currentLocalDescription pc;
     pendingLocalDescription := pendingLocalDescription pc;
     currentRemoteDescription := currentRemoteDescription pc;
     pendingRemoteDescription := pendingRemoteDescription pc;
     remoteCandidates := remoteCandidates pc |}.

(** *** Wire formats *)

(** The JSON control records of the data channel, by their [type] field. *)
Inductive control : Type :=
| FileStart (fileId name : string) (size totalChunks : nat)
| FileEnd (fileId : string)
| TextMessage (content : string)
| OtherControl (type : string).

(** What [channel.send] carries: a string (here by the value [JSON.parse]
    gives it, [None] when it is not JSON) or an [ArrayBuffer]. *)
Inductive dc_data : Type :=
| DString (json : option control)
| DBinary (b : bytes).

Inductive ReadyState : Type := dc_connecting | dc_open | dc_closing | dc_closed.
#[global] Instance ReadyState_eq_dec : EqDecision ReadyState.
Proof. solve_decision. Defined.

#[projections(primitive)]
Record RTCDataChannel : Type := {
  readyState : ReadyState;
  (** what was handed to [send], oldest first *)
  dc_sent : list dc_data
}.

Definition dc_send (d : dc_data) : JS RTCDataChannel unit := fun dc =>
  match readyState dc with
  | dc_open => (Normal tt, {| readyState := dc_open; dc_sent := dc_sent dc ++ [d] |})
  | _ => (Throw InvalidStateError, dc)
  end.

(** [channel.close()]: a channel that is neither closing nor closed starts
    to close.  It is [closed] once the closing procedure has ended, or its
    connection has been closed. *)
Definition dc_close (dc : RTCDataChannel) : RTCDataChannel :=
  match readyState dc with
  | dc_closing | dc_closed => dc
  | _ => {| readyState := dc_closing; dc_sent := dc_sent dc |}
  end.

(** An object of the browser that the manager has taken out of its maps.
    The browser still holds it, with the state it was left in. *)
Inductive released_object : Type :=
| ReleasedChannel (peerId : string) (dc : RTCDataChannel)
| ReleasedConnection (peerId : string) (pc : RTCPeerConnection).

(** The [data] payload of a [relay-data] signaling message. *)
Inductive relay_payload : Type :=
| RFileStart (fileId name : string) (size totalChunks : nat)
| RChunk (fileId data : string)
| RFileEnd (fileId : string)
| RText (content : string)
| ROther (type : string).

(** What [this.signaling.send] is given. *)
Inductive signal : Type :=
| SigOffer (to : string) (sdp : SessionDescription) (publicKey : string) (iceRestart : bool)
| SigAnswer (to : string) (sdp : SessionDescription) (publicKey : string)
| SigIceCandidate (to : string) (candidate : string)
| SigRelayData (to : string) (data : relay_payload).

(** The [data] of a received [offer] / [answer]: [{sdp, publicKey}], the key
    possibly absent. *)
Record negotiation_data : Type := {
  nd_sdp : SessionDescription;
  nd_publicKey : option string
}.

(** Calls of the application's handlers.  [onProgress] also receives a
    percentage and a speed, which are floating point and clock readings. *)
Inductive app_event : Type :=
| FileRequest (peerId fileId name : string) (size totalChunks : nat)
| FileReceived (peerId name : string) (blob : bytes)
| TextReceived (peerId content : string)
| Progress (peerId fileId : string) (sent total : nat)
| ConnectionStateChange (peerId status : string).

(** The console lines that the properties below observe. *)
Inductive log_line : Type :=
| LogIceRestartAttempt (peerId : string) (n : nat)
| LogMaxIceRestarts (peerId : string)
| LogIceRestartFailed (peerId : string) (e : js_error)
| LogIgnoringOffer (peerId : string)
| LogRollback (peerId : string)
| LogOfferError (peerId : string) (e : js_error)
| LogAnswerError (peerId : string) (e : js_error)
| LogAnswerWrongState (peerId : string)
| LogNoConnection (peerId : string)
| LogCandidateError (e : js_error)
| LogBufferedCandidateError (e : js_error).

(** ** webrtc.js: the manager's state *)

Definition CHUNK_SIZE : nat := 64 * 1024.
Definition MAX_ICE_RESTARTS : nat := 2.

(** An entry of [incomingTransfers] ([startTime] is a clock reading). *)
#[projections(primitive)]
Record Transfer : Type := {
  t_fileId : string;
  t_name : string;
  t_size : nat;
  t_totalChunks : nat;
  chunks : list bytes;
  received : nat
}.

(** Which of the application's callbacks are set ([null] in the constructor). *)
#[projections(primitive)]
Record Handlers : Type := {
  onFileReceived : bool;
  onFileRequest : bool;
  onProgress : bool;
  onTextReceived : bool;
  onConnectionStateChange : bool
}.

(** [class WebRTCManager].  [pendingFiles] is created by the constructor and
    never read or written afterwards; it is left out. *)
#[projections(primitive)]
Record WebRTCManager : Type := {
  connections : gmap string RTCPeerConnection;
  dataChannels : gmap string RTCDataChannel;
  incomingTransfers : gmap string Transfer;
  pendingConnections : gset string;
  pendingCandidates : gmap string (list string);
  iceRestartCounts : gmap string nat;
  disconnectedTimers : gmap string nat;
  makingOffer : gmap string bool;
  ignoreOffer : gmap string bool;
  relayMode : gmap string bool;
  myPeerId : option string;
  handlers : Handlers
}.

Definition set_connections (x : gmap string RTCPeerConnection) (r : WebRTCManager) : WebRTCManager :=
  {| connections := x;
     dataChannels := dataChannels r;
     incomingTransfers := incomingTransfers r;
     pendingConnections := pendingConnections r;
     pendingCandidates := pendingCandidates r;
     iceRestartCounts := iceRestartCounts r;
     disconnectedTimers := disconnectedTimers r;
     makingOffer := makingOffer r;
     ignoreOffer := ignoreOffer r;
     relayMode := relayMode r;
     myPeerId := myPeerId r;
     handlers := handlers r |}.
Definition set_dataChannels (x : gmap string RTCDataChannel) (r : WebRTCManager) : WebRTCManager :=
  {| connections := connections r;
     dataChannels := x;
     incomingTransfers := incomingTransfers r;
     pendingConnections := pendingConnections r;
     pendingCandidates := pendingCandidates r;
     iceRestartCounts := iceRestartCounts r;
     disconnectedTimers := disconnectedTimers r;
     makingOffer := makingOffer r;
     ignoreOffer := ignoreOffer r;
     relayMode := relayMode r;
     myPeerId := myPeerId r;
     handlers := handlers r |}.
Definition set_incomingTransfers (x : gmap string Transfer) (r : WebRTCManager) : WebRTCManager :=
  {| connections := connections r;
     dataChannels := dataChannels r;
     incomingTransfers := x;
     pendingConnections := pendingConnections r;
     pendingCandidates := pendingCandidates r;
     iceRestartCounts := iceRestartCounts r;
     disconnectedTimers := disconnectedTimers r;
     makingOffer := makingOffer r;
     ignoreOffer := ignoreOffer r;
     relayMode := relayMode r;
     myPeerId := myPeerId r;
     handlers := handlers r |}.
Definition set_pendingConnections (x : gset string) (r : WebRTCManager) : WebRTCManager :=
  {| connections := connections r;
     dataChannels := dataChannels r;
     incomingTransfers := incomingTransfers r;
     pendingConnections := x;
     pendingCandidates := pendingCandidates r;
     iceRestartCounts := iceRestartCounts r;
     disconnectedTimers := disconnectedTimers r;
     makingOffer := makingOffer r;
     ignoreOffer := ignoreOffer r;
     relayMode := relayMode r;
     myPeerId := myPeerId r;
     handlers := handlers r |}.
Definition set_pendingCandidates (x : gmap string (list string)) (r : WebRTCManager) : WebRTCManager :=
  {| connections := connections r;
     dataChannels := dataChannels r;
     incomingTransfers := incomingTransfers r;
     pendingConnections := pendingConnections r;
     pendingCandidates := x;
     iceRestartCounts := iceRestartCounts r;
     disconnectedTimers := disconnectedTimers r;
     makingOffer := makingOffer r;
     ignoreOffer := ignoreOffer r;
     relayMode := relayMode r;
     myPeerId := myPeerId r;
     handlers := handlers r |}.
Definition set_iceRestartCounts (x : gmap string nat) (r : WebRTCManager) : WebRTCManager :=
  {| connections := connections r;
     dataChannels := dataChannels r;
     incomingTransfers := incomingTransfers r;
     pendingConnections := pendingConnections r;
     pendingCandidates := pendingCandidates r;
     iceRestartCounts := x;
     disconnectedTimers := disconnectedTimers r;
     makingOffer := makingOffer r;
     ignoreOffer := ignoreOffer r;
     relayMode := relayMode r;
     myPeerId := myPeerId r;
     handlers := handlers r |}.
Definition set_disconnectedTimers (x : gmap string nat) (r : WebRTCManager) : WebRTCManager :=
  {| connections := connections r;
     dataChannels := dataChannels r;
     incomingTransfers := incomingTransfers r;
     pendingConnections := pendingConnections r;
     pendingCandidates := pendingCandidates r;
     iceRestartCounts := iceRestartCounts r;
     disconnectedTimers := x;
     makingOffer := makingOffer r;
     ignoreOffer := ignoreOffer r;
     relayMode := relayMode r;
     myPeerId := myPeerId r;
     handlers := handlers r |}.
Definition set_makingOffer (x : gmap string bool) (r : WebRTCManager) : WebRTCManager :=
  {| connections := connections r;
     dataChannels := dataChannels r;
     incomingTransfers := incomingTransfers r;
     pendingConnections := pendingConnections r;
     pendingCandidates := pendingCandidates r;
     iceRestartCounts := iceRestartCounts r;
     disconnectedTimers := disconnectedTimers r;
     makingOffer := x;
     ignoreOffer := ignoreOffer r;
     relayMode := relayMode r;
     myPeerId := myPeerId r;
     handlers := handlers r |}.
Definition set_ignoreOffer (x : gmap string bool) (r : WebRTCManager) : WebRTCManager :=
  {| connections := connections r;
     dataChannels := dataChannels r;
     incomingTransfers := incomingTransfers r;
     pendingConnections := pendingConnections r;
     pendingCandidates := pendingCandidates r;
     iceRestartCounts := iceRestartCounts r;
     disconnectedTimers := disconnectedTimers r;
     makingOffer := makingOffer r;
     ignoreOffer := x;
     relayMode := relayMode r;
     myPeerId := myPeerId r;
     handlers := handlers r |}.
Definition set_relayMode (x : gmap string bool) (r : WebRTCManager) : WebRTCManager :=
  {| connections := connections r;
     dataChannels := dataChannels r;
     incomingTransfers := incomingTransfers r;
     pendingConnections := pendingConnections r;
     pendingCandidates := pendingCandidates r;
     iceRestartCounts := iceRestartCounts r;
     disconnectedTimers := disconnectedTimers r;
     makingOffer := makingOffer r;
     ignoreOffer := ignoreOffer r;
     relayMode := x;
     myPeerId := myPeerId r;
     handlers := handlers r |}.
Definition set_myPeerId (x : option string) (r : WebRTCManager) : WebRTCManager :=
  {| connections := connections r;
     dataChannels := dataChannels r;
     incomingTransfers := incomingTransfers r;
     pendingConnections := pendingConnections r;
     pendingCandidates := pendingCandidates r;
     iceRestartCounts := iceRestartCounts r;
     disconnectedTimers := disconnectedTimers r;
     makingOffer := makingOffer r;
     ignoreOffer := ignoreOffer r;
     relayMode := relayMode r;
     myPeerId := x;
     handlers := handlers r |}.
Definition set_handlers (x : Handlers) (r : WebRTCManager) : WebRTCManager :=
  {| connections := connections r;
     dataChannels := dataChannels r;
     incomingTransfers := incomingTransfers r;
     pendingConnections := pendingConnections r;
     pendingCandidates := pendingCandidates r;
     iceRestartCounts := iceRestartCounts r;
     disconnectedTimers := disconnectedTimers r;
     makingOffer := makingOffer r;
     ignoreOffer := ignoreOffer r;
     relayMode := relayMode r;
     myPeerId := myPeerId r;
     handlers := x |}.

Definition new_WebRTCManager : WebRTCManager :=
  {| connections := ∅; dataChannels := ∅; incomingTransfers := ∅;
     pendingConnections := ∅; pendingCandidates := ∅; iceRestartCounts := ∅;
     disconnectedTimers := ∅; makingOffer := ∅; ignoreOffer := ∅;
     relayMode := ∅; myPeerId := None;
     handlers := {| onFileReceived := false; onFileRequest := false;
                    onProgress := false; onTextReceived := false;
                    onConnectionStateChange := false |} |}.

(** JavaScript truthiness of a string, and of a possibly absent one. *)
Definition truthy (s : string) : bool := negb (String.eqb s "").
Definition truthy_opt (o : option string) : bool :=
  match o with Some s => truthy s | None => false end.
(** [m.get(k)] used as a condition, and [m.get(k) || 0]. *)
Definition flag (m : gmap string bool) (k : string) : bool := default false (m !! k).
Definition count_or_0 (m : gmap string nat) (k : string) : nat := default 0 (m !! k).

(** ** The browser's WebCrypto, base64 and randomness

    What crypto.js and webrtc.js take from the browser.  The model is written
    against this interface; the properties assume of it only what each of
    them names. *)

Class Platform : Type := {
  PrivateKey : Type;
  PublicKey : Type;
  AesKey : Type;
  (** [crypto.subtle.generateKey({name: 'ECDH', namedCurve: 'P-256'}, ...)] on
      the random bytes it draws. *)
  ecdh_generateKey : bytes -> PrivateKey * PublicKey;
  (** [crypto.subtle.exportKey('spki', pk)], and [importKey('spki', ...)] which
      rejects malformed key data. *)
  exportKey_spki : PublicKey -> bytes;
  importKey_spki : bytes -> option PublicKey;
  (** [crypto.subtle.deriveKey({name: 'ECDH', public}, private, AES-GCM 256)] *)
  ecdh_deriveKey : PrivateKey -> PublicKey -> AesKey;
  (** [crypto.subtle.encrypt / decrypt({name: 'AES-GCM', iv}, key, data)]:
      arguments are key, iv, data; the ciphertext carries the 16-byte tag, and
      decryption rejects when the tag does not verify. *)
  aes_gcm_encrypt : AesKey -> bytes -> bytes -> bytes;
  aes_gcm_decrypt : AesKey -> bytes -> bytes -> option bytes;
  (** [btoa] on the binary string of a byte array, and [atob] back. *)
  btoa : bytes -> string;
  atob : string -> option bytes;
  (** The random source behind [crypto.getRandomValues] and
      [crypto.randomUUID]: an infinite stream, read at a cursor. *)
  random_stream : nat -> Byte.byte;
  uuid_of_bytes : bytes -> string
}.

(** ** crypto.js *)

Section CloudDrop.

Context {platform : Platform}.

#[projections(primitive)]
Record KeyPair : Type := { privateKey : PrivateKey; publicKey : PublicKey }.

(** [class CryptoManager]: [this.keyPair = null; this.sharedSecrets = new Map()] *)
#[projections(primitive)]
Record CryptoManager : Type := {
  keyPair : option KeyPair;
  sharedSecrets : gmap string AesKey
}.

Definition new_CryptoManager : CryptoManager :=
  {| keyPair := None; sharedSecrets := ∅ |}.

(** The store of the crypto module: the singleton [cryptoManager] and the
    cursor into the random stream. *)
#[projections(primitive)]
Record CryptoStore : Type := {
  cm : CryptoManager;
  cursor : nat
}.

Definition set_keyPair (kp : option KeyPair) (s : CryptoStore) : CryptoStore :=
  {| cm := {| keyPair := kp; sharedSecrets := sharedSecrets (cm s) |};
     cursor := cursor s |}.
Definition set_sharedSecrets (m : gmap string AesKey) (s : CryptoStore) : CryptoStore :=
  {| cm := {| keyPair := keyPair (cm s); sharedSecrets := m |};
     cursor := cursor s |}.

(** [crypto.getRandomValues(new Uint8Array(n))] *)
Definition getRandomValues (n : nat) : JS CryptoStore bytes :=
  fun s => (Normal (random_stream <$> seq (cursor s) n),
            {| cm := cm s; cursor := cursor s + n |}).

(** [crypto.randomUUID()]: 16 random bytes, formatted. *)
Definition randomUUID : JS CryptoStore string :=
  do b <- getRandomValues 16; ret (uuid_of_bytes b).

Definition generateKeyPair : JS CryptoStore KeyPair :=
  do seed <- getRandomValues 32;
  let '(sk, pk) := ecdh_generateKey seed in
  let kp := {| privateKey := sk; publicKey := pk |} in
  modify (set_keyPair (Some kp));;
  ret kp.

Definition exportPublicKey : JS CryptoStore string :=
  do kp0 <- gets (fun s => keyPair (cm s));
  (match kp0 with None => generateKeyPair;; ret tt | Some _ => ret tt end);;
  do kp <- gets (fun s => keyPair (cm s));
  do kp <- deref kp;
  ret (btoa (exportKey_spki (publicKey kp))).

Definition importPeerPublicKey (peerId publicKeyBase64 : string) : JS CryptoStore AesKey :=
  do publicKeyBuffer <-
    (match atob publicKeyBase64 with
     | Some b => ret b
     | None => throw InvalidCharacterError
     end);
  do peerPublicKey <-
    (match importKey_spki publicKeyBuffer with
     | Some pk => ret pk
     | None => throw DataError
     end);
  (* [this.keyPair.privateKey]: a read through [null] throws TypeError *)
  do kp <- gets (fun s => keyPair (cm s));
  do kp <- deref kp;
  let sharedSecret := ecdh_deriveKey (privateKey kp) peerPublicKey in
  modify (fun s => set_sharedSecrets (<[peerId := sharedSecret]> (sharedSecrets (cm s))) s);;
  ret sharedSecret.

Definition no_shared_key (peerId : string) : js_error :=
  Error (String.append "No shared key for peer: " peerId).

Definition encrypt (peerId : string) (data : bytes) : JS CryptoStore (bytes * bytes) :=
  do sharedKey <- gets (fun s => sharedSecrets (cm s) !! peerId);
  match sharedKey with
  | None => throw (no_shared_key peerId)
  | Some k =>
      do iv <- getRandomValues 12;
      ret (aes_gcm_encrypt k iv data, iv)
  end.

Definition decrypt (peerId : string) (encryptedData iv : bytes) : JS CryptoStore bytes :=
  do sharedKey <- gets (fun s => sharedSecrets (cm s) !! peerId);
  match sharedKey with
  | None => throw (no_shared_key peerId)
  | Some k =>
      match aes_gcm_decrypt k iv encryptedData with
      | Some p => ret p
      | None => throw OperationError
      end
  end.

(** [result.set(iv, 0); result.set(new Uint8Array(encrypted), iv.length)] *)
Definition encryptChunk (peerId : string) (chunk : bytes) : JS CryptoStore bytes :=
  do r <- encrypt peerId chunk;
  let '(encrypted, iv) := r in
  ret (iv ++ encrypted).

Definition decryptChunk (peerId : string) (data : bytes) : JS CryptoStore bytes :=
  let iv := slice_to 12 data in
  let encrypted := slice_from 12 data in
  decrypt peerId encrypted iv.

Definition removePeer (peerId : string) : JS CryptoStore unit :=
  modify (fun s => set_sharedSecrets (delete peerId (sharedSecrets (cm s))) s).

Definition hasSharedSecret (peerId : string) : JS CryptoStore bool :=
  gets (fun s => match sharedSecrets (cm s) !! peerId with
                 | Some _ => true
                 | None => false
                 end).

(** ** webrtc.js: the manager *)

(** Everything one endpoint's page holds: the [cryptoManager] singleton, the
    [WebRTCManager], what went out on the signaling socket, the calls made to
    the application's handlers, the console, the armed disconnect timers
    ([setTimeout] id -> the peer its callback is about), and the channels and
    connections that [closeConnection] has taken out of the maps, oldest
    first. *)
#[projections(primitive)]
Record World : Type := {
  crypto : CryptoStore;
  mgr : WebRTCManager;
  signaling : list signal;
  events : list app_event;
  console : list log_line;
  timers : gmap nat string;
  next_timer : nat;
  released : list released_object
}.

Definition on_crypto (f : CryptoStore -> CryptoStore) (w : World) : World :=
  {| crypto := f (crypto w); mgr := mgr w; signaling := signaling w;
     events := events w; console := console w; timers := timers w;
     next_timer := next_timer w; released := released w |}.
Definition on_mgr (f : WebRTCManager -> WebRTCManager) (w : World) : World :=
  {| crypto := crypto w; mgr := f (mgr w); signaling := signaling w;
     events := events w; console := console w; timers := timers w;
     next_timer := next_timer w; released := released w |}.
Definition on_signaling (f : list signal -> list signal) (w : World) : World :=
  {| crypto := crypto w; mgr := mgr w; signaling := f (signaling w);
     events := events w; console := console w; timers := timers w;
     next_timer := next_timer w; released := released w |}.
Definition on_events (f : list app_event -> list app_event) (w : World) : World :=
  {| crypto := crypto w; mgr := mgr w; signaling := signaling w;
     events := f (events w); console := console w; timers := timers w;
     next_timer := next_timer w; released := released w |}.
Definition on_console (f : list log_line -> list log_line) (w : World) : World :=
  {| crypto := crypto w; mgr := mgr w; signaling := signaling w;
     events := events w; console := f (console w); timers := timers w;
     next_timer := next_timer w; released := released w |}.
Definition on_timers (f : gmap nat string -> gmap nat string) (g : nat -> nat) (w : World) : World :=
  {| crypto := crypto w; mgr := mgr w; signaling := signaling w;
     events := events w; console := console w; timers := f (timers w);
     next_timer := g (next_timer w); released := released w |}.
Definition on_released (f : list released_object -> list released_object) (w : World) : World :=
  {| crypto := crypto w; mgr := mgr w; signaling := signaling w;
     events := events w; console := console w; timers := timers w;
     next_timer := next_timer w; released := f (released w) |}.

Definition new_World : World :=
  {| crypto := {| cm := new_CryptoManager; cursor := 0 |};
     mgr := new_WebRTCManager; signaling := []; events := [];
     console := []; timers := ∅; next_timer := 0; released := [] |}.

(** A call into the [cryptoManager] singleton. *)
Definition lift_crypto {A} (c : JS CryptoStore A) : JS World A := fun w =>
  let '(r, s) := c (crypto w) in (r, on_crypto (fun _ => s) w).

(** A method call on [this.connections.get(peerId)]. *)
Definition with_pc {A} (peerId : string) (op : JS RTCPeerConnection A) : JS World A := fun w =>
  match connections (mgr w) !! peerId with
  | None => (Throw TypeError, w)
  | Some pc =>
      let '(r, pc') := op pc in
      (r, on_mgr (fun m => set_connections (<[peerId := pc']> (connections m)) m) w)
  end.

(** A method call on [this.dataChannels.get(peerId)]. *)
Definition with_dc {A} (peerId : string) (op : JS RTCDataChannel A) : JS World A := fun w =>
  match dataChannels (mgr w) !! peerId with
  | None => (Throw TypeError, w)
  | Some dc =>
      let '(r, dc') := op dc in
      (r, on_mgr (fun m => set_dataChannels (<[peerId := dc']> (dataChannels m)) m) w)
  end.

Definition signaling_send (m : signal) : JS World unit :=
  modify (on_signaling (fun l => l ++ [m])).
Definition call_handler (registered : Handlers -> bool) (e : app_event) : JS World unit :=
  fun w => if registered (handlers (mgr w))
           then (Normal tt, on_events (fun l => l ++ [e]) w)
           else (Normal tt, w).
Definition log (l : log_line) : JS World unit :=
  modify (on_console (fun c => c ++ [l])).
Definition update (f : WebRTCManager -> WebRTCManager) : JS World unit :=
  modify (on_mgr f).

(** [for (const x of l) { body(x) }] *)
Fixpoint for_each {S A} (l : list A) (body : A -> JS S unit) : JS S unit :=
  match l with
  | [] => ret tt
  | x :: l' => body x;; for_each l' body
  end.

(** [_isPolite]: JavaScript's [<] on strings is lexicographic on code units. *)
Definition isPolite_of (me : option string) (peerId : string) : bool :=
  match me with
  | None => true
  | Some me => if truthy me then String.ltb me peerId else true
  end.

Definition _isPolite (peerId : string) : JS World bool :=
  gets (fun w => isPolite_of (myPeerId (mgr w)) peerId).

Definition setMyPeerId (peerId : string) : JS World unit :=
  update (set_myPeerId (Some peerId)).

(** [existing.connectionState !== 'failed' && existing.connectionState !== 'closed'] *)
Definition usable (pc : RTCPeerConnection) : bool :=
  match connectionState pc with
  | conn_failed | conn_closed => false
  | _ => true
  end.

Definition _flushPendingCandidates (peerId : string) : JS World unit :=
  do pending <- gets (fun w => pendingCandidates (mgr w) !! peerId);
  match pending with
  | Some (c :: cs) =>
      for_each (c :: cs) (fun candidate =>
        try_catch (with_pc peerId (pc_addIceCandidate candidate))
                  (fun e => log (LogBufferedCandidateError e)));;
      update (fun m => set_pendingCandidates (delete peerId (pendingCandidates m)) m)
  | _ => ret tt
  end.

(** [createConnection]: the existing connection if it is usable; otherwise a
    new one, whose registration ends with a flush of the buffered candidates.

    The source starts that flush and does not await it.  Its first
    [addIceCandidate] is called at once, on the connection just made; what
    is left of the flush then runs in turns with the caller.  With no
    buffered candidate, or one, the flush is over before the caller goes on,
    and that is what this definition runs.  With more, the later candidates
    race with the caller's next steps, and the statements below stay away
    from that case.

    [pendingConnections] holds a promise only while a call is under way.
    Calls run one after the other here, so none is ever found; [Pending]
    stands for the source handing back such a promise. *)
Definition createConnection (peerId : string) : JS World unit :=
  do existing <- gets (fun w => connections (mgr w) !! peerId);
  if match existing with Some pc => usable pc | None => false end then ret tt
  else
    do pending <- gets (fun w => bool_decide (peerId ∈ pendingConnections (mgr w)));
    if pending then throw Pending
    else
      update (fun m => set_pendingConnections ({[peerId]} ∪ pendingConnections m) m);;
      update (fun m => set_connections (<[peerId := new_RTCPeerConnection]> (connections m)) m);;
      update (fun m => set_makingOffer (<[peerId := false]> (makingOffer m)) m);;
      update (fun m => set_ignoreOffer (<[peerId := false]> (ignoreOffer m)) m);;
      _flushPendingCandidates peerId;;
      update (fun m => set_pendingConnections (pendingConnections m ∖ {[peerId]}) m).

Definition handleIceCandidate (peerId candidate : string) : JS World unit :=
  do pc <- gets (fun w => connections (mgr w) !! peerId);
  if match pc with
     | Some pc => match remoteDescription pc with Some _ => true | None => false end
     | None => false
     end
  then try_catch (with_pc peerId (pc_addIceCandidate candidate))
                 (fun e => log (LogCandidateError e))
  else update (fun m =>
         set_pendingCandidates
           (<[peerId := default [] (pendingCandidates m !! peerId) ++ [candidate]]>
              (pendingCandidates m)) m).

Definition import_if_present (peerId : string) (key : option string) : JS World unit :=
  match key with
  | Some k => if truthy k
              then lift_crypto (importPeerPublicKey peerId k);; ret tt
              else ret tt
  | None => ret tt
  end.

Definition rollback : SessionDescription := {| sd_type := sdp_rollback; sd_sdp := "" |}.

Definition handleOffer (peerId : string) (data : negotiation_data) : JS World unit :=
  createConnection peerId;;
  do isPolite <- _isPolite peerId;
  do making <- gets (fun w => flag (makingOffer (mgr w)) peerId);
  do offerCollision <-
    (if making then ret true
     else do st <- with_pc peerId (gets signalingState);
          ret (match st with stable | have_local_offer => false | _ => true end));
  update (fun m => set_ignoreOffer
                     (<[peerId := negb isPolite && offerCollision]> (ignoreOffer m)) m);;
  do ignore <- gets (fun w => flag (ignoreOffer (mgr w)) peerId);
  if ignore then log (LogIgnoringOffer peerId)
  else
    try_catch
      (do st <- with_pc peerId (gets signalingState);
       (match st with
        | have_local_offer =>
            log (LogRollback peerId);;
            with_pc peerId (pc_setLocalDescription rollback)
        | _ => ret tt
        end);;
       with_pc peerId (pc_setRemoteDescription (nd_sdp data));;
       _flushPendingCandidates peerId;;
       import_if_present peerId (nd_publicKey data);;
       do publicKey <- lift_crypto exportPublicKey;
       do answer <- with_pc peerId pc_createAnswer;
       with_pc peerId (pc_setLocalDescription answer);;
       signaling_send (SigAnswer peerId answer publicKey))
      (fun e => log (LogOfferError peerId e)).

Definition handleAnswer (peerId : string) (data : negotiation_data) : JS World unit :=
  do pc <- gets (fun w => connections (mgr w) !! peerId);
  match pc with
  | None => log (LogNoConnection peerId)
  | Some pc =>
      match signalingState pc with
      | have_local_offer =>
          try_catch
            (with_pc peerId (pc_setRemoteDescription (nd_sdp data));;
             _flushPendingCandidates peerId;;
             import_if_present peerId (nd_publicKey data))
            (fun e => log (LogAnswerError peerId e))
      | _ => log (LogAnswerWrongState peerId)
      end
  end.

(** [if (this.disconnectedTimers.has(peerId)) { clearTimeout(...); delete }] *)
Definition clear_disconnected_timer (peerId : string) : JS World unit :=
  do t <- gets (fun w => disconnectedTimers (mgr w) !! peerId);
  match t with
  | Some timer =>
      modify (on_timers (delete timer) id);;
      update (fun m => set_disconnectedTimers (delete peerId (disconnectedTimers m)) m)
  | None => ret tt
  end.

(** [this.dataChannels.delete(peerId)] and [this.connections.delete(peerId)]
    in [closeConnection]: the manager lets go of the object. *)
Definition release_channel (peerId : string) : JS World unit := fun w =>
  (Normal tt,
   on_released (fun l => l ++ match dataChannels (mgr w) !! peerId with
                             | Some dc => [ReleasedChannel peerId dc]
                             | None => []
                             end)
     (on_mgr (fun m => set_dataChannels (delete peerId (dataChannels m)) m) w)).
Definition release_connection (peerId : string) : JS World unit := fun w =>
  (Normal tt,
   on_released (fun l => l ++ match connections (mgr w) !! peerId with
                             | Some pc => [ReleasedConnection peerId pc]
                             | None => []
                             end)
     (on_mgr (fun m => set_connections (delete peerId (connections m)) m) w)).

Definition closeConnection (peerId : string) : JS World unit :=
  clear_disconnected_timer peerId;;
  update (fun m => set_dataChannels (alter dc_close peerId (dataChannels m)) m);;
  update (fun m => set_connections (alter pc_close peerId (connections m)) m);;
  release_channel peerId;;
  release_connection peerId;;
  update (fun m => set_pendingCandidates (delete peerId (pendingCandidates m)) m);;
  update (fun m => set_pendingConnections (pendingConnections m ∖ {[peerId]}) m);;
  update (fun m => set_iceRestartCounts (delete peerId (iceRestartCounts m)) m);;
  update (fun m => set_makingOffer (delete peerId (makingOffer m)) m);;
  update (fun m => set_ignoreOffer (delete peerId (ignoreOffer m)) m);;
  lift_crypto (removePeer peerId).

Definition _attemptIceRestart (peerId : string) : JS World unit :=
  do restartCount <- gets (fun w => count_or_0 (iceRestartCounts (mgr w)) peerId);
  if (MAX_ICE_RESTARTS <=? restartCount)%nat then log (LogMaxIceRestarts peerId)
  else
    update (fun m => set_iceRestartCounts
                       (<[peerId := restartCount + 1]> (iceRestartCounts m)) m);;
    log (LogIceRestartAttempt peerId (restartCount + 1));;
    try_catch
      (do offer <- with_pc peerId pc_createOffer;
       with_pc peerId (pc_setLocalDescription offer);;
       do publicKey <- lift_crypto exportPublicKey;
       signaling_send (SigOffer peerId offer publicKey true))
      (fun e => log (LogIceRestartFailed peerId e)).

(** [setTimeout(callback, DISCONNECTED_TIMEOUT)] for the peer's connection *)
Definition setTimeout_disconnected (peerId : string) : JS World nat := fun w =>
  (Normal (next_timer w), on_timers (<[next_timer w := peerId]>) S w).

Definition _handleIceConnectionStateChange (peerId : string) : JS World unit :=
  do state <- with_pc peerId (gets iceConnectionState);
  clear_disconnected_timer peerId;;
  match state with
  | ice_disconnected =>
      do timer <- setTimeout_disconnected peerId;
      update (fun m => set_disconnectedTimers (<[peerId := timer]> (disconnectedTimers m)) m)
  | ice_failed => _attemptIceRestart peerId
  | ice_connected | ice_completed =>
      update (fun m => set_iceRestartCounts (delete peerId (iceRestartCounts m)) m)
  | _ => ret tt
  end.

(** The callback armed on [disconnected]. *)
Definition disconnected_timeout (peerId : string) : JS World unit :=
  do state <- with_pc peerId (gets iceConnectionState);
  match state with
  | ice_disconnected => _attemptIceRestart peerId
  | _ => ret tt
  end.

Definition _handleConnectionStateChange (peerId : string) : JS World unit :=
  do state <- with_pc peerId (gets connectionState);
  match state with
  | conn_failed =>
      do restartCount <- gets (fun w => count_or_0 (iceRestartCounts (mgr w)) peerId);
      if (MAX_ICE_RESTARTS <=? restartCount)%nat then closeConnection peerId else ret tt
  | conn_closed => closeConnection peerId
  | _ => ret tt
  end.

(** What the browser does to a peer's connection.  The handlers are closures
    registered on the connection object in [createConnection]; a peer without
    a connection object has none to run, and a timer runs once, if armed. *)
Inductive browser_event : Type :=
| IceConnectionStateChanged (peerId : string) (s : IceConnectionState)
| ConnectionStateChanged (peerId : string) (s : ConnectionState)
| TimerFired (timer : nat).

Definition dispatch (ev : browser_event) : JS World unit :=
  match ev with
  | IceConnectionStateChanged p s =>
      do pc <- gets (fun w => connections (mgr w) !! p);
      match pc with
      | None => ret tt
      | Some _ =>
          with_pc p (modify (with_iceConnectionState s));;
          _handleIceConnectionStateChange p
      end
  | ConnectionStateChanged p s =>
      do pc <- gets (fun w => connections (mgr w) !! p);
      match pc with
      | None => ret tt
      | Some _ =>
          with_pc p (modify (with_connectionState s));;
          _handleConnectionStateChange p
      end
  | TimerFired timer =>
      do t <- gets (fun w => timers w !! timer);
      match t with
      | None => ret tt
      | Some p => modify (on_timers (delete timer) id);; disconnected_timeout p
      end
  end.

(** The world after a sequence of events, each handler run to completion. *)
Fixpoint run_events (evs : list browser_event) (w : World) : World :=
  match evs with
  | [] => w
  | ev :: evs' => run_events evs' (snd (dispatch ev w))
  end.

(** ** webrtc.js: the transfer engine *)

(** A [File]: its name and its bytes; [file.size] is their number. *)
Record File : Type := { file_name : string; file_content : bytes }.
Definition file_size (f : File) : nat := length (file_content f).
(** [file.slice(a, b)]: clamped to the size *)
Definition file_slice (f : File) (a b : nat) : bytes :=
  take (b - a) (drop a (file_content f)).

(** [Math.ceil(a / b)] for sizes: the quotient by [CHUNK_SIZE], a power of
    two, is exact in floating point. *)
Definition ceil_div (a b : nat) : nat := (a + b - 1) / b.

(** [while (offset < size) { body(offset); offset += CHUNK_SIZE }], at most
    [fuel] times round the loop. *)
Fixpoint while_offset {S} (fuel size : nat) (body : nat -> JS S unit) (offset : nat) : JS S unit :=
  if (offset <? size)%nat then
    match fuel with
    | O => throw OutOfFuel
    | Datatypes.S fuel' =>
        body offset;; while_offset fuel' size body (offset + CHUNK_SIZE)
    end
  else ret tt.

(** [pc.createDataChannel(label, {ordered: true})]: a channel that is still
    connecting; a closed connection refuses. *)
Definition pc_createDataChannel : JS RTCPeerConnection RTCDataChannel := fun pc =>
  match signalingState pc with
  | signaling_closed => (Throw InvalidStateError, pc)
  | _ => (Normal {| readyState := dc_connecting; dc_sent := [] |}, pc)
  end.

(** [setupDataChannel]: the channel is stored; its handlers are the cases of
    [dispatch_channel] below. *)
Definition setupDataChannel (peerId : string) (channel : RTCDataChannel) : JS World unit :=
  update (fun m => set_dataChannels (<[peerId := channel]> (dataChannels m)) m).

(** [createOffer].  The [catch] only writes to the console, and the
    [finally] runs on every path, also on the early [return]. *)
Definition createOffer (peerId : string) : JS World unit :=
  update (fun m => set_makingOffer (<[peerId := true]> (makingOffer m)) m);;
  try_catch
    (createConnection peerId;;
     do dc <- gets (fun w => dataChannels (mgr w) !! peerId);
     if match dc with
        | Some dc => match readyState dc with
                     | dc_open | dc_connecting => true
                     | _ => false
                     end
        | None => false
        end
     then ret tt
     else
       do channel <- with_pc peerId pc_createDataChannel;
       setupDataChannel peerId channel;;
       do publicKey <- lift_crypto exportPublicKey;
       do offer <- with_pc peerId pc_createOffer;
       with_pc peerId (pc_setLocalDescription offer);;
       signaling_send (SigOffer peerId offer publicKey false))
    (fun _ => ret tt);;
  update (fun m => set_makingOffer (<[peerId := false]> (makingOffer m)) m).

Definition _notifyConnectionState (peerId status : string) : JS World unit :=
  call_handler onConnectionStateChange (ConnectionStateChange peerId status).

(** What [ensureConnection] waits for.  [waitForChannel] and
    [waitForEncryptionKey] poll every 100 ms, for 15 s at most, and in that
    time the page goes on handling what arrives: answers, candidates, the
    events of the connection and of the channel.  The clock and the arrivals
    are not in this model; a [Waiting] stands for them.  [meanwhile] is what
    the page makes of the world until the wait is over or five seconds have
    passed; [slow], when the wait takes longer than five seconds, is what it
    makes of the world after that; [settled] is how the wait ends. *)
Record Waiting : Type := {
  meanwhile : World -> World;
  slow : option (World -> World);
  settled : completion unit
}.

(** A wait that is over at once, with the outcome [r]. *)
Definition at_once (r : completion unit) : Waiting :=
  {| meanwhile := fun w => w; slow := None; settled := r |}.

(** [await Promise.all([this.waitForChannel(peerId),
    this.waitForEncryptionKey(peerId)])], with what a timer armed for five
    seconds does when it goes off during the wait. *)
Definition wait_for_channel_and_key (after_five_seconds : JS World unit)
    (negotiation : Waiting) : JS World unit :=
  modify (meanwhile negotiation);;
  match slow negotiation with
  | Some later => after_five_seconds;; modify later
  | None => ret tt
  end;;
  (fun w => (settled negotiation, w)).

(** [_establishConnection], up to its waits: an offer when the peer has no
    data channel, or a closed one. *)
Definition _establishConnection (peerId : string) : JS World unit :=
  do channel <- gets (fun w => dataChannels (mgr w) !! peerId);
  if match channel with
     | Some ch => match readyState ch with dc_closed => true | _ => false end
     | None => true
     end
  then createOffer peerId
  else ret tt.

(** [ensureConnection].  It returns at once when the channel is open and the
    key is there.  When another call is under way it waits with that call.
    Otherwise it tells the application, arms the five-second timer of the
    [slow] notice, starts [_establishConnection] and waits; the timer is
    cleared when the wait is over. *)
Definition ensureConnection (peerId : string) (negotiation : Waiting) : JS World unit :=
  do channel <- gets (fun w => dataChannels (mgr w) !! peerId);
  do hasKey <- lift_crypto (hasSharedSecret peerId);
  if match channel with
     | Some ch => match readyState ch with dc_open => hasKey | _ => false end
     | None => false
     end
  then ret tt
  else
    do pending <- gets (fun w => bool_decide (peerId ∈ pendingConnections (mgr w)));
    if pending then wait_for_channel_and_key (ret tt) negotiation
    else
      _notifyConnectionState peerId "connecting";;
      _establishConnection peerId;;
      update (fun m => set_pendingConnections ({[peerId]} ∪ pendingConnections m) m);;
      try_catch
        (wait_for_channel_and_key (_notifyConnectionState peerId "slow") negotiation;;
         _notifyConnectionState peerId "connected";;
         update (fun m => set_pendingConnections (pendingConnections m ∖ {[peerId]}) m))
        (fun e =>
           update (fun m => set_pendingConnections (pendingConnections m ∖ {[peerId]}) m);;
           throw e).

(** The body of the [while] loop of [sendFileViaRelay], at [offset]. *)
Definition relay_chunk (peerId fileId : string) (file : File) (offset : nat) : JS World unit :=
  let buffer := file_slice file offset (offset + CHUNK_SIZE) in
  do encrypted <- lift_crypto (encryptChunk peerId buffer);
  let base64Data := btoa encrypted in
  signaling_send (SigRelayData peerId (RChunk fileId base64Data));;
  call_handler onProgress
    (Progress peerId fileId (Nat.min (offset + CHUNK_SIZE) (file_size file))
              (file_size file)).

Definition sendFileViaRelay (peerId : string) (file : File) : JS World unit :=
  do fileId <- lift_crypto randomUUID;
  let totalChunks := ceil_div (file_size file) CHUNK_SIZE in
  signaling_send (SigRelayData peerId
    (RFileStart fileId (file_name file) (file_size file) totalChunks));;
  while_offset (file_size file) (file_size file) (relay_chunk peerId fileId file) 0;;
  signaling_send (SigRelayData peerId (RFileEnd fileId)).

(** The body of the [while] loop of [sendFile], at [offset]. *)
Definition direct_chunk (peerId fileId : string) (file : File) (offset : nat) : JS World unit :=
  let buffer := file_slice file offset (offset + CHUNK_SIZE) in
  do encrypted <- lift_crypto (encryptChunk peerId buffer);
  with_dc peerId (dc_send (DBinary encrypted));;
  call_handler onProgress
    (Progress peerId fileId (offset + CHUNK_SIZE) (file_size file)).

Definition sendFile (peerId : string) (file : File) (negotiation : Waiting) : JS World unit :=
  do relay <- gets (fun w => flag (relayMode (mgr w)) peerId);
  if relay then sendFileViaRelay peerId file
  else
    do connected <-
      try_catch (ensureConnection peerId negotiation;; ret true)
        (fun e =>
           update (fun m => set_relayMode (<[peerId := true]> (relayMode m)) m);;
           _notifyConnectionState peerId "relay";;
           ret false);
    if negb connected then sendFileViaRelay peerId file
    else
      do fileId <- lift_crypto randomUUID;
      let totalChunks := ceil_div (file_size file) CHUNK_SIZE in
      with_dc peerId (dc_send (DString (Some
        (FileStart fileId (file_name file) (file_size file) totalChunks))));;
      while_offset (file_size file) (file_size file) (direct_chunk peerId fileId file) 0;;
      with_dc peerId (dc_send (DString (Some (FileEnd fileId)))).

Definition new_transfer (fileId name : string) (size totalChunks : nat) : Transfer :=
  {| t_fileId := fileId; t_name := name; t_size := size;
     t_totalChunks := totalChunks; chunks := []; received := 0 |}.

(** [transfer.chunks.push(new Uint8Array(decrypted));
     transfer.received += decrypted.byteLength] *)
Definition push_chunk (decrypted : bytes) (t : Transfer) : Transfer :=
  {| t_fileId := t_fileId t; t_name := t_name t; t_size := t_size t;
     t_totalChunks := t_totalChunks t; chunks := chunks t ++ [decrypted];
     received := received t + length decrypted |}.

(** [new Blob(transfer.chunks)] *)
Definition blob_of (t : Transfer) : bytes := concat (chunks t).

Definition receive_start (peerId fileId name : string) (size totalChunks : nat) : JS World unit :=
  update (fun m => set_incomingTransfers
            (<[peerId := new_transfer fileId name size totalChunks]> (incomingTransfers m)) m);;
  call_handler onFileRequest (FileRequest peerId fileId name size totalChunks).

Definition receive_end (peerId : string) : JS World unit :=
  do transfer <- gets (fun w => incomingTransfers (mgr w) !! peerId);
  match transfer with
  | Some t =>
      call_handler onFileReceived (FileReceived peerId (t_name t) (blob_of t));;
      update (fun m => set_incomingTransfers (delete peerId (incomingTransfers m)) m)
  | None => ret tt
  end.

Definition receive_chunk (peerId : string) (data : bytes) : JS World unit :=
  do decrypted <- lift_crypto (decryptChunk peerId data);
  update (fun m => set_incomingTransfers
            (alter (push_chunk decrypted) peerId (incomingTransfers m)) m);;
  do transfer <- gets (fun w => incomingTransfers (mgr w) !! peerId);
  match transfer with
  | Some t => call_handler onProgress (Progress peerId (t_fileId t) (received t) (t_size t))
  | None => ret tt
  end.

Definition handleMessage (peerId : string) (data : dc_data) : JS World unit :=
  match data with
  | DString None => throw SyntaxError
  | DString (Some (FileStart fileId name size totalChunks)) =>
      receive_start peerId fileId name size totalChunks
  | DString (Some (FileEnd _)) => receive_end peerId
  | DString (Some (TextMessage content)) =>
      call_handler onTextReceived (TextReceived peerId content)
  | DString (Some (OtherControl _)) => ret tt
  | DBinary b =>
      do transfer <- gets (fun w => incomingTransfers (mgr w) !! peerId);
      match transfer with
      | Some _ => receive_chunk peerId b
      | None => ret tt
      end
  end.

Definition handleRelayData (peerId : string) (data : relay_payload) : JS World unit :=
  do relay <- gets (fun w => flag (relayMode (mgr w)) peerId);
  (if relay then ret tt
   else update (fun m => set_relayMode (<[peerId := true]> (relayMode m)) m));;
  match data with
  | RFileStart fileId name size totalChunks =>
      receive_start peerId fileId name size totalChunks
  | RFileEnd _ => receive_end peerId
  | RChunk fileId base64 =>
      do transfer <- gets (fun w => incomingTransfers (mgr w) !! peerId);
      match transfer with
      | Some t =>
          if String.eqb (t_fileId t) fileId then
            match atob base64 with
            | Some b => receive_chunk peerId b
            | None => throw InvalidCharacterError
            end
          else ret tt
      | None => ret tt
      end
  | RText content => call_handler onTextReceived (TextReceived peerId content)
  | ROther _ => ret tt
  end.

Definition _sendTextViaRelay (peerId text : string) : JS World unit :=
  signaling_send (SigRelayData peerId (RText text)).

Definition sendText (peerId text : string) (negotiation : Waiting) : JS World unit :=
  do relay <- gets (fun w => flag (relayMode (mgr w)) peerId);
  if relay then _sendTextViaRelay peerId text
  else
    try_catch
      (ensureConnection peerId negotiation;;
       with_dc peerId (dc_send (DString (Some (TextMessage text)))))
      (fun e =>
         update (fun m => set_relayMode (<[peerId := true]> (relayMode m)) m);;
         _notifyConnectionState peerId "relay";;
         _sendTextViaRelay peerId text).

(** The receiver's world after the data channel delivered [msgs] from
    [peerId] in order, each [onmessage] run to completion. *)
Fixpoint deliver (peerId : string) (msgs : list dc_data) (w : World) : World :=
  match msgs with
  | [] => w
  | m :: msgs' => deliver peerId msgs' (snd (handleMessage peerId m w))
  end.

(** The same for [relay-data] payloads. *)
Fixpoint deliver_relay (peerId : string) (msgs : list relay_payload) (w : World) : World :=
  match msgs with
  | [] => w
  | m :: msgs' => deliver_relay peerId msgs' (snd (handleRelayData peerId m w))
  end.

(** ** Derived notions used in the statements *)

Definition add_candidates (l : list string) (pc : RTCPeerConnection) : RTCPeerConnection :=
  {| signalingState := signalingState pc; connectionState := connectionState pc;
     iceConnectionState := iceConnectionState pc;
     currentLocalDescription := currentLocalDescription pc;
     pendingLocalDescription := pendingLocalDescription pc;
     currentRemoteDescription := currentRemoteDescription pc;
     pendingRemoteDescription := pendingRemoteDescription pc;
     remoteCandidates := remoteCandidates pc ++ l |}.

Definition accepts_candidates (pc : RTCPeerConnection) : Prop :=
  is_Some (remoteDescription pc) /\ signalingState pc <> signaling_closed.

Definition flush_body (peerId candidate : string) : JS World unit :=
  try_catch (with_pc peerId (pc_addIceCandidate candidate))
            (fun e => log (LogBufferedCandidateError e)).

Definition flushed (peerId : string) (w : World) : World :=
  match connections (mgr w) !! peerId, pendingCandidates (mgr w) !! peerId with
  | Some pc, Some (c :: cs) =>
      on_mgr (fun m => set_pendingCandidates (delete peerId (pendingCandidates m))
                (set_connections (<[peerId := add_candidates (c :: cs) pc]> (connections m)) m)) w
  | _, _ => w
  end.

(** The collision test of [handleOffer], on the connection it works with:
    [makingOffer.get(peerId) || (signalingState !== 'stable' &&
    signalingState !== 'have-local-offer')]. *)
Definition offerCollision (w : World) (peerId : string) (pc : RTCPeerConnection) : bool :=
  flag (makingOffer (mgr w)) peerId
  || match signalingState pc with stable | have_local_offer => false | _ => true end.

(** The key material of an offer can be processed: it carries no key, or a
    well-formed one while the local key pair exists. *)
Definition key_material_ok (s : CryptoStore) (key : option string) : Prop :=
  truthy_opt key = false \/
  exists k raw pk kp,
    key = Some k /\ atob k = Some raw /\ importKey_spki raw = Some pk /\
    keyPair (cm s) = Some kp.

Definition answer_sdp : SessionDescription := {| sd_type := sdp_answer; sd_sdp := "" |}.

(** The restart attempts made for a peer: its [Attempting ICE restart n/2]
    console lines. *)
Definition is_attempt (peerId : string) (l : log_line) : bool :=
  match l with
  | LogIceRestartAttempt q _ => String.eqb q peerId
  | _ => false
  end.
Definition restart_attempts (peerId : string) (c : list log_line) : nat :=
  length (List.filter (is_attempt peerId) c).

(** The events that reset the peer's restart counter. *)
Definition resets_counter (peerId : string) (ev : browser_event) : bool :=
  match ev with
  | IceConnectionStateChanged q (ice_connected | ice_completed) => String.eqb q peerId
  | _ => false
  end.

(** What the proofs below watch of a world: whether the peer has a
    connection, its restart counter, and the attempts made so far. *)
Definition watched (peerId : string) (w : World) : bool * nat * nat :=
  (match connections (mgr w) !! peerId with Some _ => true | None => false end,
   count_or_0 (iceRestartCounts (mgr w)) peerId,
   restart_attempts peerId (console w)).

Definition preserves {A} (peerId : string) (c : JS World A) : Prop :=
  forall w, watched peerId (snd (c w)) = watched peerId w.

(** Attempts made plus attempts still allowed. *)
Definition restart_measure (peerId : string) (w : World) : nat :=
  restart_attempts peerId (console w) +
  match connections (mgr w) !! peerId with
  | Some _ => MAX_ICE_RESTARTS - count_or_0 (iceRestartCounts (mgr w)) peerId
  | None => 0
  end.

(** The slices the send loops read, by the recursion of [while_offset]. *)
Fixpoint split_chunks (fuel size : nat) (content : bytes) (offset : nat) : list bytes :=
  if (offset <? size)%nat then
    match fuel with
    | O => []
    | S fuel' =>
        take CHUNK_SIZE (drop offset content)
        :: split_chunks fuel' size content (offset + CHUNK_SIZE)
    end
  else [].

(** [frame] is what [encryptChunk] makes of [chunk] under key [k], for some
    12-byte nonce. *)
Definition authentic_frame (k : AesKey) (frame chunk : bytes) : Prop :=
  exists iv, length iv = 12 /\ frame = iv ++ aes_gcm_encrypt k iv chunk.

(** The files handed to [onFileReceived] so far: peer, name, content. *)
Definition received_files (w : World) : list (string * string * bytes) :=
  omap (fun e => match e with
                 | FileReceived p n b => Some (p, n, b)
                 | _ => None
                 end) (events w).

(** ** webrtc.js: the list of ICE servers *)

(** An entry of [iceServers]: [urls] is one string or an array of strings. *)
Inductive Urls : Type :=
| OneUrl (url : string)
| ManyUrls (list_of_urls : list string).

Record IceServer : Type := {
  urls : Urls;
  credential : option string
}.

Definition FALLBACK_ICE_SERVERS : list IceServer :=
  [ {| urls := OneUrl "stun:stun.l.google.com:19302"; credential := None |} ].

Definition ICE_SERVERS_CACHE_TTL : Z := 5 * 60 * 1000.

(** [Array.isArray(server.urls) ? server.urls : [server.urls]] *)
Definition urls_array (server : IceServer) : list string :=
  match urls server with
  | OneUrl url => [url]
  | ManyUrls l => l
  end.

(** [urls.some(url => url.startsWith('stun:'))] *)
Definition isStun (server : IceServer) : bool :=
  existsb (String.prefix "stun:") (urls_array server).
(** [urls.some(url => url.startsWith('turn:') || url.startsWith('turns:'))] *)
Definition isTurn (server : IceServer) : bool :=
  existsb (fun url => String.prefix "turn:" url || String.prefix "turns:" url)
          (urls_array server).

(** The loop of [rankIceServers] that fills [stunServers] and [turnServers]. *)
Fixpoint separate (iceServers stunServers turnServers : list IceServer)
    : list IceServer * list IceServer :=
  match iceServers with
  | [] => (stunServers, turnServers)
  | server :: rest =>
      if isTurn server then separate rest stunServers (turnServers ++ [server])
      else if isStun server then separate rest (stunServers ++ [server]) turnServers
      else separate rest stunServers turnServers
  end.

(** [Array.isArray(server.urls) ? server.urls[0] : server.urls], the URL that
    is probed.  A server in [stunServers] has a URL, so the array is not
    empty there. *)
Definition probed_url (server : IceServer) : string :=
  match urls server with
  | OneUrl url => url
  | ManyUrls l => default "" (head l)
  end.

(** [results.filter(r => r.result !== null)], each with its latency. *)
Definition reachable (results : list (IceServer * option nat)) : list (IceServer * nat) :=
  omap (fun r => match snd r with
                 | Some latency => Some (fst r, latency)
                 | None => None
                 end) results.

(** [.sort((a, b) => a.result.latency - b.result.latency)]: the sort of
    arrays is stable, so this is the stable sort by latency. *)
Fixpoint insert_by_latency (r : IceServer * nat) (l : list (IceServer * nat))
    : list (IceServer * nat) :=
  match l with
  | [] => [r]
  | r' :: l' =>
      if Nat.leb (snd r) (snd r') then r :: r' :: l'
      else r' :: insert_by_latency r l'
  end.
Definition sort_by_latency (l : list (IceServer * nat)) : list (IceServer * nat) :=
  foldr insert_by_latency [] l.

(** [rankIceServers].  [checkStunServerHealth] opens a connection to the
    server and waits for its answer; what the network gives the [i]-th probe,
    of URL [url], is the parameter [health]: the latency in milliseconds, or
    [None] for [null]. *)
Definition rankIceServers (health : nat -> string -> option nat)
    (iceServers : list IceServer) : list IceServer :=
  let '(stunServers, turnServers) := separate iceServers [] [] in
  let results := imap (fun i server => (server, health i (probed_url server))) stunServers in
  let rankedStun := fst <$> sort_by_latency (reachable results) in
  let ranked := turnServers ++ rankedStun in
  match ranked with
  | [] => FALLBACK_ICE_SERVERS
  | _ => ranked
  end.

(** The module's cache: [cachedIceServers] and [cachedIceServersTimestamp].
    [iceServersFetchPromise] is set only while a fetch is under way. *)
Record IceCache : Type := {
  cachedIceServers : option (list IceServer);
  cachedIceServersTimestamp : Z
}.

Definition new_IceCache : IceCache :=
  {| cachedIceServers := None; cachedIceServersTimestamp := 0 |}.

(** [fetchIceServers(forceRefresh)], called when the clock shows [now].
    [response] is the server list of an [ok] response of [/api/ice-servers],
    [None] when the request fails, is aborted after 3 s or is not [ok];
    [stored_at] is the clock when the ranking is done.  The function always
    resolves. *)
Definition fetchIceServers (forceRefresh : bool) (now : Z)
    (response : option (list IceServer)) (health : nat -> string -> option nat)
    (stored_at : Z) : IceCache -> list IceServer * IceCache := fun c =>
  let refresh :=
    match response with
    | Some iceServers =>
        let rankedServers := rankIceServers health iceServers in
        (rankedServers,
         {| cachedIceServers := Some rankedServers;
            cachedIceServersTimestamp := stored_at |})
    | None => (FALLBACK_ICE_SERVERS, c)
    end in
  match cachedIceServers c with
  | Some cached =>
      if negb forceRefresh
         && (now - cachedIceServersTimestamp c <? ICE_SERVERS_CACHE_TTL)%Z
      then (cached, c)
      else refresh
  | None => refresh
  end.

(** ** webrtc.js: data channels and their events *)

(** What the browser does to the data channel stored for a peer: it opens
    ([onopen] deletes the peer's relay flag), delivers a message
    ([onmessage] is [handleMessage]) or closes ([onclose] deletes the
    channel from the table); and a channel the peer created arrives
    ([ondatachannel] is [setupDataChannel]). *)
Inductive channel_event : Type :=
| ChannelOpened (peerId : string)
| ChannelMessage (peerId : string) (data : dc_data)
| ChannelClosed (peerId : string)
| ChannelReceived (peerId : string).

Definition dispatch_channel (ev : channel_event) : JS World unit :=
  match ev with
  | ChannelOpened p =>
      update (fun m => set_dataChannels
                (alter (fun dc => {| readyState := dc_open; dc_sent := dc_sent dc |}) p
                       (dataChannels m)) m);;
      update (fun m => set_relayMode (delete p (relayMode m)) m)
  | ChannelMessage p data => handleMessage p data
  | ChannelClosed p =>
      update (fun m => set_dataChannels (delete p (dataChannels m)) m)
  | ChannelReceived p =>
      setupDataChannel p {| readyState := dc_connecting; dc_sent := [] |}
  end.

(** The world after the signaling socket delivered the candidates [cs] of a
    peer in order. *)
Fixpoint deliver_candidates (peerId : string) (cs : list string) (w : World) : World :=
  match cs with
  | [] => w
  | c :: cs' => deliver_candidates peerId cs' (snd (handleIceCandidate peerId c w))
  end.

(** The world after [createConnection] made a new connection for the peer,
    when no candidate was buffered for it. *)
Definition with_new_connection (peerId : string) (w : World) : World :=
  on_mgr (fun m =>
    set_ignoreOffer (<[peerId := false]> (ignoreOffer m))
      (set_makingOffer (<[peerId := false]> (makingOffer m))
         (set_connections (<[peerId := new_RTCPeerConnection]> (connections m)) m))) w.

(** No connection to the peer that [createConnection] would reuse, none
    being made, and no buffered candidate. *)
Definition no_session (peerId : string) (w : World) : Prop :=
  match connections (mgr w) !! peerId with
  | Some pc => usable pc = false
  | None => True
  end /\
  (peerId ∉ pendingConnections (mgr w)) /\
  pendingCandidates (mgr w) !! peerId = None.

(** ** Derived notions for the receiving side *)

(** The plaintext [decryptChunk] finds in a buffer under the key [k], if the
    buffer authenticates. *)
Definition opens (k : AesKey) (buf : bytes) : option bytes :=
  aes_gcm_decrypt k (slice_to 12 buf) (slice_from 12 buf).

(** Every transfer in flight has counted the bytes it holds. *)
Definition transfers_consistent (w : World) : Prop :=
  map_Forall (fun (_ : string) t => received t = length (concat (chunks t)))
             (incomingTransfers (mgr w)).

(** ** Derived notions for the disconnect timers *)

(** What the timers are about: the armed timers, the next timer id and the
    manager's table of them. *)
Definition timer_state (w : World) : gmap nat string * nat * gmap string nat :=
  (timers w, next_timer w, disconnectedTimers (mgr w)).

Definition keeps_timers {A} (c : JS World A) : Prop :=
  forall w, timer_state (snd (c w)) = timer_state w.

(** Every armed timer is the one the manager has on record for its peer, and
    its id has been handed out. *)
Definition timers_registered (w : World) : Prop :=
  forall t p, timers w !! t = Some p ->
    disconnectedTimers (mgr w) !! p = Some t /\ t < next_timer w.

(** [closeAll]: [for (const peerId of this.connections.keys())
    this.closeConnection(peerId)].  A JavaScript [Map] hands out its keys in
    insertion order, which the finite map here does not record: [keys] is
    that enumeration.  Closing a peer removes only that peer's entry, so the
    live iterator still visits every other key. *)
Definition closeAll (keys : list string) : JS World unit :=
  for_each keys closeConnection.

End CloudDrop.

(** ** A reference platform

    Stand-ins for the browser's primitives, small enough to run: keys are
    numbers, the cipher appends a 16-byte checksum tag, base64 is the
    identity on byte strings.  They satisfy what the properties assume of a
    platform, and the model runs on them by computation. *)

Definition ref_byte_sum (b : bytes) : N :=
  foldr (fun x acc => (Byte.to_N x + acc)%N) 0%N b.

Definition ref_tag (k : nat) (iv p : bytes) : bytes :=
  replicate 16
    (default Byte.x00
       (Byte.of_N ((N.of_nat k + ref_byte_sum iv + ref_byte_sum p) mod 256)%N)).

Definition ref_encrypt (k : nat) (iv p : bytes) : bytes := p ++ ref_tag k iv p.

Definition ref_decrypt (k : nat) (iv c : bytes) : option bytes :=
  let n := length c - 16 in
  if (length c <? 16)%nat then None
  else if decide (drop n c = ref_tag k iv (take n c)) then Some (take n c)
  else None.

Definition ref_generateKey (seed : bytes) : nat * nat :=
  (N.to_nat (ref_byte_sum seed), N.to_nat (ref_byte_sum seed)).
Definition ref_exportKey (pk : nat) : bytes := replicate pk Byte.x01.
Definition ref_importKey (raw : bytes) : option nat :=
  match raw with [] => None | _ => Some (length raw) end.
Definition ref_deriveKey (sk pk : nat) : nat := sk + pk.
Definition ref_btoa (b : bytes) : string := String.string_of_list_byte b.
Definition ref_atob (s : string) : option bytes := Some (String.list_byte_of_string s).
Definition ref_random (n : nat) : Byte.byte :=
  default Byte.x00 (Byte.of_nat (n mod 256)).
Definition ref_uuid (b : bytes) : string := String.string_of_list_byte b.

Definition ref_platform : Platform :=
  {| PrivateKey := nat; PublicKey := nat; AesKey := nat;
     ecdh_generateKey := ref_generateKey;
     exportKey_spki := ref_exportKey; importKey_spki := ref_importKey;
     ecdh_deriveKey := ref_deriveKey;
     aes_gcm_encrypt := ref_encrypt; aes_gcm_decrypt := ref_decrypt;
     btoa := ref_btoa; atob := ref_atob;
     random_stream := ref_random; uuid_of_bytes := ref_uuid |}.

Abbreviation RefWorld := (@World ref_platform).
Abbreviation RefStore := (@CryptoStore ref_platform).

Definition ref_encryptChunk : string -> bytes -> JS RefStore bytes :=
  encryptChunk (platform := ref_platform).
Definition ref_decryptChunk : string -> bytes -> JS RefStore bytes :=
  decryptChunk (platform := ref_platform).
Definition ref_handleOffer : string -> negotiation_data -> JS RefWorld unit :=
  handleOffer (platform := ref_platform).
Definition ref_handleIceCandidate : string -> string -> JS RefWorld unit :=
  handleIceCandidate (platform := ref_platform).
Definition ref_handleAnswer : string -> negotiation_data -> JS RefWorld unit :=
  handleAnswer (platform := ref_platform).
Definition ref_closeConnection : string -> JS RefWorld unit :=
  closeConnection (platform := ref_platform).
Definition ref_dispatch : browser_event -> JS RefWorld unit :=
  dispatch (platform := ref_platform).
Definition ref_run_events : list browser_event -> RefWorld -> RefWorld :=
  run_events (platform := ref_platform).
Definition ref_handleMessage : string -> dc_data -> JS RefWorld unit :=
  handleMessage (platform := ref_platform).
Definition ref_handleRelayData : string -> relay_payload -> JS RefWorld unit :=
  handleRelayData (platform := ref_platform).
Definition ref_deliver : string -> list dc_data -> RefWorld -> RefWorld :=
  deliver (platform := ref_platform).
Definition ref_sendFile : string -> File -> Waiting (platform := ref_platform) -> JS RefWorld unit :=
  sendFile (platform := ref_platform).
Definition ref_sendText : string -> string -> Waiting (platform := ref_platform) -> JS RefWorld unit :=
  sendText (platform := ref_platform).

(** A store that holds the shared key [7] for ["peerB"]. *)
Definition store_with_key : RefStore :=
  {| cm := {| keyPair := None; sharedSecrets := {["peerB" := 7]} |}; cursor := 0 |}.

Definition with_mgr (m : WebRTCManager) (s : RefStore) : RefWorld :=
  {| crypto := s; mgr := m; signaling := []; events := []; console := [];
     timers := ∅; next_timer := 0; released := [] |}.

Definition open_channel : RTCDataChannel := {| readyState := dc_open; dc_sent := [] |}.

(** The sender's page: an open channel to ["peerB"] and the key for it. *)
Definition sender_world : RefWorld :=
  with_mgr (set_dataChannels {["peerB" := open_channel]}
              (set_myPeerId (Some "peerA") new_WebRTCManager))
           store_with_key.

(** The receiver's page: the same key, for ["peerA"], and a handler for
    received files. *)
Definition receiver_world : RefWorld :=
  with_mgr (set_handlers {| onFileReceived := true; onFileRequest := true;
                            onProgress := false; onTextReceived := true;
                            onConnectionStateChange := false |}
              (set_myPeerId (Some "peerB") new_WebRTCManager))
           {| cm := {| keyPair := None; sharedSecrets := {["peerA" := 7]} |};
              cursor := 0 |}.

Definition hello_file : File :=
  {| file_name := "hello.txt";
     file_content := [Byte.x68; Byte.x65; Byte.x6c; Byte.x6c; Byte.x6f] |}.

Definition remote_offer : SessionDescription := {| sd_type := sdp_offer; sd_sdp := "v=0" |}.

(** The page of peer ["b"], with a connection to ["a"] in the given
    signaling state and its own id set. *)
Definition connection_in (st : SignalingState) : RTCPeerConnection :=
  {| signalingState := st; connectionState := conn_connecting;
     iceConnectionState := ice_checking;
     currentLocalDescription := None; pendingLocalDescription := None;
     currentRemoteDescription := None; pendingRemoteDescription := None;
     remoteCandidates := [] |}.

Definition negotiating_world (me peer : string) (st : SignalingState) (making : bool) : RefWorld :=
  with_mgr (set_connections {[peer := connection_in st]}
              (set_makingOffer {[peer := making]}
                 (set_ignoreOffer {[peer := false]}
                    (set_myPeerId (Some me) new_WebRTCManager))))
           {| cm := new_CryptoManager (platform := ref_platform); cursor := 0 |}.

(** The page of peer [me] after it has sent [peer] an offer, and after the
    peer has replied with a provisional answer. *)
Definition local_offer : SessionDescription := {| sd_type := sdp_offer; sd_sdp := "" |}.
Definition remote_pranswer : SessionDescription :=
  {| sd_type := sdp_pranswer; sd_sdp := "v=0" |}.
Definition offering_world (me peer : string) : RefWorld :=
  with_mgr (set_connections
              {[peer := snd (pc_setLocalDescription local_offer new_RTCPeerConnection)]}
              (set_makingOffer {[peer := false]}
                 (set_ignoreOffer {[peer := false]}
                    (set_myPeerId (Some me) new_WebRTCManager))))
           {| cm := new_CryptoManager (platform := ref_platform); cursor := 0 |}.
Definition pranswered_world (me peer : string) : RefWorld :=
  snd (ref_handleAnswer peer {| nd_sdp := remote_pranswer; nd_publicKey := None |}
         (offering_world me peer)).

(** A page that knows its own id and nothing else. *)
Definition fresh_world (me : string) : RefWorld :=
  with_mgr (set_myPeerId (Some me) new_WebRTCManager)
           {| cm := new_CryptoManager (platform := ref_platform); cursor := 0 |}.

(** A store whose key pair is the number [n], with no secrets yet. *)
Definition store_with_keyPair (n : nat) : RefStore :=
  {| cm := {| keyPair := Some (Build_KeyPair (platform := ref_platform) n n);
              sharedSecrets := ∅ |};
     cursor := 0 |}.

(** A server list as [/api/ice-servers] may send it, and a network on which
    the first STUN server answers in 30 ms, the second in 10 ms and the
    third not at all. *)
Definition stun_a : IceServer := {| urls := OneUrl "stun:a.example:3478"; credential := None |}.
Definition stun_b : IceServer :=
  {| urls := ManyUrls ["stun:b.example:3478"; "stun:b.example:5349"]; credential := None |}.
Definition stun_c : IceServer := {| urls := OneUrl "stun:c.example:3478"; credential := None |}.
Definition turn_t : IceServer :=
  {| urls := ManyUrls ["turn:t.example:3478"; "stun:t.example:3478"];
     credential := Some "secret" |}.
Definition other_o : IceServer := {| urls := OneUrl "http://o.example"; credential := None |}.
Definition example_servers : list IceServer := [stun_a; turn_t; stun_b; stun_c; other_o].
Definition example_health (i : nat) (url : string) : option nat :=
  if String.eqb url "stun:a.example:3478" then Some 30
  else if String.eqb url "stun:b.example:3478" then Some 10
  else None.

(** A page that knows its own id and holds the key pair [n]. *)
Definition keyed_world (me : string) (n : nat) : RefWorld :=
  with_mgr (set_myPeerId (Some me) new_WebRTCManager) (store_with_keyPair n).
Definition ref_createOffer : string -> JS RefWorld unit :=
  createOffer (platform := ref_platform).
Definition remote_answer : SessionDescription := {| sd_type := sdp_answer; sd_sdp := "v=0" |}.

(** The sender's page in relay mode, a frame that authenticates under the
    key 7 and a buffer that does not. *)
Definition relaying_sender_world : RefWorld :=
  on_mgr (set_relayMode {["peerB" := true]}) sender_world.
Definition good_frame : bytes :=
  replicate 12 Byte.x00 ++ ref_encrypt 7 (replicate 12 Byte.x00) [Byte.x68; Byte.x69].
Definition bad_frame : bytes := replicate 30 Byte.x00.

(** A page whose connection to ["peerB"] has just been reported
    disconnected. *)
Definition disconnected_world : RefWorld :=
  snd (dispatch (platform := ref_platform)
         (IceConnectionStateChanged "peerB" ice_disconnected)
         (offering_world "peerA" "peerB")).

(** The page of [me], with key pair [n], after it has made its offer to
    [peer]; and the offer of a page whose key pair is [n]. *)
Definition glare_world (me peer : string) (n : nat) : RefWorld :=
  snd (ref_createOffer peer (keyed_world me n)).
Definition offer_from (n : nat) : negotiation_data :=
  {| nd_sdp := local_offer; nd_publicKey := Some (ref_btoa (ref_exportKey n)) |}.

(** A page with key pair 3 whose application listens to the connection
    state, and a wait for channel and key that runs into its 15 s limit. *)
Definition listening_world : RefWorld :=
  with_mgr (set_handlers {| onFileReceived := false; onFileRequest := false;
                            onProgress := false; onTextReceived := false;
                            onConnectionStateChange := true |}
              (set_myPeerId (Some "peerA") new_WebRTCManager))
           (store_with_keyPair 3).
Definition timed_out : Waiting (platform := ref_platform) :=
  {| meanwhile := fun w => w; slow := Some (fun w => w);
     settled := Throw (Error "Channel timeout") |}.

(** A wait in which the answer of ["peerB"] (key pair 5) arrives and the
    data channel opens. *)
Definition answered_and_opened : Waiting (platform := ref_platform) :=
  {| meanwhile := fun w =>
       snd (dispatch_channel (ChannelOpened "peerB")
              (snd (ref_handleAnswer "peerB"
                      {| nd_sdp := remote_answer;
                         nd_publicKey := Some (ref_btoa (ref_exportKey 5)) |} w)));
     slow := None;
     settled := Normal tt |}.

(** * Properties *)

Section Properties.

Context {platform : Platform}.

(** AES-GCM decrypts what it encrypted under the same key and iv. *)
Hypothesis aes_gcm_roundtrip : forall k iv p,
  aes_gcm_decrypt k iv (aes_gcm_encrypt k iv p) = Some p.
(** AES-GCM accepts a ciphertext only if it is the encryption, under that key
    and iv, of the plaintext it returns (CTR is a bijection and the tag is a
    function of key, iv and ciphertext). *)
Hypothesis aes_gcm_authentic : forall k iv c p,
  aes_gcm_decrypt k iv c = Some p -> c = aes_gcm_encrypt k iv p.
(** [atob(btoa(s)) = s] *)
Hypothesis atob_btoa : forall b, atob (btoa b) = Some b.

(** ** The secure channel *)

Lemma getRandomValues_length n s :
  exists iv, length iv = n /\
    getRandomValues n s = (Normal iv, {| cm := cm s; cursor := cursor s + n |}).
Proof.
  exists (random_stream <$> seq (cursor s) n). split; [|reflexivity].
  by rewrite length_fmap, length_seq.
Qed.

Lemma encryptChunk_frame peerId k p s :
  sharedSecrets (cm s) !! peerId = Some k ->
  exists iv, length iv = 12 /\
    encryptChunk peerId p s =
      (Normal (iv ++ aes_gcm_encrypt k iv p), {| cm := cm s; cursor := cursor s + 12 |}).
Proof.
  intros Hk. destruct (getRandomValues_length 12 s) as (iv & Hlen & Hrnd).
  exists iv. split; [done|].
  unfold encryptChunk, encrypt, bind, gets. rewrite Hk.
  unfold bind. rewrite Hrnd. reflexivity.
Qed.

Lemma decryptChunk_split peerId k buf s :
  sharedSecrets (cm s) !! peerId = Some k ->
  decryptChunk peerId buf s =
    match aes_gcm_decrypt k (take 12 buf) (drop 12 buf) with
    | Some p => (Normal p, s)
    | None => (Throw OperationError, s)
    end.
Proof.
  intros Hk. unfold decryptChunk, decrypt, bind, gets, slice_to, slice_from.
  rewrite Hk. by destruct (aes_gcm_decrypt _ _ _).
Qed.

Lemma decryptChunk_frame peerId k iv c s :
  sharedSecrets (cm s) !! peerId = Some k -> length iv = 12 ->
  decryptChunk peerId (iv ++ c) s =
    match aes_gcm_decrypt k iv c with
    | Some p => (Normal p, s)
    | None => (Throw OperationError, s)
    end.
Proof.
  intros Hk Hiv. rewrite (decryptChunk_split _ k) by done.
  by rewrite take_app_length', drop_app_length'.
Qed.

(** C1 (as amended).  With a shared key stored for the peer, [encryptChunk]
    yields a 12-byte nonce followed by the ciphertext, and [decryptChunk] of
    that buffer returns the plaintext.  [decryptChunk] of any buffer splits it
    at 12 bytes and fails closed: it throws the cipher's authentication error
    unless the buffer is the authentic frame, under the peer's key and the
    buffer's own nonce, of exactly the plaintext it returns. *)
Theorem framed_roundtrip_fail_closed (peerId : string) (k : AesKey) (p : bytes) (s : CryptoStore) :
  sharedSecrets (cm s) !! peerId = Some k ->
  exists iv s',
    length iv = 12 /\
    encryptChunk peerId p s = (Normal (iv ++ aes_gcm_encrypt k iv p), s') /\
    decryptChunk peerId (iv ++ aes_gcm_encrypt k iv p) s' = (Normal p, s') /\
    forall buf,
      (exists q, decryptChunk peerId buf s' = (Normal q, s') /\
                 aes_gcm_decrypt k (slice_to 12 buf) (slice_from 12 buf) = Some q /\
                 buf = slice_to 12 buf ++ aes_gcm_encrypt k (slice_to 12 buf) q)
      \/ (decryptChunk peerId buf s' = (Throw OperationError, s') /\
          aes_gcm_decrypt k (slice_to 12 buf) (slice_from 12 buf) = None).
Proof.
  intros Hk. destruct (encryptChunk_frame peerId k p s Hk) as (iv & Hlen & Henc).
  exists iv, {| cm := cm s; cursor := cursor s + 12 |}.
  split; [done|]. split; [done|]. split.
  - rewrite (decryptChunk_frame _ k) by done. by rewrite aes_gcm_roundtrip.
  - intros buf. rewrite (decryptChunk_split _ k) by done. unfold slice_to, slice_from.
    destruct (aes_gcm_decrypt k (take 12 buf) (drop 12 buf)) as [q|] eqn:Hd.
    + left. exists q. split; [done|]. split; [done|].
      apply aes_gcm_authentic in Hd. rewrite <- Hd. by rewrite take_drop.
    + right. done.
Qed.

(** The frame of another plaintext under the same key and nonce differs from
    the frame of [p] in its ciphertext only, and decrypts without error. *)
Lemma substituted_frame_accepted (peerId : string) (k : AesKey) (iv p q : bytes) (s : CryptoStore) :
  sharedSecrets (cm s) !! peerId = Some k -> length iv = 12 -> p <> q ->
  iv ++ aes_gcm_encrypt k iv q <> iv ++ aes_gcm_encrypt k iv p /\
  decryptChunk peerId (iv ++ aes_gcm_encrypt k iv q) s = (Normal q, s).
Proof.
  intros Hk Hiv Hne. split.
  - intros Heq. apply app_inv_head in Heq. apply Hne.
    assert (Some q = Some p) as [=]; [|done].
    by rewrite <- (aes_gcm_roundtrip k iv q), Heq, aes_gcm_roundtrip.
  - rewrite (decryptChunk_frame _ k) by done. by rewrite aes_gcm_roundtrip.
Qed.

(** ** The polite role *)

Lemma ltb_antisym_ne (a b : string) : a <> b -> String.ltb a b = negb (String.ltb b a).
Proof.
  intros Hne. unfold String.ltb. rewrite (String.compare_antisym b a).
  destruct (String.compare a b) eqn:Hc; simpl; try reflexivity.
  apply String.compare_eq_iff in Hc. contradiction.
Qed.

Lemma ltb_empty_r (a : string) : String.ltb a "" = false.
Proof. by destruct a. Qed.

Lemma truthy_false (a : string) : truthy a = false -> a = "".
Proof.
  unfold truthy. intros H. apply negb_false_iff in H. by apply String.eqb_eq in H.
Qed.

Lemma isPolite_of_swap (a b : string) :
  a <> b -> isPolite_of (Some a) b = negb (isPolite_of (Some b) a).
Proof.
  intros Hne. unfold isPolite_of.
  destruct (truthy a) eqn:Ha, (truthy b) eqn:Hb.
  - by apply ltb_antisym_ne.
  - apply truthy_false in Hb. subst b. by rewrite ltb_empty_r.
  - apply truthy_false in Ha. subst a. by rewrite ltb_empty_r.
  - apply truthy_false in Ha, Hb. congruence.
Qed.

(** C6.  Of two peers with distinct ids, each knowing its own, exactly one
    computes itself as polite: the role A computes towards B is the negation
    of the role B computes towards A.  A peer whose own id is not yet set
    computes itself as polite. *)
Theorem polite_role_exclusive (wa wb : World) (a b : string) :
  myPeerId (mgr wa) = Some a -> myPeerId (mgr wb) = Some b -> a <> b ->
  (exists pa pb : bool,
      _isPolite b wa = (Normal pa, wa) /\ _isPolite a wb = (Normal pb, wb) /\
      pa = negb pb /\ xorb pa pb = true) /\
  (forall (w : World) (peerId : string),
      myPeerId (mgr w) = None -> _isPolite peerId w = (Normal true, w)).
Proof.
  intros Ha Hb Hne. split.
  - exists (isPolite_of (Some a) b), (isPolite_of (Some b) a).
    unfold _isPolite, gets. rewrite Ha, Hb. repeat split; try done.
    + by apply isPolite_of_swap.
    + rewrite (isPolite_of_swap a b Hne). by destruct (isPolite_of (Some b) a).
  - intros w p Hw. unfold _isPolite, gets. by rewrite Hw.
Qed.

(** ** Closing a connection *)

Ltac js_unfold :=
  unfold closeConnection, clear_disconnected_timer, release_channel, release_connection,
    update, log, signaling_send,
    lift_crypto, removePeer, bind, gets, modify, ret, throw, try_catch in *.

(** Reduce the record updates of the stores, and nothing else: the maps stay
    folded. *)
Ltac world_unfold :=
  cbv beta iota zeta delta
    [on_crypto on_mgr on_signaling on_events on_console on_timers on_released
     set_connections set_dataChannels set_incomingTransfers
     set_pendingConnections set_pendingCandidates set_iceRestartCounts
     set_disconnectedTimers set_makingOffer set_ignoreOffer set_relayMode
     set_myPeerId set_handlers set_sharedSecrets set_keyPair
     crypto mgr signaling events console timers next_timer released
     connections dataChannels incomingTransfers pendingConnections
     pendingCandidates iceRestartCounts disconnectedTimers makingOffer
     ignoreOffer relayMode myPeerId handlers cm cursor keyPair sharedSecrets
     fst snd] in *.


(** ** Buffered candidates *)

Lemma pc_addIceCandidate_ok c pc :
  accepts_candidates pc ->
  pc_addIceCandidate c pc = (Normal tt, add_candidates [c] pc).
Proof.
  intros [[d Hd] Hs]. unfold pc_addIceCandidate. rewrite Hd.
  destruct pc as [st ? ? ? ? ? ? ?]. simpl in *. by destruct st.
Qed.

Lemma pc_addIceCandidate_no_remote c pc :
  remoteDescription pc = None ->
  pc_addIceCandidate c pc = (Throw InvalidStateError, pc).
Proof.
  intros Hd. unfold pc_addIceCandidate. rewrite Hd.
  destruct pc as [st ? ? ? ? ? ? ?]. simpl in *. by destruct st.
Qed.

Lemma add_candidates_accepts l pc :
  accepts_candidates pc -> accepts_candidates (add_candidates l pc).
Proof. done. Qed.

Lemma add_candidates_app l1 l2 pc :
  add_candidates l2 (add_candidates l1 pc) = add_candidates (l1 ++ l2) pc.
Proof. unfold add_candidates. simpl. by rewrite app_assoc. Qed.

Lemma add_candidates_nil pc : add_candidates [] pc = pc.
Proof. unfold add_candidates. by rewrite app_nil_r. Qed.

(** With a remote description set, the flush applies every buffered
    candidate, in arrival order. *)
Lemma for_each_flush_ok peerId l : forall w pc,
  connections (mgr w) !! peerId = Some pc -> accepts_candidates pc ->
  for_each l (flush_body peerId) w =
    (Normal tt,
     on_mgr (fun m => set_connections (<[peerId := add_candidates l pc]> (connections m)) m) w).
Proof.
  induction l as [|c l IH]; intros w pc Hpc Hacc.
  - simpl. unfold ret. rewrite add_candidates_nil.
    unfold on_mgr, set_connections. simpl. by rewrite insert_id.
  - simpl. unfold bind at 1. unfold flush_body at 1, try_catch, with_pc.
    rewrite Hpc, pc_addIceCandidate_ok by done.
    erewrite IH; [| simpl; apply lookup_insert_eq | by apply add_candidates_accepts].
    unfold on_mgr, set_connections. simpl.
    by rewrite insert_insert_eq, add_candidates_app.
Qed.

(** Without a remote description every buffered candidate is rejected by the
    connection, and the rejection is only logged. *)
Lemma for_each_flush_rejected peerId l : forall w pc,
  connections (mgr w) !! peerId = Some pc -> remoteDescription pc = None ->
  for_each l (flush_body peerId) w =
    (Normal tt,
     on_console (fun c => c ++ replicate (length l) (LogBufferedCandidateError InvalidStateError)) w).
Proof.
  induction l as [|c l IH]; intros w pc Hpc Hnone.
  - simpl. unfold ret, on_console. simpl. by rewrite app_nil_r.
  - simpl. unfold bind at 1. unfold flush_body at 1, try_catch, with_pc.
    rewrite Hpc, pc_addIceCandidate_no_remote by done.
    unfold log, modify. simpl.
    erewrite IH; [| simpl; rewrite lookup_insert_eq; reflexivity | done].
    unfold on_console, on_mgr, set_connections. simpl.
    rewrite insert_id by done. by rewrite <- app_assoc.
Qed.

Lemma flushPendingCandidates_ok peerId w pc :
  connections (mgr w) !! peerId = Some pc -> accepts_candidates pc ->
  _flushPendingCandidates peerId w = (Normal tt, flushed peerId w).
Proof.
  intros Hpc Hacc. unfold _flushPendingCandidates, flushed, bind, gets. rewrite Hpc.
  destruct (pendingCandidates (mgr w) !! peerId) as [[|c cs]|] eqn:Hp; try done.
  fold (flush_body peerId). rewrite (for_each_flush_ok peerId (c :: cs) w pc) by done.
  reflexivity.
Qed.

(** ** Negotiation *)

(** Run the glue of the completion monad and the record updates, leaving the
    maps folded. *)
Ltac js_eval :=
  cbv beta iota zeta delta
    [bind ret throw gets modify try_catch deref update log signaling_send
     call_handler lift_crypto with_pc with_dc
     on_crypto on_mgr on_signaling on_events on_console on_timers on_released
     set_connections set_dataChannels set_incomingTransfers
     set_pendingConnections set_pendingCandidates set_iceRestartCounts
     set_disconnectedTimers set_makingOffer set_ignoreOffer set_relayMode
     set_myPeerId set_handlers set_sharedSecrets set_keyPair
     crypto mgr signaling events console timers next_timer released
     connections dataChannels incomingTransfers pendingConnections
     pendingCandidates iceRestartCounts disconnectedTimers makingOffer
     ignoreOffer relayMode myPeerId handlers cm cursor keyPair sharedSecrets
     onFileReceived onFileRequest onProgress onTextReceived onConnectionStateChange
     signalingState connectionState iceConnectionState
     currentLocalDescription pendingLocalDescription
     currentRemoteDescription pendingRemoteDescription remoteCandidates
     remoteDescription localDescription sd_type sd_sdp nd_sdp nd_publicKey
     readyState dc_sent privateKey publicKey
     pc_createOffer pc_createAnswer pc_setLocalDescription
     pc_setRemoteDescription pc_addIceCandidate pc_close with_signaling
     with_iceConnectionState with_connectionState add_candidates rollback
     dc_send dc_close usable
     fst snd] in *.

Lemma flag_insert_eq (m : gmap string bool) k b : flag (<[k := b]> m) k = b.
Proof. unfold flag. by rewrite lookup_insert_eq. Qed.

Lemma flag_delete_eq (m : gmap string bool) k : flag (delete k m) k = false.
Proof. unfold flag. by rewrite lookup_delete_eq. Qed.

Lemma count_or_0_insert_eq (m : gmap string nat) k n : count_or_0 (<[k := n]> m) k = n.
Proof. unfold count_or_0. by rewrite lookup_insert_eq. Qed.

Lemma count_or_0_delete_eq (m : gmap string nat) k : count_or_0 (delete k m) k = 0.
Proof. unfold count_or_0. by rewrite lookup_delete_eq. Qed.

(** Use the facts at hand about lookups and platform calls. *)
Ltac js_rewrite :=
  first
    [ rewrite lookup_insert_eq
    | rewrite lookup_delete_eq
    | rewrite insert_insert_eq
    | match goal with
      | H : ?m !! ?k = Some ?v |- context [<[?k := ?v]> ?m] => rewrite (insert_id m k v H)
      end
    | rewrite flag_insert_eq
    | rewrite flag_delete_eq
    | rewrite count_or_0_insert_eq
    | rewrite count_or_0_delete_eq
    | match goal with
      | H : ?m !! ?k = _ |- context [?m !! ?k] => rewrite H
      | H : flag ?m ?k = _ |- context [flag ?m ?k] => rewrite H
      | H : count_or_0 ?m ?k = _ |- context [count_or_0 ?m ?k] => rewrite H
      | H : truthy ?s = _ |- context [truthy ?s] => rewrite H
      | H : isPolite_of ?a ?b = _ |- context [isPolite_of ?a ?b] => rewrite H
      | H : atob ?s = _ |- context [atob ?s] => rewrite H
      | H : importKey_spki ?s = _ |- context [importKey_spki ?s] => rewrite H
      | H : aes_gcm_decrypt ?k ?i ?c = _ |- context [aes_gcm_decrypt ?k ?i ?c] => rewrite H
      | H : importPeerPublicKey ?p ?k ?s = _ |- context [importPeerPublicKey ?p ?k ?s] => rewrite H
      | H : exportPublicKey ?s = _ |- context [exportPublicKey ?s] => rewrite H
      | H : keyPair ?c = _ |- context [keyPair ?c] => rewrite H
      end ].

Ltac js_bool := cbn [negb andb orb] in *.

Ltac js_run := js_eval; js_bool; repeat (js_rewrite; js_eval; js_bool).

Lemma createConnection_existing peerId w pc :
  connections (mgr w) !! peerId = Some pc -> usable pc = true ->
  createConnection peerId w = (Normal tt, w).
Proof.
  intros Hpc Hus. unfold createConnection. js_eval. by rewrite Hpc, Hus.
Qed.

Lemma importPeerPublicKey_null_keyPair peerId key raw pk s :
  keyPair (cm s) = None -> atob key = Some raw -> importKey_spki raw = Some pk ->
  importPeerPublicKey peerId key s = (Throw TypeError, s).
Proof.
  intros Hkp Hraw Hpk. unfold importPeerPublicKey. js_eval.
  rewrite Hraw, Hpk. js_eval. by rewrite Hkp.
Qed.

(** C10.  [importPeerPublicKey] needs the local key pair: called with
    well-formed key bytes while [keyPair] is still [null] it throws a
    TypeError, generates nothing and stores nothing.  [handleOffer] imports
    the remote key before it exports the local one: on such an offer it has
    applied the remote description, then fails in the import, logs the error,
    sends no answer and leaves the key pair unset. *)
Theorem importPeerPublicKey_requires_keyPair
    (w : World) (peerId key : string) (raw : bytes) (pk : PublicKey)
    (pc : RTCPeerConnection) (sdp : SessionDescription) :
  keyPair (cm (crypto w)) = None ->
  truthy key = true -> atob key = Some raw -> importKey_spki raw = Some pk ->
  connections (mgr w) !! peerId = Some pc -> usable pc = true ->
  signalingState pc = stable -> flag (makingOffer (mgr w)) peerId = false ->
  sd_type sdp = sdp_offer ->
  importPeerPublicKey peerId key (crypto w) = (Throw TypeError, crypto w) /\
  exists w' pc',
    handleOffer peerId {| nd_sdp := sdp; nd_publicKey := Some key |} w = (Normal tt, w') /\
    console w' = console w ++ [LogOfferError peerId TypeError] /\
    signaling w' = signaling w /\
    crypto w' = crypto w /\
    connections (mgr w') !! peerId = Some pc' /\
    remoteDescription pc' = Some sdp.
Proof.
  intros Hkp Hkey Hraw Hpk Hpc Hus Hst Hmk Hoffer.
  pose proof (importPeerPublicKey_null_keyPair peerId key raw pk (crypto w) Hkp Hraw Hpk) as Himp.
  split; [exact Himp|].
  destruct pc as [st cs ics cl pl cr pr rc]. simpl in Hst. subst st.
  destruct sdp as [ty body]. simpl in Hoffer. subst ty.
  unfold handleOffer. unfold bind at 1.
  rewrite (createConnection_existing _ _ _ Hpc Hus).
  unfold _isPolite, import_if_present.
  js_run. rewrite andb_false_r. js_run.
  erewrite flushPendingCandidates_ok;
    [ | js_eval; apply lookup_insert_eq | split; [eexists; reflexivity | discriminate] ].
  unfold flushed.
  destruct (pendingCandidates (mgr w) !! peerId) as [[|c l]|] eqn:Hpend;
    js_run; (do 2 eexists; split; [reflexivity|]); js_run; split_and!; reflexivity.
Qed.

(** Split on the value a stuck [match] waits for. *)
Ltac js_case :=
  match goal with
  | |- context [match ?x with _ => _ end] =>
      lazymatch x with
      | context [match _ with _ => _ end] => fail
      | _ => destruct x eqn:?
      end
  end.

(** The flush after a remote description was applied. *)
Ltac js_flush :=
  erewrite flushPendingCandidates_ok;
    [ | js_eval; apply lookup_insert_eq | split; [eexists; reflexivity | discriminate] ];
  unfold flushed; js_run.

Lemma exportPublicKey_total s :
  exists pub s', exportPublicKey s = (Normal pub, s').
Proof.
  unfold exportPublicKey, generateKeyPair, getRandomValues. js_eval.
  js_case; js_run.
  - by do 2 eexists.
  - destruct (ecdh_generateKey _) as [sk pk]. js_eval. by do 2 eexists.
Qed.

Lemma import_if_present_ok peerId key w :
  key_material_ok (crypto w) key ->
  exists s', import_if_present peerId key w = (Normal tt, on_crypto (fun _ => s') w).
Proof.
  intros [Hno | (k & raw & pk & kp & -> & Hraw & Hpk & Hkp)].
  - exists (crypto w). unfold import_if_present.
    destruct key as [k|]; simpl in Hno; js_eval; [|done].
    by rewrite Hno.
  - unfold import_if_present. js_eval. unfold importPeerPublicKey.
    destruct (truthy k); js_run; by eexists.
Qed.

Ltac js_import Hkey :=
  match goal with
  | |- context [import_if_present ?p ?k ?W] =>
      let s := fresh "s" in
      let H := fresh "Himp" in
      destruct (import_if_present_ok p k W Hkey) as [s H]; rewrite H
  end.

Ltac js_export :=
  match goal with
  | |- context [exportPublicKey ?s] =>
      let pub := fresh "pub" in
      let s' := fresh "s" in
      let H := fresh "Hexp" in
      destruct (exportPublicKey_total s) as (pub & s' & H); rewrite H
  end.

(** What [handleOffer] does when its own collision test holds (the local
    side is making an offer, or the signaling state is neither [stable] nor
    [have-local-offer]):
    - the impolite peer ignores the offer: it records [ignoreOffer = true]
      for the peer and logs the fact, and touches nothing else: connection,
      descriptions, candidates, keys and outbox stay as they were;
    - the polite peer, when the browser can apply the offer (signaling state
      [stable], [have-local-offer] or [have-remote-offer]) and the key
      material can be processed, rolls back its local offer if one is set,
      applies the remote offer, answers it, and ends [stable] with the remote
      offer and its own answer as current descriptions;
    - the polite peer in one of the other states ([have-local-pranswer],
      [have-remote-pranswer], [closed]) does not roll back: the browser
      refuses the offer, the error is logged, no answer is sent and the
      connection stays as it was. *)
Theorem offer_collision_resolution
    (w : World) (peerId : string) (data : negotiation_data) (pc : RTCPeerConnection) :
  connections (mgr w) !! peerId = Some pc -> usable pc = true ->
  offerCollision w peerId pc = true ->
  (isPolite_of (myPeerId (mgr w)) peerId = false ->
   handleOffer peerId data w =
     (Normal tt,
      on_console (fun c => c ++ [LogIgnoringOffer peerId])
        (on_mgr (fun m => set_ignoreOffer (<[peerId := true]> (ignoreOffer m)) m) w)))
  /\
  (isPolite_of (myPeerId (mgr w)) peerId = true ->
   sd_type (nd_sdp data) = sdp_offer ->
   signalingState pc ∈ [stable; have_local_offer; have_remote_offer] ->
   key_material_ok (crypto w) (nd_publicKey data) ->
   exists w' pc' pub,
     handleOffer peerId data w = (Normal tt, w') /\
     connections (mgr w') !! peerId = Some pc' /\
     signalingState pc' = stable /\
     currentRemoteDescription pc' = Some (nd_sdp data) /\
     currentLocalDescription pc' = Some answer_sdp /\
     pendingLocalDescription pc' = None /\
     signaling w' = signaling w ++ [SigAnswer peerId answer_sdp pub] /\
     console w' = console w ++
       match signalingState pc with
       | have_local_offer => [LogRollback peerId]
       | _ => []
       end)
  /\
  (isPolite_of (myPeerId (mgr w)) peerId = true ->
   sd_type (nd_sdp data) = sdp_offer ->
   signalingState pc ∈ [have_local_pranswer; have_remote_pranswer; signaling_closed] ->
   handleOffer peerId data w =
     (Normal tt,
      on_console (fun c => c ++ [LogOfferError peerId InvalidStateError])
        (on_mgr (fun m => set_ignoreOffer (<[peerId := false]> (ignoreOffer m)) m) w))).
Proof.
  intros Hpc Hus Hcoll. unfold offerCollision in Hcoll.
  split; [|split].
  - intros Himpolite. unfold handleOffer. unfold bind at 1.
    rewrite (createConnection_existing _ _ _ Hpc Hus). unfold _isPolite.
    destruct pc as [st cs ics cl pl cr pr rc].
    destruct (flag (makingOffer (mgr w)) peerId) eqn:Hmk.
    + js_run. reflexivity.
    + simpl in Hcoll. js_run. rewrite Hcoll. js_run. reflexivity.
  - intros Hpolite Hoffer Hst Hkey. unfold handleOffer. unfold bind at 1.
    rewrite (createConnection_existing _ _ _ Hpc Hus). unfold _isPolite.
    destruct data as [[ty body] key]. simpl in Hoffer. subst ty.
    destruct pc as [st cs ics cl pl cr pr rc]. cbn [signalingState] in *.
    repeat (apply elem_of_cons in Hst as [-> | Hst]); [ | | | by apply elem_of_nil in Hst ].
    all: destruct (flag (makingOffer (mgr w)) peerId) eqn:Hmk.
    all: js_run; rewrite ?andb_false_l; js_run.
    all: js_flush; js_case; [js_case|]; js_run.
    all: js_import Hkey; js_run; js_export; js_run.
    all: do 3 eexists; (split; [reflexivity|]); js_run; split_and!; rewrite ?app_nil_r; reflexivity.
  - intros Hpolite Hoffer Hst. unfold handleOffer. unfold bind at 1.
    rewrite (createConnection_existing _ _ _ Hpc Hus). unfold _isPolite.
    destruct data as [[ty body] key]. simpl in Hoffer. subst ty.
    destruct pc as [st cs ics cl pl cr pr rc]. cbn [signalingState] in *.
    repeat (apply elem_of_cons in Hst as [-> | Hst]); [ | | | by apply elem_of_nil in Hst ].
    all: destruct (flag (makingOffer (mgr w)) peerId) eqn:Hmk.
    all: js_run; rewrite ?andb_false_l; js_run; rewrite ?insert_insert_eq; reflexivity.
Qed.

(** C4 (the code diverges).  Glare: this peer has sent an offer of its own,
    so its connection is in [have-local-offer] and [createOffer] has put
    [makingOffer] back to [false], and the peer's offer arrives.  The
    collision test of [handleOffer] is false in that state, so the role is
    never consulted: the impolite peer, like the polite one, rolls back its
    own offer, applies the remote offer and answers it, and [ignoreOffer]
    stays [false].  Its own offer is gone, and the answer to it, when it
    comes, finds the connection [stable] and is dropped with a console
    line. *)
Theorem offer_glare_not_detected
    (w : World) (peerId : string) (data answer : negotiation_data)
    (pc : RTCPeerConnection) :
  connections (mgr w) !! peerId = Some pc -> usable pc = true ->
  signalingState pc = have_local_offer ->
  flag (makingOffer (mgr w)) peerId = false ->
  sd_type (nd_sdp data) = sdp_offer ->
  key_material_ok (crypto w) (nd_publicKey data) ->
  offerCollision w peerId pc = false /\
  exists w' pc' pub,
    handleOffer peerId data w = (Normal tt, w') /\
    flag (ignoreOffer (mgr w')) peerId = false /\
    connections (mgr w') !! peerId = Some pc' /\
    signalingState pc' = stable /\
    currentRemoteDescription pc' = Some (nd_sdp data) /\
    currentLocalDescription pc' = Some answer_sdp /\
    pendingLocalDescription pc' = None /\
    signaling w' = signaling w ++ [SigAnswer peerId answer_sdp pub] /\
    console w' = console w ++ [LogRollback peerId] /\
    handleAnswer peerId answer w'
    = (Normal tt, on_console (fun c => c ++ [LogAnswerWrongState peerId]) w').
Proof.
  intros Hpc Hus Hst Hmk Hoffer Hkey. split.
  { unfold offerCollision. by rewrite Hmk, Hst. }
  unfold handleOffer. unfold bind at 1.
  rewrite (createConnection_existing _ _ _ Hpc Hus). unfold _isPolite.
  destruct data as [[ty body] key]. simpl in Hoffer. subst ty.
  destruct pc as [st cs ics cl pl cr pr rc]. cbn [signalingState] in Hst. subst st.
  js_run. rewrite andb_false_r. js_run.
  js_flush; js_case; [js_case|]; js_run.
  all: js_import Hkey; js_run; js_export; js_run.
  all: do 3 eexists; (split; [reflexivity|]); js_run.
  all: split_and!; rewrite ?app_nil_r; try reflexivity.
  all: unfold handleAnswer; js_run; reflexivity.
Qed.

(** ** ICE restarts *)

Lemma restart_attempts_app p c1 c2 :
  restart_attempts p (c1 ++ c2) = restart_attempts p c1 + restart_attempts p c2.
Proof. unfold restart_attempts. by rewrite List.filter_app, length_app. Qed.

Lemma preserves_ret {A} p (a : A) : preserves p (ret a).
Proof. by intros w. Qed.

Lemma preserves_throw {A} p e : preserves p (@throw World A e).
Proof. by intros w. Qed.

Lemma preserves_gets {A} p (f : World -> A) : preserves p (gets f).
Proof. by intros w. Qed.

Lemma preserves_bind {A B} p (c : JS World A) (k : A -> JS World B) :
  preserves p c -> (forall a, preserves p (k a)) -> preserves p (bind c k).
Proof.
  intros Hc Hk w. unfold bind. specialize (Hc w).
  destruct (c w) as [[a|e] w1]; simpl in *; [|done].
  by rewrite Hk.
Qed.

Lemma preserves_try_catch {A} p (c : JS World A) (h : js_error -> JS World A) :
  preserves p c -> (forall e, preserves p (h e)) -> preserves p (try_catch c h).
Proof.
  intros Hc Hh w. unfold try_catch. specialize (Hc w).
  destruct (c w) as [[a|e] w1]; simpl in *; [done|].
  by rewrite Hh.
Qed.

Lemma preserves_with_pc {A} p q (op : JS RTCPeerConnection A) : preserves p (with_pc q op).
Proof.
  intros w. unfold with_pc, watched.
  destruct (connections (mgr w) !! q) as [pc|] eqn:Hq; [|done].
  destruct (op pc) as [r pc']. simpl.
  destruct (decide (q = p)) as [->|Hne].
  - by rewrite lookup_insert_eq, Hq.
  - by rewrite lookup_insert_ne.
Qed.

Lemma preserves_lift_crypto {A} p (c : JS CryptoStore A) : preserves p (lift_crypto c).
Proof. intros w. unfold lift_crypto. by destruct (c (crypto w)). Qed.

Lemma preserves_signaling_send p m : preserves p (signaling_send m).
Proof. by intros w. Qed.

Lemma preserves_log p l : is_attempt p l = false -> preserves p (log l).
Proof.
  intros Hl w. unfold log, modify, watched. simpl.
  rewrite restart_attempts_app. unfold restart_attempts at 2. simpl. rewrite Hl.
  simpl. by rewrite Nat.add_0_r.
Qed.

Lemma preserves_on_timers p f g : preserves p (modify (on_timers f g)).
Proof. by intros w. Qed.

Create HintDb preserves.
#[local] Hint Resolve preserves_ret preserves_throw preserves_gets preserves_with_pc
  preserves_lift_crypto preserves_signaling_send preserves_on_timers : preserves.
#[local] Hint Extern 2 (preserves _ (bind _ _)) => apply preserves_bind; [|intros] : preserves.
#[local] Hint Extern 2 (preserves _ (try_catch _ _)) =>
  apply preserves_try_catch; [|intros] : preserves.
#[local] Hint Extern 2 (preserves _ (log _)) => apply preserves_log; reflexivity : preserves.

Lemma watched_measure p w w' :
  watched p w' = watched p w -> restart_measure p w' = restart_measure p w.
Proof.
  unfold watched, restart_measure. intros [= H1 H2 H3]. rewrite H2, H3.
  by destruct (connections (mgr w') !! p), (connections (mgr w) !! p).
Qed.

Lemma clear_disconnected_timer_preserves p q : preserves p (clear_disconnected_timer q).
Proof.
  intros w. unfold clear_disconnected_timer, bind, gets.
  by destruct (disconnectedTimers (mgr w) !! q).
Qed.
#[local] Hint Resolve clear_disconnected_timer_preserves : preserves.

Lemma restart_body_preserves p q :
  preserves p
    (try_catch
       (do offer <- with_pc q pc_createOffer;
        with_pc q (pc_setLocalDescription offer);;
        do publicKey <- lift_crypto exportPublicKey;
        signaling_send (SigOffer q offer publicKey true))
       (fun e => log (LogIceRestartFailed q e))).
Proof. auto 10 with preserves. Qed.

(** An attempt on a peer that has a connection uses up one of the attempts
    still allowed. *)
Lemma attemptIceRestart_measure p q w :
  is_Some (connections (mgr w) !! q) ->
  restart_measure p (snd (_attemptIceRestart q w)) <= restart_measure p w.
Proof.
  intros [pc Hpc]. unfold _attemptIceRestart. unfold bind at 1, gets at 1.
  destruct (MAX_ICE_RESTARTS <=? count_or_0 (iceRestartCounts (mgr w)) q)%nat eqn:Hmax.
  { erewrite watched_measure; [reflexivity|]. by apply preserves_log. }
  apply Nat.leb_gt in Hmax.
  unfold bind at 1, update at 1, modify at 1. unfold bind at 1, log at 1, modify at 1.
  erewrite watched_measure; [|apply restart_body_preserves].
  unfold restart_measure. simpl. rewrite restart_attempts_app.
  unfold restart_attempts at 2. simpl.
  destruct (decide (q = p)) as [->|Hne].
  - rewrite String.eqb_refl, Hpc. simpl.
    rewrite count_or_0_insert_eq. lia.
  - assert (String.eqb q p = false) as -> by by apply String.eqb_neq.
    simpl. unfold count_or_0. rewrite lookup_insert_ne by done. lia.
Qed.

Lemma closeConnection_measure p q w :
  restart_measure p (snd (closeConnection q w)) <= restart_measure p w.
Proof.
  unfold restart_measure.
  destruct (disconnectedTimers (mgr w) !! q) as [t|] eqn:Ht;
    js_unfold; rewrite Ht; world_unfold.
  all: destruct (decide (q = p)) as [->|Hne];
    [ rewrite lookup_delete_eq; lia
    | unfold count_or_0; rewrite !lookup_delete_ne by done;
      rewrite lookup_alter_ne by done; lia ].
Qed.

Lemma restart_measure_frame p w w' :
  connections (mgr w') !! p = connections (mgr w) !! p \/
    (is_Some (connections (mgr w') !! p) /\ is_Some (connections (mgr w) !! p)) ->
  iceRestartCounts (mgr w') !! p = iceRestartCounts (mgr w) !! p ->
  console w' = console w ->
  restart_measure p w' = restart_measure p w.
Proof.
  intros Hc Hn Hl. unfold restart_measure, count_or_0. rewrite Hn, Hl.
  destruct Hc as [-> | [[? ->] [? ->]]]; done.
Qed.

Lemma ice_event_measure p q s w :
  resets_counter p (IceConnectionStateChanged q s) = false ->
  restart_measure p (snd (dispatch (IceConnectionStateChanged q s) w))
  <= restart_measure p w.
Proof.
  intros Hev. unfold dispatch. unfold bind at 1, gets at 1.
  destruct (connections (mgr w) !! q) as [pc|] eqn:Hq; [|done].
  unfold _handleIceConnectionStateChange, clear_disconnected_timer, setTimeout_disconnected.
  destruct (disconnectedTimers (mgr w) !! q) as [t|] eqn:Ht; destruct s; js_run.
  all: try (apply Nat.eq_le_incl; apply restart_measure_frame; js_eval;
            [ destruct (decide (q = p)) as [->|Hne];
              [ right; rewrite lookup_insert_eq, Hq; split; eauto
              | left; by rewrite lookup_insert_ne ]
            | first [ reflexivity
                    | apply lookup_delete_ne; intros ->; simpl in Hev;
                      by rewrite String.eqb_refl in Hev ]
            | reflexivity ]).
  all: etrans; [ apply attemptIceRestart_measure; js_eval; rewrite lookup_insert_eq; eauto | ].
  all: apply Nat.eq_le_incl; apply restart_measure_frame; js_eval;
         [ destruct (decide (q = p)) as [->|Hne];
           [ right; rewrite lookup_insert_eq, Hq; split; eauto
           | left; by rewrite lookup_insert_ne ]
         | reflexivity | reflexivity ].
Qed.

Lemma connection_event_measure p q s w :
  restart_measure p (snd (dispatch (ConnectionStateChanged q s) w))
  <= restart_measure p w.
Proof.
  unfold dispatch. unfold bind at 1, gets at 1.
  destruct (connections (mgr w) !! q) as [pc|] eqn:Hq; [|done].
  assert (Hframe : forall pc',
    restart_measure p
      (on_mgr (fun m => set_connections (<[q := pc']> (connections m)) m) w)
    = restart_measure p w).
  { intros pc'. apply restart_measure_frame; js_eval; try reflexivity.
    destruct (decide (q = p)) as [->|Hne];
      [ right; rewrite lookup_insert_eq, Hq; split; eauto
      | left; by rewrite lookup_insert_ne ]. }
  unfold _handleConnectionStateChange.
  destruct s; js_run; try (by rewrite Hframe).
  - match goal with
    | |- context [(MAX_ICE_RESTARTS <=? ?c)%nat] => destruct (MAX_ICE_RESTARTS <=? c)%nat
    end; js_run; [|by rewrite Hframe].
    etrans; [apply closeConnection_measure|]. by rewrite Hframe.
  - etrans; [apply closeConnection_measure|]. by rewrite Hframe.
Qed.

Lemma timer_event_measure p t w :
  restart_measure p (snd (dispatch (TimerFired t) w)) <= restart_measure p w.
Proof.
  unfold dispatch. unfold bind at 1, gets at 1.
  destruct (timers w !! t) as [q|] eqn:Ht; [|done].
  unfold disconnected_timeout.
  destruct (connections (mgr w) !! q) as [pc|] eqn:Hq; js_run; [|done].
  destruct pc as [st cs [] cl pl cr pr rc]; js_run.
  all: try (etrans; [apply attemptIceRestart_measure; js_eval; eauto|]).
  all: apply Nat.eq_le_incl; apply restart_measure_frame; js_eval;
    [ left; rewrite ?(insert_id _ _ _ Hq); reflexivity | reflexivity | reflexivity ].
Qed.

Lemma dispatch_measure p ev w :
  resets_counter p ev = false ->
  restart_measure p (snd (dispatch ev w)) <= restart_measure p w.
Proof.
  destruct ev as [q s|q s|t]; intros Hev.
  - by apply ice_event_measure.
  - apply connection_event_measure.
  - apply timer_event_measure.
Qed.

Lemma run_events_measure p evs : forall w,
  Forall (fun ev => resets_counter p ev = false) evs ->
  restart_measure p (run_events evs w) <= restart_measure p w.
Proof.
  induction evs as [|ev evs IH]; intros w Hevs; [done|].
  apply Forall_cons in Hevs as [Hev Hevs]. simpl.
  etrans; [by apply IH|]. by apply dispatch_measure.
Qed.

Lemma closeConnection_removes p w :
  exists w',
    closeConnection p w = (Normal tt, w') /\
    connections (mgr w') !! p = None /\
    dataChannels (mgr w') !! p = None /\
    iceRestartCounts (mgr w') !! p = None.
Proof.
  destruct (disconnectedTimers (mgr w) !! p) as [t|] eqn:Ht;
    (eexists; split; [js_unfold; rewrite Ht; reflexivity|]);
    world_unfold; split_and!; apply lookup_delete_eq.
Qed.

(** C5.  Over any sequence of browser events that contains no return of the
    peer's ICE state to [connected] or [completed], the restart attempts made
    for the peer are at most the maximum of 2 less the restarts already
    counted.  With the counter at the maximum, a [failed] connection state
    closes the peer's session.  An ICE state of [connected] or [completed]
    puts the counter back to zero. *)
Theorem ice_restarts_bounded (w : World) (p : string) (evs : list browser_event) :
  Forall (fun ev => resets_counter p ev = false) evs ->
  (restart_attempts p (console (run_events evs w))
     <= restart_attempts p (console w)
        + (MAX_ICE_RESTARTS - count_or_0 (iceRestartCounts (mgr w)) p)
   /\ restart_attempts p (console (run_events evs w))
     <= restart_attempts p (console w) + 2)
  /\ (forall pc,
        connections (mgr w) !! p = Some pc ->
        MAX_ICE_RESTARTS <= count_or_0 (iceRestartCounts (mgr w)) p ->
        exists w',
          dispatch (ConnectionStateChanged p conn_failed) w = (Normal tt, w') /\
          connections (mgr w') !! p = None /\
          dataChannels (mgr w') !! p = None /\
          iceRestartCounts (mgr w') !! p = None)
  /\ (forall pc s,
        connections (mgr w) !! p = Some pc ->
        s = ice_connected \/ s = ice_completed ->
        exists w',
          dispatch (IceConnectionStateChanged p s) w = (Normal tt, w') /\
          count_or_0 (iceRestartCounts (mgr w')) p = 0).
Proof.
  intros Hevs. split; [|split].
  - pose proof (run_events_measure p evs w Hevs) as Hm.
    unfold restart_measure in Hm. unfold MAX_ICE_RESTARTS in *.
    destruct (connections (mgr (run_events evs w)) !! p),
      (connections (mgr w) !! p); lia.
  - intros pc Hpc Hmax. apply Nat.leb_le in Hmax.
    unfold dispatch, _handleConnectionStateChange. js_run.
    unfold count_or_0 in *. rewrite Hmax.
    match goal with
    | |- context [closeConnection p ?W] =>
        destruct (closeConnection_removes p W) as (w' & Hc & H1 & H2 & H3)
    end.
    exists w'. by rewrite Hc.
  - intros pc s Hpc Hs.
    unfold dispatch, _handleIceConnectionStateChange, clear_disconnected_timer.
    destruct (disconnectedTimers (mgr w) !! p) as [t|] eqn:Ht;
      destruct Hs as [-> | ->]; js_run;
      (eexists; split; [reflexivity|]); js_eval; apply count_or_0_delete_eq.
Qed.

(** ** Inbound transfers *)

(** C7 (as amended).  Inbound transfers are keyed by the sending peer, one
    per peer: a [file-start] stores the new transfer under the peer's id on
    both paths.  While the peer has no inbound transfer, a data chunk or a
    [file-end] from it is dropped and changes no transfer state, on the data
    channel and on the relay.  On the relay a chunk whose transfer id is not
    that of the peer's transfer is dropped as well. *)
Theorem inbound_transfer_keyed_by_peer (w : World) (p : string) :
  (forall fileId name size n,
      incomingTransfers
        (mgr (snd (handleMessage p (DString (Some (FileStart fileId name size n))) w))) !! p
        = Some (new_transfer fileId name size n) /\
      incomingTransfers
        (mgr (snd (handleRelayData p (RFileStart fileId name size n) w))) !! p
        = Some (new_transfer fileId name size n))
  /\ (incomingTransfers (mgr w) !! p = None ->
      (forall b, handleMessage p (DBinary b) w = (Normal tt, w)) /\
      (forall fileId, handleMessage p (DString (Some (FileEnd fileId))) w = (Normal tt, w)) /\
      (forall data, (exists fileId d, data = RChunk fileId d) \/ (exists fileId, data = RFileEnd fileId) ->
         exists w',
           handleRelayData p data w = (Normal tt, w') /\
           incomingTransfers (mgr w') = incomingTransfers (mgr w) /\
           events w' = events w /\ crypto w' = crypto w))
  /\ (forall t fileId d,
        incomingTransfers (mgr w) !! p = Some t -> t_fileId t <> fileId ->
        exists w',
          handleRelayData p (RChunk fileId d) w = (Normal tt, w') /\
          incomingTransfers (mgr w') = incomingTransfers (mgr w) /\
          events w' = events w /\ crypto w' = crypto w).
Proof.
  split; [|split].
  - intros fileId name size n.
    unfold handleMessage, handleRelayData, receive_start, call_handler.
    split.
    + destruct (onFileRequest (handlers (mgr w))) eqn:Hh; js_run; try rewrite Hh;
        js_run; first [done | apply lookup_insert_eq].
    + destruct (flag (relayMode (mgr w)) p) eqn:Hr,
        (onFileRequest (handlers (mgr w))) eqn:Hh; js_run; try rewrite Hh;
        js_run; first [done | apply lookup_insert_eq].
  - intros Hnone. split_and!.
    + intros b. unfold handleMessage. by js_run.
    + intros fileId. unfold handleMessage, receive_end. by js_run.
    + intros data Hdata. unfold handleRelayData, receive_end.
      destruct (flag (relayMode (mgr w)) p) eqn:Hr;
        destruct Hdata as [(fileId & d & ->) | (fileId & ->)]; js_run;
        by eexists.
  - intros t fileId d Ht Hne. unfold handleRelayData.
    apply String.eqb_neq in Hne.
    destruct (flag (relayMode (mgr w)) p) eqn:Hr; js_run; rewrite Hne; by eexists.
Qed.

(** ** Text messages *)

(** In relay mode the text goes out on the signaling socket as it is. *)
Lemma sendText_relay_plaintext p text neg w :
  flag (relayMode (mgr w)) p = true ->
  sendText p text neg w =
    (Normal tt, on_signaling (fun l => l ++ [SigRelayData p (RText text)]) w).
Proof. intros Hr. unfold sendText, _sendTextViaRelay. by js_run. Qed.

(** On an established channel the text goes out as the [content] field of a
    JSON record; no call into the crypto module is made. *)
Lemma sendText_direct_plaintext p text neg w dc k :
  flag (relayMode (mgr w)) p = false ->
  dataChannels (mgr w) !! p = Some dc -> readyState dc = dc_open ->
  sharedSecrets (cm (crypto w)) !! p = Some k ->
  sendText p text neg w =
    (Normal tt,
     on_mgr (fun m => set_dataChannels
               (<[p := {| readyState := dc_open;
                          dc_sent := dc_sent dc ++ [DString (Some (TextMessage text))] |}]>
                  (dataChannels m)) m) w).
Proof.
  intros Hr Hdc Hopen Hk. destruct dc as [rs sent]. simpl in Hopen. subst rs.
  unfold sendText, ensureConnection, hasSharedSecret. by js_run.
Qed.

(** ** Remote candidates *)

Lemma handleIceCandidate_applies p c w pc :
  connections (mgr w) !! p = Some pc -> accepts_candidates pc ->
  handleIceCandidate p c w =
    (Normal tt,
     on_mgr (fun m => set_connections (<[p := add_candidates [c] pc]> (connections m)) m) w).
Proof.
  intros Hpc [[d Hd] Hs]. unfold handleIceCandidate.
  destruct pc as [[] cs ics cl pl cr [pr|] rc]; js_run; try done.
  all: simpl in Hd; subst cr; by js_run.
Qed.

Lemma handleIceCandidate_buffers p c w :
  match connections (mgr w) !! p with
  | Some pc => remoteDescription pc = None
  | None => True
  end ->
  handleIceCandidate p c w =
    (Normal tt,
     on_mgr (fun m => set_pendingCandidates
               (<[p := default [] (pendingCandidates m !! p) ++ [c]]> (pendingCandidates m))
               m) w).
Proof.
  intros Hpc. unfold handleIceCandidate.
  destruct (connections (mgr w) !! p) as [pc|] eqn:Hc; js_run; [|done].
  destruct pc as [st cs ics cl pl cr [pr|] rc]; js_run; [done|].
  simpl in Hpc. subst cr. by js_run.
Qed.

(** A new connection is handed the buffered candidate at once: it has no
    remote description yet and rejects it, and the buffer is deleted. *)
Lemma createConnection_drops_buffer p w c :
  connections (mgr w) !! p = None ->
  p ∉ pendingConnections (mgr w) ->
  pendingCandidates (mgr w) !! p = Some [c] ->
  exists w',
    createConnection p w = (Normal tt, w') /\
    connections (mgr w') !! p = Some new_RTCPeerConnection /\
    pendingCandidates (mgr w') !! p = None /\
    console w' = console w ++ [LogBufferedCandidateError InvalidStateError].
Proof.
  intros Hnone Hnp Hbuf. unfold createConnection, _flushPendingCandidates.
  js_run. rewrite bool_decide_eq_false_2 by done. js_run.
  fold (flush_body p).
  erewrite (for_each_flush_rejected p [c]);
    [ | js_eval; apply lookup_insert_eq | reflexivity ].
  js_run. eexists. split; [reflexivity|]. js_run. split_and!; try done.
Qed.

(** ** Chunked transfer *)

Lemma CHUNK_SIZE_pos : 0 < CHUNK_SIZE.
Proof. unfold CHUNK_SIZE. lia. Qed.

Lemma ceil_div_0 b : 0 < b -> ceil_div 0 b = 0.
Proof. intros Hb. unfold ceil_div. apply Nat.div_small. lia. Qed.

Lemma ceil_div_step a b : 0 < b -> 0 < a -> ceil_div a b = S (ceil_div (a - b) b).
Proof.
  intros Hb Ha. unfold ceil_div.
  destruct (le_lt_dec a b) as [Hle|Hgt].
  - replace (a - b) with 0 by lia.
    rewrite (Nat.div_small (0 + b - 1) b) by lia.
    symmetry. apply (Nat.div_unique _ _ _ (a - 1)); lia.
  - replace (a + b - 1) with ((a - b + b - 1) + 1 * b) by lia.
    rewrite Nat.div_add by lia. lia.
Qed.

Lemma split_chunks_concat content : forall fuel offset,
  length content <= offset + fuel ->
  concat (split_chunks fuel (length content) content offset) = drop offset content.
Proof.
  pose proof CHUNK_SIZE_pos as HC.
  induction fuel as [|fuel IH]; intros offset Hfuel; cbn [split_chunks];
    destruct (Nat.ltb_spec offset (length content)) as [Hlt|Hlt];
    try (by rewrite drop_ge); [exfalso; lia|].
  cbn [concat]. rewrite IH by lia. rewrite <- drop_drop. apply take_drop.
Qed.

Lemma split_chunks_length content size : forall fuel offset,
  size <= offset + fuel ->
  length (split_chunks fuel size content offset) = ceil_div (size - offset) CHUNK_SIZE.
Proof.
  pose proof CHUNK_SIZE_pos as HC.
  induction fuel as [|fuel IH]; intros offset Hfuel; cbn [split_chunks];
    destruct (Nat.ltb_spec offset size) as [Hlt|Hlt];
    try (replace (size - offset) with 0 by lia; by rewrite ceil_div_0).
  cbn [length]. rewrite IH by lia.
  rewrite (ceil_div_step (size - offset)) by lia. do 2 f_equal. lia.
Qed.

Lemma file_slice_chunk file offset :
  file_slice file offset (offset + CHUNK_SIZE)
  = take CHUNK_SIZE (drop offset (file_content file)).
Proof. unfold file_slice. by replace (offset + CHUNK_SIZE - offset) with CHUNK_SIZE by lia. Qed.

Lemma received_files_app_other w e :
  match e with FileReceived _ _ _ => False | _ => True end ->
  omap (fun e => match e with
                 | FileReceived p n b => Some (p, n, b)
                 | _ => None
                 end) (events w ++ [e]) = received_files w.
Proof.
  intros He. unfold received_files. rewrite omap_app. simpl.
  destruct e; try done; by rewrite app_nil_r.
Qed.

Lemma received_files_app_file w p n b :
  omap (fun e => match e with
                 | FileReceived p n b => Some (p, n, b)
                 | _ => None
                 end) (events w ++ [FileReceived p n b]) = received_files w ++ [(p, n, b)].
Proof. unfold received_files. by rewrite omap_app. Qed.

(** One round of the direct send loop: a fresh frame of the slice at
    [offset] is appended to what the channel was given. *)
Lemma direct_chunk_ok B fileId file offset w dc k :
  dataChannels (mgr w) !! B = Some dc -> readyState dc = dc_open ->
  sharedSecrets (cm (crypto w)) !! B = Some k ->
  exists w' frame,
    direct_chunk B fileId file offset w = (Normal tt, w') /\
    authentic_frame k frame (take CHUNK_SIZE (drop offset (file_content file))) /\
    dataChannels (mgr w') !! B
      = Some {| readyState := dc_open; dc_sent := dc_sent dc ++ [DBinary frame] |} /\
    sharedSecrets (cm (crypto w')) !! B = Some k.
Proof.
  intros Hdc Hopen Hk. destruct dc as [rs sent]. simpl in Hopen. subst rs.
  destruct (encryptChunk_frame B k (take CHUNK_SIZE (drop offset (file_content file)))
              (crypto w) Hk) as (iv & Hiv & Henc).
  unfold direct_chunk, call_handler. rewrite file_slice_chunk.
  js_eval. rewrite Henc. js_run.
  destruct (onProgress (handlers (mgr w))) eqn:Hh; js_run; try rewrite Hh;
    (do 2 eexists; split; [reflexivity|]); js_run;
    (split; [by exists iv|]); by split.
Qed.

Lemma send_loop_direct B fileId file k : forall fuel offset w dc,
  dataChannels (mgr w) !! B = Some dc -> readyState dc = dc_open ->
  sharedSecrets (cm (crypto w)) !! B = Some k ->
  file_size file <= offset + fuel ->
  exists w' frames,
    while_offset fuel (file_size file) (direct_chunk B fileId file) offset w
      = (Normal tt, w') /\
    dataChannels (mgr w') !! B
      = Some {| readyState := dc_open; dc_sent := dc_sent dc ++ (DBinary <$> frames) |} /\
    sharedSecrets (cm (crypto w')) !! B = Some k /\
    Forall2 (authentic_frame k) frames
      (split_chunks fuel (file_size file) (file_content file) offset).
Proof.
  pose proof CHUNK_SIZE_pos as HC.
  induction fuel as [|fuel IH]; intros offset w dc Hdc Hopen Hk Hfuel;
    cbn [while_offset split_chunks];
    destruct (Nat.ltb_spec offset (file_size file)) as [Hlt|Hge];
    try (exists w, []; destruct dc as [rs sent]; simpl in Hopen; subst rs;
         simpl; rewrite app_nil_r; by split_and!).
  { exfalso. lia. }
  destruct (direct_chunk_ok B fileId file offset w dc k Hdc Hopen Hk)
    as (w1 & frame & Hrun & Hframe & Hdc1 & Hk1).
  destruct (IH (offset + CHUNK_SIZE) w1 _ Hdc1 eq_refl Hk1 ltac:(lia))
    as (w2 & frames & Hrun2 & Hdc2 & Hk2 & Hall).
  exists w2, (frame :: frames). split_and!; try done.
  - unfold bind. by rewrite Hrun, Hrun2.
  - rewrite Hdc2. simpl. by rewrite <- app_assoc.
  - by constructor.
Qed.

(** The receiver on one authentic frame: the plaintext is appended to the
    peer's transfer. *)
Lemma handleMessage_chunk A k frame chunk w t :
  incomingTransfers (mgr w) !! A = Some t ->
  sharedSecrets (cm (crypto w)) !! A = Some k ->
  authentic_frame k frame chunk ->
  exists w',
    handleMessage A (DBinary frame) w = (Normal tt, w') /\
    incomingTransfers (mgr w') !! A = Some (push_chunk chunk t) /\
    sharedSecrets (cm (crypto w')) !! A = Some k /\
    handlers (mgr w') = handlers (mgr w) /\
    received_files w' = received_files w.
Proof.
  intros Ht Hk (iv & Hiv & ->).
  pose proof (decryptChunk_frame A k iv (aes_gcm_encrypt k iv chunk) (crypto w) Hk Hiv)
    as Hdec.
  rewrite aes_gcm_roundtrip in Hdec.
  unfold handleMessage, receive_chunk, call_handler. js_eval. rewrite Ht. js_eval.
  rewrite Hdec. js_eval. rewrite lookup_alter_eq, Ht. cbn [fmap option_fmap option_map].
  destruct (onProgress (handlers (mgr w))) eqn:Hh; js_eval; try rewrite Hh;
    (eexists; split; [reflexivity|]); js_eval;
    rewrite lookup_alter_eq, Ht; split_and!; try done.
  by apply received_files_app_other.
Qed.

Lemma push_chunks_fold plain : forall t,
  chunks (fold_left (fun t c => push_chunk c t) plain t) = chunks t ++ plain /\
  t_name (fold_left (fun t c => push_chunk c t) plain t) = t_name t.
Proof.
  induction plain as [|c plain IH]; intros t; simpl.
  - by rewrite app_nil_r.
  - destruct (IH (push_chunk c t)) as [-> ->]. simpl. by rewrite <- app_assoc.
Qed.

Lemma deliver_chunks A k : forall frames plain w t,
  Forall2 (authentic_frame k) frames plain ->
  incomingTransfers (mgr w) !! A = Some t ->
  sharedSecrets (cm (crypto w)) !! A = Some k ->
  incomingTransfers (mgr (deliver A (DBinary <$> frames) w)) !! A
    = Some (fold_left (fun t c => push_chunk c t) plain t) /\
  sharedSecrets (cm (crypto (deliver A (DBinary <$> frames) w))) !! A = Some k /\
  handlers (mgr (deliver A (DBinary <$> frames) w)) = handlers (mgr w) /\
  received_files (deliver A (DBinary <$> frames) w) = received_files w.
Proof.
  intros frames plain w t Hall. revert w t.
  induction Hall as [|frame chunk frames plain Hframe Hall IH]; intros w t Ht Hk;
    [done|].
  destruct (handleMessage_chunk A k frame chunk w t Ht Hk Hframe)
    as (w1 & Hrun & Ht1 & Hk1 & Hh1 & Hr1).
  cbn [fmap list_fmap deliver fold_left]. rewrite Hrun. cbn [snd].
  destruct (IH w1 _ Ht1 Hk1) as (H1 & H2 & H3 & H4).
  split_and!; [done|done|congruence|congruence].
Qed.

Lemma deliver_app A l1 : forall l2 w,
  deliver A (l1 ++ l2) w = deliver A l2 (deliver A l1 w).
Proof. induction l1 as [|m l1 IH]; intros l2 w; simpl; [done|]. apply IH. Qed.

(** The receiver over a whole transfer: [file-start], the frames of the
    slices in order, [file-end]. *)
Lemma deliver_transfer A k fileId name size n frames plain wr :
  Forall2 (authentic_frame k) frames plain ->
  sharedSecrets (cm (crypto wr)) !! A = Some k ->
  onFileReceived (handlers (mgr wr)) = true ->
  let msgs := DString (Some (FileStart fileId name size n))
              :: (DBinary <$> frames) ++ [DString (Some (FileEnd fileId))] in
  received_files (deliver A msgs wr) = received_files wr ++ [(A, name, concat plain)] /\
  incomingTransfers (mgr (deliver A msgs wr)) !! A = None.
Proof.
  intros Hall Hk Hh msgs. subst msgs. cbn [deliver]. rewrite deliver_app.
  set (w1 := snd (handleMessage A (DString (Some (FileStart fileId name size n))) wr)).
  assert (Ht1 : incomingTransfers (mgr w1) !! A = Some (new_transfer fileId name size n)).
  { subst w1. unfold handleMessage, receive_start, call_handler.
    destruct (onFileRequest (handlers (mgr wr))) eqn:Hq; js_run; try rewrite Hq;
      js_run; first [done | apply lookup_insert_eq]. }
  assert (Hk1 : sharedSecrets (cm (crypto w1)) !! A = Some k).
  { subst w1. unfold handleMessage, receive_start, call_handler.
    destruct (onFileRequest (handlers (mgr wr))) eqn:Hq; js_run; try rewrite Hq;
      by js_run. }
  assert (Hh1 : handlers (mgr w1) = handlers (mgr wr)).
  { subst w1. unfold handleMessage, receive_start, call_handler.
    destruct (onFileRequest (handlers (mgr wr))) eqn:Hq; js_run; try rewrite Hq;
      by js_run. }
  assert (Hr1 : received_files w1 = received_files wr).
  { subst w1. unfold handleMessage, receive_start, call_handler.
    destruct (onFileRequest (handlers (mgr wr))) eqn:Hq; js_run; try rewrite Hq;
      js_run; [|done].
    by apply received_files_app_other. }
  clearbody w1.
  destruct (deliver_chunks A k frames plain w1 _ Hall Ht1 Hk1) as (Ht2 & Hk2 & Hh2 & Hr2).
  set (w2 := deliver A (DBinary <$> frames) w1) in *. clearbody w2.
  destruct (push_chunks_fold plain (new_transfer fileId name size n)) as [Hc Hn].
  cbn [deliver]. unfold handleMessage, receive_end, call_handler, blob_of.
  js_eval. rewrite Ht2. js_eval. rewrite Hh2, Hh1, Hh. js_eval.
  rewrite Hc, Hn. split; [|apply lookup_delete_eq].
  unfold received_files at 1. js_eval.
  etrans; [apply received_files_app_file|]. by rewrite Hr2, Hr1.
Qed.

(** C2.  A file sent with [sendFile] over an open data channel, with the
    shared key in place, goes out as a [file-start] record, exactly
    [ceil(size / CHUNK_SIZE)] binary frames and a [file-end] record; fed in
    that order to [handleMessage] on the receiving side, which holds the same
    key, they make it hand the original bytes, under the original name, to
    [onFileReceived], and leave no transfer behind. *)
Theorem sendFile_chunks_roundtrip
    (ws wr : World) (A B : string) (file : File) (negotiation : Waiting)
    (dc : RTCDataChannel) (k : AesKey) :
  flag (relayMode (mgr ws)) B = false ->
  dataChannels (mgr ws) !! B = Some dc -> readyState dc = dc_open ->
  sharedSecrets (cm (crypto ws)) !! B = Some k ->
  sharedSecrets (cm (crypto wr)) !! A = Some k ->
  onFileReceived (handlers (mgr wr)) = true ->
  exists ws' fileId frames,
    sendFile B file negotiation ws = (Normal tt, ws') /\
    let msgs :=
      DString (Some (FileStart fileId (file_name file) (file_size file)
                       (ceil_div (file_size file) CHUNK_SIZE)))
      :: (DBinary <$> frames) ++ [DString (Some (FileEnd fileId))] in
    dataChannels (mgr ws') !! B
      = Some {| readyState := dc_open; dc_sent := dc_sent dc ++ msgs |} /\
    length frames = ceil_div (file_size file) CHUNK_SIZE /\
    received_files (deliver A msgs wr)
      = received_files wr ++ [(A, file_name file, file_content file)] /\
    incomingTransfers (mgr (deliver A msgs wr)) !! A = None.
Proof.
  intros Hrelay Hdc Hopen Hks Hkr Hh.
  destruct dc as [rs sent]. simpl in Hopen. subst rs.
  unfold sendFile, ensureConnection, hasSharedSecret, randomUUID, getRandomValues.
  js_run.
  match goal with
  | |- context [while_offset ?f ?s (direct_chunk B ?fid file) ?o ?W] =>
      destruct (send_loop_direct B fid file k f o W
                  {| readyState := dc_open;
                     dc_sent := sent ++ [DString (Some (FileStart fid (file_name file)
                                  (file_size file) (ceil_div (file_size file) CHUNK_SIZE)))] |})
        as (w2 & frames & Hloop & Hdc2 & Hk2 & Hall);
        [ js_eval; apply lookup_insert_eq | reflexivity | js_eval; exact Hks | lia | ];
      rewrite Hloop; pose (fileId := fid)
  end.
  js_run.
  destruct (deliver_transfer A k fileId (file_name file) (file_size file)
              (ceil_div (file_size file) CHUNK_SIZE) frames _ wr Hall Hkr Hh)
    as [Hrecv Hnone].
  unfold file_size in Hrecv at 3 4. rewrite split_chunks_concat in Hrecv by lia.
  rewrite drop_0 in Hrecv.
  eexists _, fileId, frames. split; [reflexivity|]. js_eval.
  rewrite lookup_insert_eq. split_and!.
  - subst fileId. do 2 f_equal. by rewrite <- !app_assoc.
  - rewrite (Forall2_length _ _ _ Hall), split_chunks_length by lia.
    f_equal. lia.
  - exact Hrecv.
  - exact Hnone.
Qed.

(** *** The same over the relay *)

Lemma relay_chunk_ok B fileId file offset w k :
  sharedSecrets (cm (crypto w)) !! B = Some k ->
  exists w' frame,
    relay_chunk B fileId file offset w = (Normal tt, w') /\
    authentic_frame k frame (take CHUNK_SIZE (drop offset (file_content file))) /\
    signaling w' = signaling w ++ [SigRelayData B (RChunk fileId (btoa frame))] /\
    sharedSecrets (cm (crypto w')) !! B = Some k.
Proof.
  intros Hk.
  destruct (encryptChunk_frame B k (take CHUNK_SIZE (drop offset (file_content file)))
              (crypto w) Hk) as (iv & Hiv & Henc).
  unfold relay_chunk, call_handler. rewrite file_slice_chunk.
  js_eval. rewrite Henc. js_run.
  destruct (onProgress (handlers (mgr w))) eqn:Hh; js_run; try rewrite Hh;
    (do 2 eexists; split; [reflexivity|]); js_run;
    (split; [by exists iv|]); by split.
Qed.

Lemma send_loop_relay B fileId file k : forall fuel offset w,
  sharedSecrets (cm (crypto w)) !! B = Some k ->
  file_size file <= offset + fuel ->
  exists w' frames,
    while_offset fuel (file_size file) (relay_chunk B fileId file) offset w
      = (Normal tt, w') /\
    signaling w'
      = signaling w ++ ((fun f => SigRelayData B (RChunk fileId (btoa f))) <$> frames) /\
    sharedSecrets (cm (crypto w')) !! B = Some k /\
    Forall2 (authentic_frame k) frames
      (split_chunks fuel (file_size file) (file_content file) offset).
Proof.
  pose proof CHUNK_SIZE_pos as HC.
  induction fuel as [|fuel IH]; intros offset w Hk Hfuel;
    cbn [while_offset split_chunks];
    destruct (Nat.ltb_spec offset (file_size file)) as [Hlt|Hge];
    try (exists w, []; simpl; rewrite app_nil_r; by split_and!).
  { exfalso. lia. }
  destruct (relay_chunk_ok B fileId file offset w k Hk)
    as (w1 & frame & Hrun & Hframe & Hsig1 & Hk1).
  destruct (IH (offset + CHUNK_SIZE) w1 Hk1 ltac:(lia))
    as (w2 & frames & Hrun2 & Hsig2 & Hk2 & Hall).
  exists w2, (frame :: frames). split_and!; try done.
  - unfold bind. by rewrite Hrun, Hrun2.
  - rewrite Hsig2, Hsig1. simpl. by rewrite <- app_assoc.
  - by constructor.
Qed.

Lemma handleRelayData_chunk A k fileId frame chunk w t :
  incomingTransfers (mgr w) !! A = Some t -> t_fileId t = fileId ->
  sharedSecrets (cm (crypto w)) !! A = Some k ->
  authentic_frame k frame chunk ->
  exists w',
    handleRelayData A (RChunk fileId (btoa frame)) w = (Normal tt, w') /\
    incomingTransfers (mgr w') !! A = Some (push_chunk chunk t) /\
    sharedSecrets (cm (crypto w')) !! A = Some k /\
    handlers (mgr w') = handlers (mgr w) /\
    received_files w' = received_files w.
Proof.
  intros Ht Hid Hk (iv & Hiv & ->).
  pose proof (decryptChunk_frame A k iv (aes_gcm_encrypt k iv chunk)) as Hdec.
  assert (Heq : String.eqb (t_fileId t) fileId = true) by by apply String.eqb_eq.
  unfold handleRelayData, receive_chunk, call_handler.
  destruct (flag (relayMode (mgr w)) A) eqn:Hr; js_run; rewrite Heq, atob_btoa; js_eval.
  all: rewrite Hdec by done; rewrite aes_gcm_roundtrip; js_eval.
  all: rewrite lookup_alter_eq, Ht; cbn [fmap option_fmap option_map].
  all: destruct (onProgress (handlers (mgr w))) eqn:Hh; js_eval; try rewrite Hh;
    (eexists; split; [reflexivity|]); js_eval;
    rewrite lookup_alter_eq, Ht; split_and!; try done.
  all: by apply received_files_app_other.
Qed.

Lemma push_chunks_fold_id plain : forall t,
  t_fileId (fold_left (fun t c => push_chunk c t) plain t) = t_fileId t.
Proof. induction plain as [|c plain IH]; intros t; simpl; [done|]. by rewrite IH. Qed.

Lemma deliver_relay_chunks A k fileId : forall frames plain w t,
  Forall2 (authentic_frame k) frames plain ->
  incomingTransfers (mgr w) !! A = Some t -> t_fileId t = fileId ->
  sharedSecrets (cm (crypto w)) !! A = Some k ->
  let w' := deliver_relay A ((fun f => RChunk fileId (btoa f)) <$> frames) w in
  incomingTransfers (mgr w') !! A = Some (fold_left (fun t c => push_chunk c t) plain t) /\
  sharedSecrets (cm (crypto w')) !! A = Some k /\
  handlers (mgr w') = handlers (mgr w) /\
  received_files w' = received_files w.
Proof.
  intros frames plain w t Hall. revert w t.
  induction Hall as [|frame chunk frames plain Hframe Hall IH]; intros w t Ht Hid Hk;
    [done|].
  destruct (handleRelayData_chunk A k fileId frame chunk w t Ht Hid Hk Hframe)
    as (w1 & Hrun & Ht1 & Hk1 & Hh1 & Hr1).
  cbn [fmap list_fmap deliver_relay fold_left]. rewrite Hrun. cbn [snd].
  destruct (IH w1 _ Ht1 Hid Hk1) as (H1 & H2 & H3 & H4).
  split_and!; [done|done|congruence|congruence].
Qed.

Lemma deliver_relay_app A l1 : forall l2 w,
  deliver_relay A (l1 ++ l2) w = deliver_relay A l2 (deliver_relay A l1 w).
Proof. induction l1 as [|m l1 IH]; intros l2 w; simpl; [done|]. apply IH. Qed.

Lemma deliver_relay_transfer A k fileId name size n frames plain wr :
  Forall2 (authentic_frame k) frames plain ->
  sharedSecrets (cm (crypto wr)) !! A = Some k ->
  onFileReceived (handlers (mgr wr)) = true ->
  let msgs := RFileStart fileId name size n
              :: ((fun f => RChunk fileId (btoa f)) <$> frames) ++ [RFileEnd fileId] in
  received_files (deliver_relay A msgs wr)
    = received_files wr ++ [(A, name, concat plain)] /\
  incomingTransfers (mgr (deliver_relay A msgs wr)) !! A = None.
Proof.
  intros Hall Hk Hh msgs. subst msgs. cbn [deliver_relay]. rewrite deliver_relay_app.
  set (w1 := snd (handleRelayData A (RFileStart fileId name size n) wr)).
  assert (Hw1 : incomingTransfers (mgr w1) !! A = Some (new_transfer fileId name size n)
                /\ sharedSecrets (cm (crypto w1)) !! A = Some k
                /\ handlers (mgr w1) = handlers (mgr wr)
                /\ received_files w1 = received_files wr).
  { subst w1. unfold handleRelayData, receive_start, call_handler.
    destruct (flag (relayMode (mgr wr)) A) eqn:Hr,
      (onFileRequest (handlers (mgr wr))) eqn:Hq; js_run; try rewrite Hq; js_run;
      split_and!; try done; by apply received_files_app_other. }
  destruct Hw1 as (Ht1 & Hk1 & Hh1 & Hr1). clearbody w1.
  destruct (deliver_relay_chunks A k fileId frames plain w1 _ Hall Ht1 eq_refl Hk1)
    as (Ht2 & Hk2 & Hh2 & Hr2).
  set (w2 := deliver_relay A ((fun f => RChunk fileId (btoa f)) <$> frames) w1) in *.
  clearbody w2.
  destruct (push_chunks_fold plain (new_transfer fileId name size n)) as [Hc Hn].
  cbn [deliver_relay]. unfold handleRelayData, receive_end, call_handler, blob_of.
  destruct (flag (relayMode (mgr w2)) A) eqn:Hr; js_run;
    rewrite Hh2, Hh1, Hh; js_eval; rewrite Hc, Hn;
    (split; [|apply lookup_delete_eq]);
    unfold received_files at 1; js_eval;
    (etrans; [apply received_files_app_file|]); by rewrite Hr2, Hr1.
Qed.

(** In relay mode [sendFile] puts the same records on the signaling socket,
    each frame base64-encoded, and [handleRelayData] reassembles the file. *)
Lemma sendFile_relay_roundtrip
    (ws wr : World) (A B : string) (file : File) (negotiation : Waiting)
    (k : AesKey) :
  flag (relayMode (mgr ws)) B = true ->
  sharedSecrets (cm (crypto ws)) !! B = Some k ->
  sharedSecrets (cm (crypto wr)) !! A = Some k ->
  onFileReceived (handlers (mgr wr)) = true ->
  exists ws' fileId frames,
    sendFile B file negotiation ws = (Normal tt, ws') /\
    let msgs :=
      RFileStart fileId (file_name file) (file_size file)
                 (ceil_div (file_size file) CHUNK_SIZE)
      :: ((fun f => RChunk fileId (btoa f)) <$> frames) ++ [RFileEnd fileId] in
    signaling ws' = signaling ws ++ (SigRelayData B <$> msgs) /\
    length frames = ceil_div (file_size file) CHUNK_SIZE /\
    received_files (deliver_relay A msgs wr)
      = received_files wr ++ [(A, file_name file, file_content file)] /\
    incomingTransfers (mgr (deliver_relay A msgs wr)) !! A = None.
Proof.
  intros Hrelay Hks Hkr Hh.
  unfold sendFile, sendFileViaRelay, randomUUID, getRandomValues. js_run.
  match goal with
  | |- context [while_offset ?f ?s (relay_chunk B ?fid file) ?o ?W] =>
      destruct (send_loop_relay B fid file k f o W)
        as (w2 & frames & Hloop & Hsig2 & Hk2 & Hall);
        [ js_eval; exact Hks | lia | ];
      rewrite Hloop; pose (fileId := fid)
  end.
  js_run.
  eexists _, fileId, frames. split; [reflexivity|]. js_eval.
  split_and!.
  - rewrite Hsig2. js_eval. subst fileId.
    rewrite fmap_cons, fmap_app, <- list_fmap_compose, <- !app_assoc. reflexivity.
  - rewrite (Forall2_length _ _ _ Hall), split_chunks_length by lia.
    f_equal. lia.
  - destruct (deliver_relay_transfer A k fileId (file_name file) (file_size file)
                (ceil_div (file_size file) CHUNK_SIZE) frames _ wr Hall Hkr Hh)
      as [Hrecv _].
    unfold file_size in Hrecv at 3 4. rewrite split_chunks_concat in Hrecv by lia.
    by rewrite drop_0 in Hrecv.
  - by destruct (deliver_relay_transfer A k fileId (file_name file) (file_size file)
                   (ceil_div (file_size file) CHUNK_SIZE) frames _ wr Hall Hkr Hh).
Qed.

(** ** Divergences from the documented behaviour *)

(** C3 (the code diverges).  [sendText] writes the text to the transport as
    it is: in relay mode as the [content] of a relay-data message on the
    signaling socket, otherwise as the [content] of a JSON record on the data
    channel.  The crypto store is left as it was in both cases: no nonce is
    drawn, so no encryption takes place, although the peer's key is there. *)
Theorem sendText_sends_plaintext (w : World) (p text : string) (neg : Waiting) :
  (flag (relayMode (mgr w)) p = true ->
   sendText p text neg w =
     (Normal tt, on_signaling (fun l => l ++ [SigRelayData p (RText text)]) w) /\
   crypto (snd (sendText p text neg w)) = crypto w)
  /\
  (forall dc k,
     flag (relayMode (mgr w)) p = false ->
     dataChannels (mgr w) !! p = Some dc -> readyState dc = dc_open ->
     sharedSecrets (cm (crypto w)) !! p = Some k ->
     sendText p text neg w =
       (Normal tt,
        on_mgr (fun m => set_dataChannels
                  (<[p := {| readyState := dc_open;
                             dc_sent := dc_sent dc ++ [DString (Some (TextMessage text))] |}]>
                     (dataChannels m)) m) w) /\
     crypto (snd (sendText p text neg w)) = crypto w).
Proof.
  split.
  - intros Hr. rewrite (sendText_relay_plaintext p text neg w Hr). by split.
  - intros dc k Hr Hdc Hopen Hk.
    rewrite (sendText_direct_plaintext p text neg w dc k Hr Hdc Hopen Hk). by split.
Qed.

(** C8 (the code diverges).  A candidate that arrives while no connection to
    the peer exists is buffered.  [createConnection] then flushes the buffer
    into the connection it has just made, which has no remote description:
    the browser rejects the candidate, the rejection is logged, and the
    buffer is deleted.  The candidate is gone before any remote description
    is set. *)
Theorem buffered_candidate_lost_at_creation (w : World) (p c : string) :
  connections (mgr w) !! p = None ->
  p ∉ pendingConnections (mgr w) ->
  pendingCandidates (mgr w) !! p = None ->
  exists w1 w2,
    handleIceCandidate p c w = (Normal tt, w1) /\
    pendingCandidates (mgr w1) !! p = Some [c] /\
    createConnection p w1 = (Normal tt, w2) /\
    connections (mgr w2) !! p = Some new_RTCPeerConnection /\
    remoteDescription new_RTCPeerConnection = None /\
    remoteCandidates new_RTCPeerConnection = [] /\
    pendingCandidates (mgr w2) !! p = None /\
    console w2 = console w ++ [LogBufferedCandidateError InvalidStateError].
Proof.
  intros Hnone Hnp Hbuf.
  pose proof (handleIceCandidate_buffers p c w) as Hb.
  rewrite Hnone in Hb. specialize (Hb I).
  set (w1 := on_mgr (fun m => set_pendingCandidates
                       (<[p := default [] (pendingCandidates m !! p) ++ [c]]>
                          (pendingCandidates m)) m) w) in *.
  assert (Hc1 : connections (mgr w1) !! p = None) by exact Hnone.
  assert (Hp1 : p ∉ pendingConnections (mgr w1)) by exact Hnp.
  assert (Hb1 : pendingCandidates (mgr w1) !! p = Some [c]).
  { subst w1. js_eval. rewrite lookup_insert_eq. js_eval. by rewrite Hbuf. }
  destruct (createConnection_drops_buffer p w1 c Hc1 Hp1 Hb1)
    as (w2 & Hcr & Hconn & Hgone & Hlog).
  exists w1, w2. split_and!; try done.
Qed.

(** * Further properties of the code

    ** crypto.js: the key pair and the table of shared secrets *)

(** [exportPublicKey] generates the key pair on first use, from 32 random
    bytes, and never again: a second call returns the same string and leaves
    the store as it is.  No call touches the shared secrets. *)
Theorem exportPublicKey_generates_once (s : CryptoStore) :
  exists pub s1,
    exportPublicKey s = (Normal pub, s1) /\
    exportPublicKey s1 = (Normal pub, s1) /\
    sharedSecrets (cm s1) = sharedSecrets (cm s) /\
    match keyPair (cm s) with
    | Some kp => s1 = s /\ pub = btoa (exportKey_spki (publicKey kp))
    | None =>
        let seed := random_stream <$> seq (cursor s) 32 in
        keyPair (cm s1) = Some {| privateKey := fst (ecdh_generateKey seed);
                                  publicKey := snd (ecdh_generateKey seed) |} /\
        cursor s1 = cursor s + 32 /\
        pub = btoa (exportKey_spki (snd (ecdh_generateKey seed)))
    end.
Proof.
  destruct s as [[kp secrets] cur].
  unfold exportPublicKey, generateKeyPair, getRandomValues.
  destruct kp as [kp|]; js_run.
  - do 2 eexists. split; [reflexivity|]. js_run. by split_and!.
  - destruct (ecdh_generateKey _) as [sk pk] eqn:Hgen. js_run.
    do 2 eexists. split; [reflexivity|]. js_run. by split_and!.
Qed.

(** Without a shared secret for the peer, [encrypt], [decrypt] and their
    framed versions throw [No shared key for peer: <id>]; the store is left
    as it was, and in particular no random bytes are drawn. *)
Theorem no_shared_key_errors (s : CryptoStore) (peerId : string) (data iv : bytes) :
  sharedSecrets (cm s) !! peerId = None ->
  encrypt peerId data s = (Throw (no_shared_key peerId), s) /\
  decrypt peerId data iv s = (Throw (no_shared_key peerId), s) /\
  encryptChunk peerId data s = (Throw (no_shared_key peerId), s) /\
  decryptChunk peerId data s = (Throw (no_shared_key peerId), s).
Proof.
  intros Hno. unfold encryptChunk, decryptChunk, encrypt, decrypt.
  js_run. by split_and!.
Qed.

(** [importPeerPublicKey] changes the store only when it succeeds, and then
    only the secret of that peer, which it sets to the key derived from the
    local private key and the imported public key.  It fails on a string that
    is not base64, on bytes that are not a key, and without a local key pair;
    it never touches the key pair, the random source or another peer's
    secret. *)
Theorem importPeerPublicKey_outcomes (s : CryptoStore) (peerId key : string) :
  exists r s',
    importPeerPublicKey peerId key s = (r, s') /\
    keyPair (cm s') = keyPair (cm s) /\ cursor s' = cursor s /\
    (forall q, q <> peerId -> sharedSecrets (cm s') !! q = sharedSecrets (cm s) !! q) /\
    match r with
    | Normal k =>
        sharedSecrets (cm s') !! peerId = Some k /\
        exists raw pk kp,
          atob key = Some raw /\ importKey_spki raw = Some pk /\
          keyPair (cm s) = Some kp /\ k = ecdh_deriveKey (privateKey kp) pk
    | Throw e =>
        s' = s /\
        (e = InvalidCharacterError /\ atob key = None
         \/ e = DataError /\ (exists raw, atob key = Some raw /\ importKey_spki raw = None)
         \/ e = TypeError /\ keyPair (cm s) = None)
    end.
Proof.
  destruct s as [[kp secrets] cur]. unfold importPeerPublicKey.
  destruct (atob key) as [raw|] eqn:Hraw; js_run.
  2: { do 2 eexists. split; [reflexivity|]. split_and!; try done. by left. }
  destruct (importKey_spki raw) as [pk|] eqn:Hpk; js_run.
  2: { do 2 eexists. split; [reflexivity|]. split_and!; try done.
       right; left. split; [done|]. by exists raw. }
  destruct kp as [kp|]; js_run.
  2: { do 2 eexists. split; [reflexivity|]. split_and!; try done. right; right. done. }
  do 2 eexists. split; [reflexivity|]. js_run. split_and!; try done.
  - intros q Hq. by apply lookup_insert_ne.
  - by exists raw, pk, kp.
Qed.

(** [removePeer] forgets the secret of that peer and nothing else: afterwards
    [hasSharedSecret] is false for the peer and [encryptChunk] for it fails,
    the other peers' secrets and the key pair are as before, and a second
    call changes nothing. *)
Theorem removePeer_forgets_one_peer (s : CryptoStore) (peerId : string) (data : bytes) :
  exists s',
    removePeer peerId s = (Normal tt, s') /\
    hasSharedSecret peerId s' = (Normal false, s') /\
    encryptChunk peerId data s' = (Throw (no_shared_key peerId), s') /\
    (forall q, q <> peerId -> hasSharedSecret q s' = (fst (hasSharedSecret q s), s')) /\
    keyPair (cm s') = keyPair (cm s) /\ cursor s' = cursor s /\
    removePeer peerId s' = (Normal tt, s').
Proof.
  destruct s as [[kp secrets] cur].
  unfold removePeer, hasSharedSecret, encryptChunk, encrypt. js_run.
  eexists. split; [reflexivity|]. js_run. split_and!; try done.
  - intros q Hq. js_run. by rewrite lookup_delete_ne.
  - by rewrite delete_delete_eq.
Qed.

(** Two peers that hold key pairs and import each other's exported public
    key end up with the same AES key, provided the exported keys import back
    and ECDH is symmetric on the two pairs; a chunk framed by one of them for
    the other is then recovered by the other. *)
Theorem key_exchange_agrees
    (sA sB : CryptoStore) (a b : string) (kpA kpB : KeyPair) (p : bytes) :
  keyPair (cm sA) = Some kpA -> keyPair (cm sB) = Some kpB ->
  importKey_spki (exportKey_spki (publicKey kpA)) = Some (publicKey kpA) ->
  importKey_spki (exportKey_spki (publicKey kpB)) = Some (publicKey kpB) ->
  ecdh_deriveKey (privateKey kpA) (publicKey kpB)
    = ecdh_deriveKey (privateKey kpB) (publicKey kpA) ->
  exists pubA pubB k sA' sB' frame sA'',
    exportPublicKey sA = (Normal pubA, sA) /\
    exportPublicKey sB = (Normal pubB, sB) /\
    importPeerPublicKey b pubB sA = (Normal k, sA') /\
    importPeerPublicKey a pubA sB = (Normal k, sB') /\
    sharedSecrets (cm sA') !! b = Some k /\
    sharedSecrets (cm sB') !! a = Some k /\
    encryptChunk b p sA' = (Normal frame, sA'') /\
    decryptChunk a frame sB' = (Normal p, sB').
Proof.
  intros HkA HkB HimpA HimpB Hecdh.
  destruct sA as [[kA secA] curA], sB as [[kB secB] curB].
  cbn [cm keyPair] in HkA, HkB. subst kA kB.
  set (sA' := {| cm := {| keyPair := Some kpA;
                          sharedSecrets :=
                            <[b := ecdh_deriveKey (privateKey kpA) (publicKey kpB)]> secA |};
                 cursor := curA |}).
  set (sB' := {| cm := {| keyPair := Some kpB;
                          sharedSecrets :=
                            <[a := ecdh_deriveKey (privateKey kpA) (publicKey kpB)]> secB |};
                 cursor := curB |}).
  assert (HsA : sharedSecrets (cm sA') !! b
                = Some (ecdh_deriveKey (privateKey kpA) (publicKey kpB)))
    by apply lookup_insert_eq.
  assert (HsB : sharedSecrets (cm sB') !! a
                = Some (ecdh_deriveKey (privateKey kpA) (publicKey kpB)))
    by apply lookup_insert_eq.
  destruct (encryptChunk_frame b _ p sA' HsA) as (iv & Hiv & Henc).
  exists (btoa (exportKey_spki (publicKey kpA))), (btoa (exportKey_spki (publicKey kpB))),
    (ecdh_deriveKey (privateKey kpA) (publicKey kpB)), sA', sB'.
  do 2 eexists. split_and!; [ | | | | exact HsA | exact HsB | exact Henc | ].
  - unfold exportPublicKey. by js_run.
  - unfold exportPublicKey. by js_run.
  - unfold importPeerPublicKey. rewrite atob_btoa. js_eval. rewrite HimpB. by js_eval.
  - unfold importPeerPublicKey. rewrite atob_btoa. js_eval. rewrite HimpA. js_eval.
    by rewrite <- Hecdh.
  - rewrite (decryptChunk_frame a _ iv _ sB' HsB Hiv). by rewrite aes_gcm_roundtrip.
Qed.

(** A buffer shorter than a nonce and a tag (28 bytes) is never accepted:
    [decryptChunk] hands the cipher fewer than 16 bytes, which cannot carry a
    tag, and throws the authentication error. *)
Theorem short_frame_rejected (s : CryptoStore) (peerId : string) (k : AesKey) (buf : bytes) :
  (forall k iv c, length c < 16 -> aes_gcm_decrypt k iv c = None) ->
  sharedSecrets (cm s) !! peerId = Some k ->
  length buf < 28 ->
  decryptChunk peerId buf s = (Throw OperationError, s).
Proof.
  intros Htag Hk Hlen. rewrite (decryptChunk_split _ k) by done.
  rewrite Htag; [done|]. rewrite length_drop. lia.
Qed.

Lemma split_chunks_bounds content : forall fuel offset,
  Forall (fun c => 0 < length c <= CHUNK_SIZE)
    (split_chunks fuel (length content) content offset).
Proof.
  pose proof CHUNK_SIZE_pos as HC.
  induction fuel as [|fuel IH]; intros offset; cbn [split_chunks];
    destruct (Nat.ltb_spec offset (length content)) as [Hlt|Hge]; try by constructor.
  constructor; [|apply IH].
  rewrite length_take, length_drop. lia.
Qed.

Lemma authentic_frames_sizes k frames plain :
  (forall k iv p, length (aes_gcm_encrypt k iv p) = length p + 16) ->
  Forall2 (authentic_frame k) frames plain ->
  Forall (fun c => 0 < length c <= CHUNK_SIZE) plain ->
  Forall (fun frame => 29 <= length frame <= CHUNK_SIZE + 28) frames /\
  length (concat frames) = length (concat plain) + 28 * length plain.
Proof.
  intros Hct Hall. induction Hall as [|frame chunk frames' plain' (iv & Hiv & ->) _ IH];
    intros Hb; [by split|].
  inversion Hb as [|? ? Hc Hb']; subst. destruct (IH Hb') as [IH1 IH2]. split.
  - constructor; [|done]. rewrite length_app, Hct, Hiv. lia.
  - cbn [concat length]. rewrite !length_app, Hct, Hiv, IH2. lia.
Qed.

(** The binary messages of [sendFile], when the cipher adds a 16-byte tag:
    each is the 12-byte nonce, at most [CHUNK_SIZE] bytes of ciphertext and
    the tag, so between 29 and 65564 bytes, and together they are the file
    size plus 28 bytes per chunk. *)
Theorem sendFile_frame_sizes
    (ws : World) (B : string) (file : File) (negotiation : Waiting)
    (dc : RTCDataChannel) (k : AesKey) :
  (forall k iv p, length (aes_gcm_encrypt k iv p) = length p + 16) ->
  flag (relayMode (mgr ws)) B = false ->
  dataChannels (mgr ws) !! B = Some dc -> readyState dc = dc_open ->
  sharedSecrets (cm (crypto ws)) !! B = Some k ->
  exists ws' fileId frames,
    sendFile B file negotiation ws = (Normal tt, ws') /\
    dataChannels (mgr ws') !! B
      = Some {| readyState := dc_open;
                dc_sent := dc_sent dc ++
                  DString (Some (FileStart fileId (file_name file) (file_size file)
                                   (ceil_div (file_size file) CHUNK_SIZE)))
                  :: (DBinary <$> frames) ++ [DString (Some (FileEnd fileId))] |} /\
    Forall (fun frame => 29 <= length frame <= CHUNK_SIZE + 28) frames /\
    length (concat frames)
      = file_size file + 28 * ceil_div (file_size file) CHUNK_SIZE.
Proof.
  intros Hct Hrelay Hdc Hopen Hks.
  destruct dc as [rs sent]. simpl in Hopen. subst rs.
  unfold sendFile, ensureConnection, hasSharedSecret, randomUUID, getRandomValues.
  js_run.
  match goal with
  | |- context [while_offset ?f ?s (direct_chunk B ?fid file) ?o ?W] =>
      destruct (send_loop_direct B fid file k f o W
                  {| readyState := dc_open;
                     dc_sent := sent ++ [DString (Some (FileStart fid (file_name file)
                                  (file_size file) (ceil_div (file_size file) CHUNK_SIZE)))] |})
        as (w2 & frames & Hloop & Hdc2 & Hk2 & Hall);
        [ js_eval; apply lookup_insert_eq | reflexivity | js_eval; exact Hks | lia | ];
      rewrite Hloop; pose (fileId := fid)
  end.
  js_run.
  eexists _, fileId, frames. split; [reflexivity|]. js_eval.
  rewrite lookup_insert_eq.
  pose proof (split_chunks_bounds (file_content file) (file_size file) 0) as Hb.
  pose proof (split_chunks_concat (file_content file) (file_size file) 0
                ltac:(unfold file_size; lia)) as Hcat.
  pose proof (split_chunks_length (file_content file) (file_size file) (file_size file) 0
                ltac:(lia)) as Hn.
  fold (file_size file) in Hb, Hcat.
  destruct (authentic_frames_sizes k frames _ Hct Hall Hb) as [Hsizes Htotal].
  split_and!.
  - subst fileId. do 2 f_equal. by rewrite <- !app_assoc.
  - exact Hsizes.
  - rewrite Htotal, Hcat, drop_0, Hn. unfold file_size. by rewrite Nat.sub_0_r.
Qed.

(** ** webrtc.js: ranking and caching the ICE servers *)

Lemma separate_filter iceServers : forall stunServers turnServers,
  separate iceServers stunServers turnServers
  = (stunServers ++ List.filter (fun s => negb (isTurn s) && isStun s) iceServers,
     turnServers ++ List.filter isTurn iceServers).
Proof.
  induction iceServers as [|s rest IH]; intros stun turn; cbn [separate List.filter].
  - by rewrite !app_nil_r.
  - destruct (isTurn s), (isStun s); cbn [negb andb]; rewrite IH;
      by rewrite <- ?app_assoc.
Qed.

Lemma insert_by_latency_perm r l : insert_by_latency r l ≡ₚ r :: l.
Proof.
  induction l as [|r' l IH]; cbn [insert_by_latency]; [done|].
  destruct (Nat.leb (snd r) (snd r')); [done|].
  rewrite IH. apply Permutation_swap.
Qed.

Lemma sort_by_latency_perm l : sort_by_latency l ≡ₚ l.
Proof.
  induction l as [|r l IH]; [done|]. cbn [sort_by_latency foldr].
  rewrite insert_by_latency_perm. by constructor.
Qed.

Lemma insert_by_latency_sorted r l :
  Sorted (fun a b => snd a <= snd b) l ->
  Sorted (fun a b => snd a <= snd b) (insert_by_latency r l).
Proof.
  induction 1 as [|r' l Hs IH Hhd]; cbn [insert_by_latency].
  - repeat constructor.
  - destruct (Nat.leb_spec (snd r) (snd r')) as [Hle|Hgt].
    + repeat constructor; done.
    + constructor; [exact IH|].
      destruct l as [|r'' l]; cbn [insert_by_latency].
      * constructor. lia.
      * inversion Hhd; subst.
        destruct (Nat.leb (snd r) (snd r'')); constructor; lia.
Qed.

Lemma sort_by_latency_sorted l : Sorted (fun a b => snd a <= snd b) (sort_by_latency l).
Proof.
  induction l as [|r l IH]; [constructor|].
  cbn [sort_by_latency foldr]. by apply insert_by_latency_sorted.
Qed.

Lemma insert_by_latency_stable n r l :
  List.filter (fun x => Nat.eqb (snd x) n) (insert_by_latency r l)
  = List.filter (fun x => Nat.eqb (snd x) n) (r :: l).
Proof.
  induction l as [|r' l IH]; cbn [insert_by_latency]; [done|].
  destruct (Nat.leb_spec (snd r) (snd r')) as [Hle|Hgt]; [done|].
  cbn [List.filter] in *. rewrite IH.
  destruct (Nat.eqb_spec (snd r) n) as [Hr|Hr], (Nat.eqb_spec (snd r') n) as [Hr'|Hr'];
    try done. lia.
Qed.

Lemma sort_by_latency_stable n l :
  List.filter (fun x => Nat.eqb (snd x) n) (sort_by_latency l)
  = List.filter (fun x => Nat.eqb (snd x) n) l.
Proof.
  induction l as [|r l IH]; [done|]. cbn [sort_by_latency foldr].
  rewrite insert_by_latency_stable. cbn [List.filter]. fold (sort_by_latency l).
  by rewrite IH.
Qed.

(** [rankIceServers], with the two passes over the list written as filters. *)
Lemma rankIceServers_ranked (health : nat -> string -> option nat)
    (iceServers : list IceServer) :
  rankIceServers health iceServers
  = match List.filter isTurn iceServers
          ++ (fst <$> sort_by_latency
                        (reachable
                           (imap (fun i server => (server, health i (probed_url server)))
                              (List.filter (fun s => negb (isTurn s) && isStun s)
                                 iceServers))))
    with
    | [] => FALLBACK_ICE_SERVERS
    | ranked => ranked
    end.
Proof.
  unfold rankIceServers. rewrite separate_filter. cbn [app].
  by destruct (List.filter isTurn iceServers ++ _).
Qed.

(** What [rankIceServers] returns, unless the list would be empty: the TURN
    servers first, in the order they came in and whatever the probes say;
    then the servers that have a STUN and no TURN URL and answered their
    probe, by increasing latency, servers of equal latency in the order they
    came in. *)
Theorem rankIceServers_order (health : nat -> string -> option nat)
    (iceServers : list IceServer) :
  let turnServers := List.filter isTurn iceServers in
  let stunServers := List.filter (fun s => negb (isTurn s) && isStun s) iceServers in
  let answered :=
    reachable (imap (fun i server => (server, health i (probed_url server))) stunServers) in
  exists rankedStun : list (IceServer * nat),
    rankedStun ≡ₚ answered /\
    Sorted (fun a b => snd a <= snd b) rankedStun /\
    (forall n, List.filter (fun x => Nat.eqb (snd x) n) rankedStun
               = List.filter (fun x => Nat.eqb (snd x) n) answered) /\
    rankIceServers health iceServers
    = match turnServers ++ (fst <$> rankedStun) with
      | [] => FALLBACK_ICE_SERVERS
      | ranked => ranked
      end.
Proof.
  intros turnServers stunServers answered.
  exists (sort_by_latency answered). split_and!.
  - apply sort_by_latency_perm.
  - apply sort_by_latency_sorted.
  - intros n. apply sort_by_latency_stable.
  - apply rankIceServers_ranked.
Qed.

(** [rankIceServers] never returns an empty list.  It keeps every TURN
    server, returns no server that has neither kind of URL and no STUN server
    whose probe failed, and returns the fallback STUN server exactly when
    nothing else is left. *)
Theorem rankIceServers_never_empty (health : nat -> string -> option nat)
    (iceServers : list IceServer) :
  rankIceServers health iceServers <> [] /\
  (forall s, s ∈ iceServers -> isTurn s = true -> s ∈ rankIceServers health iceServers) /\
  (rankIceServers health iceServers = FALLBACK_ICE_SERVERS
   \/ forall s, s ∈ rankIceServers health iceServers ->
        s ∈ iceServers /\
        (isTurn s = true
         \/ isStun s = true /\ exists i latency, health i (probed_url s) = Some latency)) /\
  ((forall s, s ∈ iceServers -> isTurn s = false) ->
   (forall i url, health i url = None) ->
   rankIceServers health iceServers = FALLBACK_ICE_SERVERS).
Proof.
  pose proof (rankIceServers_ranked health iceServers) as Heq.
  set (turn := List.filter isTurn iceServers) in *.
  set (stun := List.filter (fun s => negb (isTurn s) && isStun s) iceServers) in *.
  pose proof (sort_by_latency_perm
                (reachable (imap (fun i server => (server, health i (probed_url server)))
                              stun))) as Hperm.
  set (ranked := sort_by_latency _) in *.
  assert (Hranked : forall s, s ∈ (fst <$> ranked) ->
            s ∈ iceServers /\ isStun s = true /\
            exists i latency, health i (probed_url s) = Some latency).
  { intros s Hs. apply list_elem_of_fmap in Hs as ([s' lat] & -> & Hin).
    rewrite Hperm in Hin. unfold reachable in Hin.
    apply list_elem_of_omap in Hin as ([s'' r] & Hin & Hsome).
    destruct r as [lat'|]; [|done]. cbn in Hsome. injection Hsome as -> ->.
    apply list_elem_of_lookup in Hin as [i Hi].
    rewrite list_lookup_imap in Hi.
    destruct (stun !! i) as [s0|] eqn:Hs0; [|done]. cbn in Hi.
    injection Hi as -> Hh.
    apply list_elem_of_lookup_2 in Hs0. subst stun.
    apply list_elem_of_In, filter_In in Hs0 as [Hin Hb].
    apply andb_true_iff in Hb as [_ Hb].
    split; [by apply list_elem_of_In|]. split; [done|]. by exists i, lat. }
  assert (Hturn : forall s, s ∈ turn <-> s ∈ iceServers /\ isTurn s = true).
  { intros s. subst turn. by rewrite list_elem_of_In, filter_In, <- list_elem_of_In. }
  rewrite Heq. clear Heq.
  destruct (turn ++ (fst <$> ranked)) as [|s0 l] eqn:Hl.
  - apply app_eq_nil in Hl as [Ht Hr]. split_and!.
    + done.
    + intros s Hs Hts. exfalso.
      assert (s ∈ turn) as Hin by by apply Hturn. rewrite Ht in Hin.
      by apply elem_of_nil in Hin.
    + by left.
    + done.
  - split_and!.
    + done.
    + intros s Hs Hts. rewrite <- Hl. apply elem_of_app. left. by apply Hturn.
    + right. intros s Hs. rewrite <- Hl in Hs. apply elem_of_app in Hs as [Hs|Hs].
      * apply Hturn in Hs as [? ?]. split; [done|]. by left.
      * destruct (Hranked s Hs) as (? & ? & ?). split; [done|]. by right.
    + intros Hnoturn Hdead. exfalso.
      assert (s0 ∈ turn ++ (fst <$> ranked)) as Hin by (rewrite Hl; apply elem_of_cons; by left).
      apply elem_of_app in Hin as [Hin|Hin].
      * apply Hturn in Hin as [Hin Ht]. by rewrite (Hnoturn _ Hin) in Ht.
      * destruct (Hranked _ Hin) as (_ & _ & i & lat & Hh). by rewrite Hdead in Hh.
Qed.

Lemma rankIceServers_nonempty health iceServers : rankIceServers health iceServers <> [].
Proof.
  unfold rankIceServers. destruct (separate iceServers [] []) as [stun turn].
  by destruct (turn ++ _).
Qed.

(** [fetchIceServers] and its cache.  Within five minutes of the last
    successful fetch, and unless a refresh is forced, the cached list is
    returned and nothing is fetched or probed.  Otherwise the servers are
    fetched: a successful fetch returns the ranked list and caches it with
    the time, so that the next call within five minutes returns it again; a
    failed fetch returns the fallback STUN server and leaves the cache as it
    was, so that neither the outdated list nor the fallback is served from
    the cache later. *)
Theorem fetchIceServers_cache (c : IceCache) (forceRefresh : bool) (now stored_at : Z)
    (response : option (list IceServer)) (health : nat -> string -> option nat) :
  (forall cached,
     cachedIceServers c = Some cached ->
     (now - cachedIceServersTimestamp c < ICE_SERVERS_CACHE_TTL)%Z ->
     fetchIceServers false now response health stored_at c = (cached, c))
  /\
  (forceRefresh = true \/ cachedIceServers c = None
   \/ (ICE_SERVERS_CACHE_TTL <= now - cachedIceServersTimestamp c)%Z ->
   fetchIceServers forceRefresh now None health stored_at c = (FALLBACK_ICE_SERVERS, c)
   /\
   forall iceServers,
     let ranked := rankIceServers health iceServers in
     let c' := {| cachedIceServers := Some ranked; cachedIceServersTimestamp := stored_at |} in
     fetchIceServers forceRefresh now (Some iceServers) health stored_at c = (ranked, c') /\
     forall now' response' health' stored_at',
       (now' - stored_at < ICE_SERVERS_CACHE_TTL)%Z ->
       fetchIceServers false now' response' health' stored_at' c' = (ranked, c')).
Proof.
  split.
  - intros cached Hc Hfresh. unfold fetchIceServers. rewrite Hc. cbn [negb andb].
    by destruct (Z.ltb_spec (now - cachedIceServersTimestamp c) ICE_SERVERS_CACHE_TTL);
      [|lia].
  - intros Hmiss.
    assert (Hrefresh : forall response,
      fetchIceServers forceRefresh now response health stored_at c
      = match response with
        | Some iceServers =>
            (rankIceServers health iceServers,
             {| cachedIceServers := Some (rankIceServers health iceServers);
                cachedIceServersTimestamp := stored_at |})
        | None => (FALLBACK_ICE_SERVERS, c)
        end).
    { intros r. unfold fetchIceServers.
      destruct (cachedIceServers c) as [cached|] eqn:Hc; [|done].
      destruct Hmiss as [-> | [Hnone | Hold]]; [done|done|].
      destruct (Z.ltb_spec (now - cachedIceServersTimestamp c) ICE_SERVERS_CACHE_TTL);
        [lia|]. by rewrite andb_false_r. }
    split; [apply Hrefresh|].
    intros iceServers ranked c'. split; [apply Hrefresh|].
    intros now' response' health' stored_at' Hfresh. unfold fetchIceServers. cbn.
    by destruct (Z.ltb_spec (now' - stored_at) ICE_SERVERS_CACHE_TTL); [|lia].
Qed.

(** [fetchIceServers] never returns an empty list: the cache is empty at
    first, a call stores only what [rankIceServers] returned, and every call
    returns a stored list, a ranked list or the fallback. *)
Theorem fetchIceServers_never_empty :
  cachedIceServers new_IceCache <> Some [] /\
  forall (c : IceCache) forceRefresh now response health stored_at,
    cachedIceServers c <> Some [] ->
    fst (fetchIceServers forceRefresh now response health stored_at c) <> [] /\
    cachedIceServers (snd (fetchIceServers forceRefresh now response health stored_at c))
      <> Some [].
Proof.
  split; [done|].
  intros c force now response health stored_at Hc.
  assert (Hrank : forall l, rankIceServers health l <> [])
    by (intros l; apply rankIceServers_nonempty).
  unfold fetchIceServers.
  destruct (cachedIceServers c) as [cached|] eqn:Hcached.
  - destruct (negb force && _).
    + cbn [fst snd]. rewrite Hcached. split; [|done]. by intros ->.
    + destruct response as [l|]; cbn [fst snd cachedIceServers].
      * split; [apply Hrank|]. intros [= Heq]. by apply (Hrank l).
      * rewrite Hcached. split; [done|]. done.
  - destruct response as [l|]; cbn [fst snd cachedIceServers].
    + split; [apply Hrank|]. intros [= Heq]. by apply (Hrank l).
    + rewrite Hcached. by split.
Qed.

(** ** webrtc.js: answers and candidates *)

Lemma deliver_candidates_buffered p : forall cs w pc,
  connections (mgr w) !! p = Some pc -> remoteDescription pc = None ->
  deliver_candidates p cs w
  = match cs with
    | [] => w
    | _ => on_mgr (fun m => set_pendingCandidates
                     (<[p := default [] (pendingCandidates (mgr w) !! p) ++ cs]>
                        (pendingCandidates m)) m) w
    end.
Proof.
  induction cs as [|c cs IH]; intros w pc Hpc Hrd; [done|].
  cbn [deliver_candidates].
  rewrite (handleIceCandidate_buffers p c w) by (by rewrite Hpc). cbn [snd].
  rewrite (IH _ pc) by (js_eval; done).
  destruct cs as [|c' cs]; [done|]. js_eval. rewrite lookup_insert_eq.
  cbn [default from_option id]. rewrite insert_insert_eq. by rewrite <- app_assoc.
Qed.

(** An answer that finds no connection for the peer, or a connection that
    is not waiting for one (as after the polite peer rolled its offer back),
    changes nothing: [handleAnswer] writes a console line and returns. *)
Theorem handleAnswer_ignored (w : World) (peerId : string) (data : negotiation_data) :
  (connections (mgr w) !! peerId = None ->
   handleAnswer peerId data w
   = (Normal tt, on_console (fun c => c ++ [LogNoConnection peerId]) w))
  /\
  (forall pc,
     connections (mgr w) !! peerId = Some pc ->
     signalingState pc <> have_local_offer ->
     handleAnswer peerId data w
     = (Normal tt, on_console (fun c => c ++ [LogAnswerWrongState peerId]) w)).
Proof.
  split.
  - intros Hnone. unfold handleAnswer. by js_run.
  - intros pc Hpc Hst. unfold handleAnswer. js_run.
    destruct pc as [[] cs ics cl pl cr pr rc]; js_run; done.
Qed.

(** Candidates that arrive after the local offer went out and before the
    answer comes in are buffered, none is applied and none is lost; when the
    answer arrives, [handleAnswer] applies it and then adds all of them to
    the connection in the order they arrived.  A candidate that arrives
    after that is added at once. *)
Theorem candidates_before_answer_applied
    (w : World) (peerId : string) (pc : RTCPeerConnection) (cs : list string)
    (data : negotiation_data) (late : string) :
  connections (mgr w) !! peerId = Some pc ->
  signalingState pc = have_local_offer -> remoteDescription pc = None ->
  pendingCandidates (mgr w) !! peerId = None ->
  sd_type (nd_sdp data) = sdp_answer ->
  key_material_ok (crypto w) (nd_publicKey data) ->
  let w1 := deliver_candidates peerId cs w in
  connections (mgr w1) !! peerId = Some pc /\
  default [] (pendingCandidates (mgr w1) !! peerId) = cs /\
  exists w2 pc2,
    handleAnswer peerId data w1 = (Normal tt, w2) /\
    connections (mgr w2) !! peerId = Some pc2 /\
    signalingState pc2 = stable /\
    currentRemoteDescription pc2 = Some (nd_sdp data) /\
    currentLocalDescription pc2 = pendingLocalDescription pc /\
    remoteCandidates pc2 = remoteCandidates pc ++ cs /\
    pendingCandidates (mgr w2) !! peerId = None /\
    console w2 = console w /\
    exists w3,
      handleIceCandidate peerId late w2 = (Normal tt, w3) /\
      (remoteCandidates <$> connections (mgr w3) !! peerId)
        = Some (remoteCandidates pc ++ cs ++ [late]) /\
      pendingCandidates (mgr w3) !! peerId = None.
Proof.
  intros Hpc Hst Hrd Hbuf Hans Hkey w1.
  assert (Hw1 : w1 = match cs with
                     | [] => w
                     | _ => on_mgr (fun m => set_pendingCandidates
                                      (<[peerId := cs]> (pendingCandidates m)) m) w
                     end).
  { subst w1. rewrite (deliver_candidates_buffered peerId cs w pc Hpc Hrd).
    destruct cs; [done|]. by rewrite Hbuf. }
  clearbody w1. subst w1.
  destruct pc as [st cs0 ics cl pl cr pr rc]. cbn [signalingState] in Hst. subst st.
  unfold remoteDescription in Hrd. cbn in Hrd. destruct pr as [d|]; [done|]. subst cr.
  destruct data as [[ty body] key]. cbn in Hans. subst ty.
  split; [by destruct cs|]. split.
  { destruct cs; js_eval; [by rewrite Hbuf|by rewrite lookup_insert_eq]. }
  unfold handleAnswer.
  destruct cs as [|c cs]; js_run.
  - js_flush. js_import Hkey. js_run.
    do 2 eexists. split; [reflexivity|]. js_run.
    split_and!; try done; try by rewrite app_nil_r.
    unfold handleIceCandidate. js_run.
    eexists. split; [reflexivity|]. js_run. by split.
  - erewrite flushPendingCandidates_ok;
      [ | js_eval; apply lookup_insert_eq | split; [eexists; reflexivity | discriminate] ].
    unfold flushed. js_run.
    js_import Hkey. js_run.
    do 2 eexists. split; [reflexivity|]. js_run.
    split_and!; try done.
    unfold handleIceCandidate. js_run.
    eexists. split; [reflexivity|]. js_run. split; [|done].
    by rewrite <- app_assoc.
Qed.

(** ** webrtc.js: relay mode *)

Lemma handleRelayData_sets_relay p data w :
  flag (relayMode (mgr (snd (handleRelayData p data w)))) p = true.
Proof.
  unfold handleRelayData, receive_start, receive_end, receive_chunk, call_handler,
    decryptChunk, decrypt.
  destruct (flag (relayMode (mgr w)) p) eqn:Hr; destruct data; js_run;
    repeat (js_case; js_run); first [done | apply flag_insert_eq].
Qed.

(** Any relay-data message from a peer, whatever it carries and whether or
    not it can be processed, puts the peer in relay mode.  From then on
    [sendText] to that peer goes over the signaling socket, also when a data
    channel to the peer is open; the flag is taken back only when a data
    channel of the peer opens. *)
Theorem relay_data_switches_to_relay
    (w : World) (peerId : string) (data : relay_payload) (text : string)
    (negotiation : Waiting) :
  let w1 := snd (handleRelayData peerId data w) in
  flag (relayMode (mgr w1)) peerId = true /\
  sendText peerId text negotiation w1
  = (Normal tt, on_signaling (fun l => l ++ [SigRelayData peerId (RText text)]) w1) /\
  dataChannels (mgr (snd (sendText peerId text negotiation w1))) = dataChannels (mgr w1) /\
  flag (relayMode (mgr (snd (dispatch_channel (ChannelOpened peerId) w1)))) peerId = false.
Proof.
  intros w1. pose proof (handleRelayData_sets_relay peerId data w) as Hr.
  fold w1 in Hr. clearbody w1.
  split; [exact Hr|].
  rewrite (sendText_relay_plaintext peerId text negotiation w1 Hr).
  split; [done|]. split; [done|].
  unfold dispatch_channel. by js_run.
Qed.

(** ** webrtc.js: making a connection and an offer *)

Lemma createConnection_new p w :
  no_session p w -> createConnection p w = (Normal tt, with_new_connection p w).
Proof.
  intros (Hconn & Hnp & Hbuf).
  assert (Hset : forall X : gset string, p ∉ X -> ({[p]} ∪ X) ∖ {[p]} = X).
  { intros X HX. apply set_eq. intros x.
    rewrite elem_of_difference, elem_of_union, elem_of_singleton.
    split; [tauto|]. intros Hx. split; [by right|]. by intros ->. }
  unfold createConnection, _flushPendingCandidates, with_new_connection. js_eval.
  destruct (connections (mgr w) !! p) as [pc|] eqn:Hpc.
  - rewrite Hconn. rewrite bool_decide_eq_false_2 by done. js_run.
    by rewrite Hset.
  - rewrite bool_decide_eq_false_2 by done. js_run. by rewrite Hset.
Qed.

(** [createConnection] without a usable connection makes a new one in place
    of the old, which it does not close, and sets [makingOffer] and
    [ignoreOffer] of the peer to [false], also when [createOffer] has just
    set [makingOffer] to [true].  The peer's data channel, restart count and
    shared secret are those of the old connection.  A second call returns
    the connection just made and changes nothing. *)
Theorem createConnection_replaces (w : World) (peerId : string) :
  no_session peerId w ->
  exists w',
    createConnection peerId w = (Normal tt, w') /\
    connections (mgr w') !! peerId = Some new_RTCPeerConnection /\
    flag (makingOffer (mgr w')) peerId = false /\
    flag (ignoreOffer (mgr w')) peerId = false /\
    dataChannels (mgr w') = dataChannels (mgr w) /\
    iceRestartCounts (mgr w') = iceRestartCounts (mgr w) /\
    pendingConnections (mgr w') = pendingConnections (mgr w) /\
    crypto w' = crypto w /\ signaling w' = signaling w /\ console w' = console w /\
    (forall q, q <> peerId -> connections (mgr w') !! q = connections (mgr w) !! q) /\
    createConnection peerId w' = (Normal tt, w').
Proof.
  intros Hfresh. exists (with_new_connection peerId w).
  split; [by apply createConnection_new|].
  unfold with_new_connection. js_eval.
  split_and!; try done; try apply lookup_insert_eq; try apply flag_insert_eq.
  - intros q Hq. by apply lookup_insert_ne.
  - apply (createConnection_existing _ _ new_RTCPeerConnection);
      [js_eval; apply lookup_insert_eq | done].
Qed.

Lemma createOffer_new p w :
  no_session p w ->
  match dataChannels (mgr w) !! p with
  | Some dc => readyState dc <> dc_open /\ readyState dc <> dc_connecting
  | None => True
  end ->
  exists pub s',
    exportPublicKey (crypto w) = (Normal pub, s') /\
    createOffer p w
    = (Normal tt,
       on_signaling (fun l => l ++ [SigOffer p {| sd_type := sdp_offer; sd_sdp := "" |} pub false])
         (on_crypto (fun _ => s')
            (on_mgr (fun m =>
               set_ignoreOffer (<[p := false]> (ignoreOffer m))
                 (set_makingOffer (<[p := false]> (makingOffer m))
                    (set_dataChannels
                       (<[p := {| readyState := dc_connecting; dc_sent := [] |}]>
                          (dataChannels m))
                       (set_connections
                          (<[p := with_signaling have_local_offer None
                                    (Some {| sd_type := sdp_offer; sd_sdp := "" |})
                                    None None new_RTCPeerConnection]>
                             (connections m)) m)))) w))).
Proof.
  intros Hfresh Hdc.
  destruct (exportPublicKey_total (crypto w)) as (pub & s' & Hexp).
  exists pub, s'. split; [exact Hexp|].
  unfold createOffer, setupDataChannel. js_eval.
  rewrite createConnection_new by (destruct Hfresh as (? & ? & ?); split_and!; js_eval; done).
  unfold with_new_connection, pc_createDataChannel, new_RTCPeerConnection. js_run.
  destruct (dataChannels (mgr w) !! p) as [[[] sent]|] eqn:Hch; js_run;
    try (exfalso; first [by apply (proj1 Hdc) | by apply (proj2 Hdc)]);
    rewrite ?insert_insert_eq; reflexivity.
Qed.

Lemma exportPublicKey_existing s kp :
  keyPair (cm s) = Some kp ->
  exportPublicKey s = (Normal (btoa (exportKey_spki (publicKey kp))), s).
Proof.
  intros Hkp. destruct s as [[kp0 secrets] cur]. cbn in Hkp. subst kp0.
  unfold exportPublicKey. by js_run.
Qed.

Lemma importPeerPublicKey_ok p key raw pk kp s :
  atob key = Some raw -> importKey_spki raw = Some pk -> keyPair (cm s) = Some kp ->
  importPeerPublicKey p key s
  = (Normal (ecdh_deriveKey (privateKey kp) pk),
     set_sharedSecrets (<[p := ecdh_deriveKey (privateKey kp) pk]> (sharedSecrets (cm s))) s).
Proof.
  intros Hraw Hpk Hkp. destruct s as [[kp0 secrets] cur]. cbn in Hkp. subst kp0.
  unfold importPeerPublicKey. rewrite Hraw. js_eval. rewrite Hpk. by js_eval.
Qed.

(** [createOffer] for a peer without a session makes the connection and a
    data channel, which is still connecting, applies the local offer and
    sends it with the local public key; when it returns [makingOffer] is
    [false] again.  Called again while the channel is connecting or open it
    sends no second offer and changes nothing. *)
Theorem createOffer_sends_one_offer (w : World) (peerId : string) :
  no_session peerId w -> dataChannels (mgr w) !! peerId = None ->
  exists w' pub pc,
    createOffer peerId w = (Normal tt, w') /\
    fst (exportPublicKey (crypto w)) = Normal pub /\
    signaling w' = signaling w ++
      [SigOffer peerId {| sd_type := sdp_offer; sd_sdp := "" |} pub false] /\
    connections (mgr w') !! peerId = Some pc /\
    signalingState pc = have_local_offer /\
    localDescription pc = Some {| sd_type := sdp_offer; sd_sdp := "" |} /\
    remoteDescription pc = None /\
    dataChannels (mgr w') !! peerId
      = Some {| readyState := dc_connecting; dc_sent := [] |} /\
    flag (makingOffer (mgr w')) peerId = false /\
    createOffer peerId w' = (Normal tt, w').
Proof.
  intros Hfresh Hdc.
  destruct (createOffer_new peerId w Hfresh) as (pub & s' & Hexp & Hrun);
    [by rewrite Hdc|].
  eexists _, pub, _. split; [exact Hrun|]. split; [by rewrite Hexp|].
  js_eval. rewrite !lookup_insert_eq, flag_insert_eq. split_and!; try done.
  unfold createOffer. js_eval.
  erewrite createConnection_existing;
    [ | js_eval; apply lookup_insert_eq | reflexivity ].
  js_run. reflexivity.
Qed.

(** The handshake.  Peer A, which holds a key pair, calls [createOffer] for
    B; B, which holds one too, runs [handleOffer] on what A sent; A runs
    [handleAnswer] on what B sent back.  Then both connections are [stable],
    each with the other's description as the remote one, and both peers hold
    the same AES key for each other, provided the exported keys import back
    and ECDH is symmetric on the two pairs. *)
Theorem offer_answer_handshake
    (wA wB : World) (a b : string) (kpA kpB : KeyPair) :
  no_session b wA -> dataChannels (mgr wA) !! b = None ->
  no_session a wB ->
  keyPair (cm (crypto wA)) = Some kpA -> keyPair (cm (crypto wB)) = Some kpB ->
  truthy (btoa (exportKey_spki (publicKey kpA))) = true ->
  truthy (btoa (exportKey_spki (publicKey kpB))) = true ->
  importKey_spki (exportKey_spki (publicKey kpA)) = Some (publicKey kpA) ->
  importKey_spki (exportKey_spki (publicKey kpB)) = Some (publicKey kpB) ->
  ecdh_deriveKey (privateKey kpA) (publicKey kpB)
    = ecdh_deriveKey (privateKey kpB) (publicKey kpA) ->
  let pubA := btoa (exportKey_spki (publicKey kpA)) in
  let pubB := btoa (exportKey_spki (publicKey kpB)) in
  let offer := {| sd_type := sdp_offer; sd_sdp := "" |} in
  exists wA1 wB1 wA2 k pcA pcB,
    createOffer b wA = (Normal tt, wA1) /\
    signaling wA1 = signaling wA ++ [SigOffer b offer pubA false] /\
    handleOffer a {| nd_sdp := offer; nd_publicKey := Some pubA |} wB = (Normal tt, wB1) /\
    signaling wB1 = signaling wB ++ [SigAnswer a answer_sdp pubB] /\
    handleAnswer b {| nd_sdp := answer_sdp; nd_publicKey := Some pubB |} wA1
      = (Normal tt, wA2) /\
    sharedSecrets (cm (crypto wA2)) !! b = Some k /\
    sharedSecrets (cm (crypto wB1)) !! a = Some k /\
    connections (mgr wA2) !! b = Some pcA /\
    signalingState pcA = stable /\
    currentLocalDescription pcA = Some offer /\
    currentRemoteDescription pcA = Some answer_sdp /\
    connections (mgr wB1) !! a = Some pcB /\
    signalingState pcB = stable /\
    currentLocalDescription pcB = Some answer_sdp /\
    currentRemoteDescription pcB = Some offer /\
    console wA2 = console wA /\ console wB1 = console wB.
Proof.
  intros HfreshA HdcA HfreshB HkA HkB HtA HtB HimpA HimpB Hecdh pubA pubB offer.
  (* A makes its offer *)
  destruct (createOffer_new b wA HfreshA) as (pub & sA' & HexpA & HrunA);
    [by rewrite HdcA|].
  rewrite (exportPublicKey_existing _ kpA HkA) in HexpA. injection HexpA as <- <-.
  (* B answers *)
  pose proof (exportPublicKey_existing _ kpB HkB) as HexpB.
  pose proof (importPeerPublicKey_ok a pubA _ _ kpB (crypto wB) (atob_btoa _) HimpA HkB)
    as HimportB.
  pose proof (importPeerPublicKey_ok b pubB _ _ kpA (crypto wA) (atob_btoa _) HimpB HkA)
    as HimportA.
  assert (HrunB : exists wB1,
    handleOffer a {| nd_sdp := offer; nd_publicKey := Some pubA |} wB = (Normal tt, wB1) /\
    signaling wB1 = signaling wB ++ [SigAnswer a answer_sdp pubB] /\
    sharedSecrets (cm (crypto wB1)) !! a
      = Some (ecdh_deriveKey (privateKey kpA) (publicKey kpB)) /\
    (exists pcB, connections (mgr wB1) !! a = Some pcB /\
       signalingState pcB = stable /\
       currentLocalDescription pcB = Some answer_sdp /\
       currentRemoteDescription pcB = Some offer) /\
    console wB1 = console wB).
  { unfold handleOffer. unfold bind at 1.
    rewrite (createConnection_new a wB HfreshB).
    destruct HfreshB as (_ & _ & HbufB).
    unfold with_new_connection, _isPolite, _flushPendingCandidates, import_if_present,
      new_RTCPeerConnection, answer_sdp.
    subst pubA pubB offer. js_run. rewrite andb_false_r. js_run.
    rewrite (exportPublicKey_existing _ kpB) by reflexivity. js_run.
    eexists. split; [reflexivity|]. js_run. rewrite Hecdh.
    split_and!; try done. eexists. split; [reflexivity|]. by split_and!. }
  destruct HrunB as (wB1 & HB1 & HB2 & HB3 & (pcB & HB4 & HB5 & HB6 & HB7) & HB8).
  (* A takes the answer *)
  eexists _, wB1, _, (ecdh_deriveKey (privateKey kpA) (publicKey kpB)), _, pcB.
  split; [exact HrunA|]. split; [by js_eval|].
  split; [exact HB1|]. split; [exact HB2|].
  destruct HfreshA as (_ & _ & HbufA).
  unfold handleAnswer, _flushPendingCandidates, import_if_present, new_RTCPeerConnection,
    answer_sdp.
  subst pubA pubB offer. js_run.
  split; [reflexivity|]. js_run. by split_and!.
Qed.

(** ** webrtc.js: the receiving side on arbitrary input *)

Lemma handleMessage_binary A k buf w t :
  incomingTransfers (mgr w) !! A = Some t ->
  sharedSecrets (cm (crypto w)) !! A = Some k ->
  match opens k buf with
  | Some q =>
      exists w',
        handleMessage A (DBinary buf) w = (Normal tt, w') /\
        incomingTransfers (mgr w') !! A = Some (push_chunk q t) /\
        sharedSecrets (cm (crypto w')) !! A = Some k /\
        handlers (mgr w') = handlers (mgr w) /\
        received_files w' = received_files w
  | None => handleMessage A (DBinary buf) w = (Throw OperationError, w)
  end.
Proof.
  intros Ht Hk. unfold opens.
  pose proof (decryptChunk_split A k buf (crypto w) Hk) as Hdec.
  unfold slice_to, slice_from.
  destruct (aes_gcm_decrypt k (take 12 buf) (drop 12 buf)) as [q|] eqn:Hq.
  - unfold handleMessage, receive_chunk, call_handler. js_eval. rewrite Ht. js_eval.
    rewrite Hdec. js_eval. rewrite lookup_alter_eq, Ht. cbn [fmap option_fmap option_map].
    destruct (onProgress (handlers (mgr w))) eqn:Hh; js_eval; try rewrite Hh;
      (eexists; split; [reflexivity|]); js_eval;
      rewrite lookup_alter_eq, Ht; split_and!; try done.
    by apply received_files_app_other.
  - unfold handleMessage, receive_chunk. js_eval. rewrite Ht. js_eval.
    rewrite Hdec. by js_eval.
Qed.

Lemma deliver_buffers A k : forall bufs w t,
  incomingTransfers (mgr w) !! A = Some t ->
  sharedSecrets (cm (crypto w)) !! A = Some k ->
  incomingTransfers (mgr (deliver A (DBinary <$> bufs) w)) !! A
    = Some (fold_left (fun t c => push_chunk c t) (omap (opens k) bufs) t) /\
  sharedSecrets (cm (crypto (deliver A (DBinary <$> bufs) w))) !! A = Some k /\
  handlers (mgr (deliver A (DBinary <$> bufs) w)) = handlers (mgr w) /\
  received_files (deliver A (DBinary <$> bufs) w) = received_files w.
Proof.
  induction bufs as [|buf bufs IH]; intros w t Ht Hk; [done|].
  cbn [fmap list_fmap deliver omap list_omap].
  pose proof (handleMessage_binary A k buf w t Ht Hk) as Hstep.
  destruct (opens k buf) as [q|].
  - destruct Hstep as (w1 & Hrun & Ht1 & Hk1 & Hh1 & Hr1).
    rewrite Hrun. cbn [snd fold_left].
    destruct (IH w1 _ Ht1 Hk1) as (H1 & H2 & H3 & H4).
    split_and!; [done|done|congruence|congruence].
  - rewrite Hstep. cbn [snd]. by apply IH.
Qed.

(** A binary message that does not authenticate under the peer's key is not
    added to the transfer: [handleMessage] throws and leaves everything as
    it was.  Over a whole transfer, whatever the binary messages are, the
    file handed to [onFileReceived] at the [file-end] is the plaintexts of
    those that authenticated, in order; the others are missing from it, and
    neither the declared size nor the declared number of chunks nor the id
    of the [file-end] is compared with what arrived. *)
Theorem receiver_keeps_authenticated_chunks
    (wr : World) (A : string) (k : AesKey) (fileId name endId : string) (size n : nat)
    (bufs : list bytes) :
  sharedSecrets (cm (crypto wr)) !! A = Some k ->
  onFileReceived (handlers (mgr wr)) = true ->
  (forall w t buf,
     incomingTransfers (mgr w) !! A = Some t ->
     sharedSecrets (cm (crypto w)) !! A = Some k ->
     opens k buf = None ->
     handleMessage A (DBinary buf) w = (Throw OperationError, w)) /\
  let msgs := DString (Some (FileStart fileId name size n))
              :: (DBinary <$> bufs) ++ [DString (Some (FileEnd endId))] in
  received_files (deliver A msgs wr)
    = received_files wr ++ [(A, name, concat (omap (opens k) bufs))] /\
  incomingTransfers (mgr (deliver A msgs wr)) !! A = None.
Proof.
  intros Hk Hh. split.
  { intros w t buf Ht Hkw Hno.
    pose proof (handleMessage_binary A k buf w t Ht Hkw) as Hstep.
    by rewrite Hno in Hstep. }
  intros msgs. subst msgs. cbn [deliver]. rewrite deliver_app.
  set (w1 := snd (handleMessage A (DString (Some (FileStart fileId name size n))) wr)).
  assert (Ht1 : incomingTransfers (mgr w1) !! A = Some (new_transfer fileId name size n)).
  { subst w1. unfold handleMessage, receive_start, call_handler.
    destruct (onFileRequest (handlers (mgr wr))) eqn:Hq; js_run; try rewrite Hq;
      js_run; first [done | apply lookup_insert_eq]. }
  assert (Hk1 : sharedSecrets (cm (crypto w1)) !! A = Some k).
  { subst w1. unfold handleMessage, receive_start, call_handler.
    destruct (onFileRequest (handlers (mgr wr))) eqn:Hq; js_run; try rewrite Hq;
      by js_run. }
  assert (Hh1 : handlers (mgr w1) = handlers (mgr wr)).
  { subst w1. unfold handleMessage, receive_start, call_handler.
    destruct (onFileRequest (handlers (mgr wr))) eqn:Hq; js_run; try rewrite Hq;
      by js_run. }
  assert (Hr1 : received_files w1 = received_files wr).
  { subst w1. unfold handleMessage, receive_start, call_handler.
    destruct (onFileRequest (handlers (mgr wr))) eqn:Hq; js_run; try rewrite Hq;
      js_run; [|done].
    by apply received_files_app_other. }
  clearbody w1.
  destruct (deliver_buffers A k bufs w1 _ Ht1 Hk1) as (Ht2 & Hk2 & Hh2 & Hr2).
  set (w2 := deliver A (DBinary <$> bufs) w1) in *. clearbody w2.
  destruct (push_chunks_fold (omap (opens k) bufs) (new_transfer fileId name size n))
    as [Hc Hn].
  cbn [deliver]. unfold handleMessage, receive_end, call_handler, blob_of.
  js_eval. rewrite Ht2. js_eval. rewrite Hh2, Hh1, Hh. js_eval.
  rewrite Hc, Hn. split; [|apply lookup_delete_eq].
  unfold received_files at 1. js_eval.
  etrans; [apply received_files_app_file|]. by rewrite Hr2, Hr1.
Qed.

Lemma push_chunk_consistent q t :
  received t = length (concat (chunks t)) ->
  received (push_chunk q t) = length (concat (chunks (push_chunk q t))).
Proof.
  intros Ht. unfold push_chunk. cbn [received chunks].
  rewrite concat_app, length_app, Ht. cbn [concat]. by rewrite app_nil_r.
Qed.

Lemma receive_chunk_consistent p b w :
  transfers_consistent w -> transfers_consistent (snd (receive_chunk p b w)).
Proof.
  unfold transfers_consistent. intros Hw.
  unfold receive_chunk, call_handler, decryptChunk, decrypt. js_eval.
  destruct (sharedSecrets (cm (crypto w)) !! p) as [k|]; js_eval; [|exact Hw].
  destruct (aes_gcm_decrypt k _ _) as [q|]; js_eval; [|exact Hw].
  assert (Hw' : map_Forall (fun (_ : string) t => received t = length (concat (chunks t)))
                  (alter (push_chunk q) p (incomingTransfers (mgr w)))).
  { intros p' t'. destruct (decide (p' = p)) as [->|Hne].
    - rewrite lookup_alter_eq. destruct (incomingTransfers (mgr w) !! p) as [t|] eqn:Ht;
        [|done]. intros [= <-]. apply push_chunk_consistent. by apply (Hw p).
    - rewrite lookup_alter_ne by done. apply Hw. }
  destruct (alter (push_chunk q) p (incomingTransfers (mgr w)) !! p) as [t|];
    js_eval; [|exact Hw'].
  js_case; js_eval; exact Hw'.
Qed.

(** The byte count of a transfer is the number of bytes it holds: every
    message handler, on the data channel and on the relay, whatever the
    message and whether it returns or throws, keeps [received] equal to the
    total length of [chunks] for all transfers in flight. *)
Theorem received_counts_bytes (w : World) (p : string) :
  transfers_consistent w ->
  (forall data, transfers_consistent (snd (handleMessage p data w))) /\
  (forall data, transfers_consistent (snd (handleRelayData p data w))).
Proof.
  intros Hw.
  assert (Hstart : forall fileId name size n w0,
    transfers_consistent w0 ->
    transfers_consistent (snd (receive_start p fileId name size n w0))).
  { unfold transfers_consistent. intros fileId name size n w0 Hw0.
    unfold receive_start, call_handler. js_eval.
    assert (map_Forall (fun (_ : string) t => received t = length (concat (chunks t)))
              (<[p := new_transfer fileId name size n]> (incomingTransfers (mgr w0))))
      as Hw1.
    { apply map_Forall_insert_2; [done|exact Hw0]. }
    js_case; js_eval; exact Hw1. }
  assert (Hend : forall w0,
    transfers_consistent w0 -> transfers_consistent (snd (receive_end p w0))).
  { unfold transfers_consistent. intros w0 Hw0. unfold receive_end, call_handler. js_eval.
    destruct (incomingTransfers (mgr w0) !! p) as [t|]; js_eval; [|exact Hw0].
    assert (map_Forall (fun (_ : string) t => received t = length (concat (chunks t)))
              (delete p (incomingTransfers (mgr w0)))) as Hw1.
    { by apply map_Forall_delete. }
    js_case; js_eval; exact Hw1. }
  assert (Htext : forall content w0,
    transfers_consistent w0 ->
    transfers_consistent
      (snd (call_handler onTextReceived (TextReceived p content) w0))).
  { unfold transfers_consistent. intros content w0 Hw0. unfold call_handler.
    js_eval. js_case; js_eval; exact Hw0. }
  split.
  - intros [[[fileId name size n|fileId|content|ty]|]|b]; unfold handleMessage.
    + by apply Hstart.
    + by apply Hend.
    + by apply Htext.
    + exact Hw.
    + exact Hw.
    + unfold bind, gets. destruct (incomingTransfers (mgr w) !! p) as [t|]; [|exact Hw].
      by apply receive_chunk_consistent.
  - intros data. unfold handleRelayData. unfold bind at 1. unfold bind at 1. unfold gets.
    assert (Hw1 : transfers_consistent
              (on_mgr (fun m => set_relayMode (<[p := true]> (relayMode m)) m) w))
      by (unfold transfers_consistent in *; js_eval; exact Hw).
    set (w1 := on_mgr (fun m => set_relayMode (<[p := true]> (relayMode m)) m) w) in *.
    assert (Hbody : forall w0, transfers_consistent w0 ->
      transfers_consistent (snd (
        match data with
        | RFileStart fileId name size totalChunks =>
            receive_start p fileId name size totalChunks
        | RFileEnd _ => receive_end p
        | RChunk fileId base64 =>
            do transfer <- gets (fun w => incomingTransfers (mgr w) !! p);
            match transfer with
            | Some t =>
                if String.eqb (t_fileId t) fileId then
                  match atob base64 with
                  | Some b => receive_chunk p b
                  | None => throw InvalidCharacterError
                  end
                else ret tt
            | None => ret tt
            end
        | RText content => call_handler onTextReceived (TextReceived p content)
        | ROther _ => ret tt
        end w0))).
    { intros w0 Hw0.
      destruct data as [fileId name size n|fileId base64|fileId|content|ty].
      + by apply Hstart.
      + unfold bind, gets.
        destruct (incomingTransfers (mgr w0) !! p) as [t|]; [|exact Hw0].
        destruct (String.eqb (t_fileId t) fileId); [|exact Hw0].
        destruct (atob base64) as [b|]; [|exact Hw0].
        by apply receive_chunk_consistent.
      + by apply Hend.
      + by apply Htext.
      + exact Hw0. }
    destruct (flag (relayMode (mgr w)) p).
    + apply (Hbody w Hw).
    + apply (Hbody w1 Hw1).
Qed.

(** ** webrtc.js: falling back to the relay *)

Lemma closeConnection_relay_state p w :
  exists w',
    closeConnection p w = (Normal tt, w') /\
    relayMode (mgr w') = relayMode (mgr w) /\
    sharedSecrets (cm (crypto w')) !! p = None /\
    signaling w' = signaling w.
Proof.
  destruct (disconnectedTimers (mgr w) !! p) as [t|] eqn:Ht;
    (eexists; split; [js_unfold; rewrite Ht; reflexivity|]);
    world_unfold; split_and!; try reflexivity; apply lookup_delete_eq.
Qed.

(** After [closeConnection] a peer that is in relay mode stays in relay
    mode, but its shared secret is gone: [sendFile] of a non-empty file to
    it announces the file on the relay and then fails with [No shared key
    for peer], having sent no chunk and no [file-end]; [sendText] still goes
    through, since it does not encrypt. *)
Theorem relay_send_after_close_fails
    (w : World) (peerId : string) (file : File) (text : string)
    (negotiation : Waiting) :
  flag (relayMode (mgr w)) peerId = true ->
  0 < file_size file ->
  exists w1 w2 fileId,
    closeConnection peerId w = (Normal tt, w1) /\
    flag (relayMode (mgr w1)) peerId = true /\
    sendFile peerId file negotiation w1 = (Throw (no_shared_key peerId), w2) /\
    signaling w2 = signaling w ++
      [SigRelayData peerId
         (RFileStart fileId (file_name file) (file_size file)
                     (ceil_div (file_size file) CHUNK_SIZE))] /\
    sendText peerId text negotiation w1
    = (Normal tt, on_signaling (fun l => l ++ [SigRelayData peerId (RText text)]) w1).
Proof.
  intros Hrelay Hsize.
  destruct (closeConnection_relay_state peerId w) as (w1 & Hclose & Hr1 & Hk1 & Hs1).
  assert (Hrelay1 : flag (relayMode (mgr w1)) peerId = true) by by rewrite Hr1.
  clear Hr1.
  destruct (file_size file) as [|n] eqn:Hn; [lia|].
  exists w1. do 2 eexists. split; [exact Hclose|]. split; [exact Hrelay1|].
  rewrite (sendText_relay_plaintext peerId text negotiation w1 Hrelay1).
  clear Hclose Hrelay.
  unfold sendFile, sendFileViaRelay, randomUUID, getRandomValues. js_run.
  rewrite Hn. cbn [while_offset Nat.ltb Nat.leb]. unfold relay_chunk, encryptChunk, encrypt.
  js_run. split; [reflexivity|]. js_eval. by rewrite Hs1.
Qed.

(** When the connection cannot be made, [sendFile] and [sendText] fall back
    to the relay.  For a peer without a session or a data channel the
    attempt comes first: the application is told [connecting], an offer goes
    out, and the page waits; the [slow] notice is given if the wait takes
    more than five seconds.  When the wait fails, the peer is put in relay
    mode, the application is told [relay], and the file or the text goes
    over the signaling socket.  The peer stays in relay mode: the next
    sends go over the relay with no attempt made. *)
Theorem send_falls_back_to_relay
    (w : World) (peerId : string) (file : File) (text : string)
    (negotiation : Waiting) (e : js_error) :
  flag (relayMode (mgr w)) peerId = false ->
  no_session peerId w ->
  dataChannels (mgr w) !! peerId = None ->
  settled negotiation = Throw e ->
  exists w1 pub,
    createOffer peerId (snd (_notifyConnectionState peerId "connecting" w))
      = (Normal tt, w1) /\
    signaling w1
      = signaling w ++ [SigOffer peerId {| sd_type := sdp_offer; sd_sdp := "" |} pub false] /\
    events w1
      = events w ++ (if onConnectionStateChange (handlers (mgr w))
                     then [ConnectionStateChange peerId "connecting"] else []) /\
    let w2 :=
      meanwhile negotiation
        (on_mgr (fun m => set_pendingConnections ({[peerId]} ∪ pendingConnections m) m) w1) in
    let w3 :=
      match slow negotiation with
      | Some later => later (snd (_notifyConnectionState peerId "slow" w2))
      | None => w2
      end in
    let w4 :=
      snd (_notifyConnectionState peerId "relay"
             (on_mgr (fun m => set_relayMode (<[peerId := true]> (relayMode m)) m)
                (on_mgr (fun m => set_pendingConnections
                                    (pendingConnections m ∖ {[peerId]}) m) w3))) in
    flag (relayMode (mgr w4)) peerId = true /\
    sendText peerId text negotiation w
    = (Normal tt, on_signaling (fun l => l ++ [SigRelayData peerId (RText text)]) w4) /\
    sendFile peerId file negotiation w = sendFileViaRelay peerId file w4 /\
    forall file' text' negotiation',
      sendFile peerId file' negotiation' w4 = sendFileViaRelay peerId file' w4 /\
      sendText peerId text' negotiation' w4
      = (Normal tt, on_signaling (fun l => l ++ [SigRelayData peerId (RText text')]) w4).
Proof.
  intros Hrelay Hfresh Hdc Hset.
  set (w0 := snd (_notifyConnectionState peerId "connecting" w)).
  assert (Hfresh0 : no_session peerId w0).
  { subst w0. unfold _notifyConnectionState, call_handler.
    match goal with |- context [if ?b then _ else _] => destruct b end; exact Hfresh. }
  assert (Hdc0 : dataChannels (mgr w0) !! peerId = None).
  { subst w0. unfold _notifyConnectionState, call_handler.
    match goal with |- context [if ?b then _ else _] => destruct b end; exact Hdc. }
  destruct (createOffer_new peerId w0 Hfresh0) as (pub & s' & Hexp & Hoffer);
    [by rewrite Hdc0|].
  eexists. exists pub. split; [exact Hoffer|].
  split.
  { subst w0. unfold _notifyConnectionState, call_handler.
    match goal with |- context [if ?b then _ else _] => destruct b end; reflexivity. }
  split.
  { subst w0. unfold _notifyConnectionState, call_handler. js_eval.
    js_case; js_eval; rewrite ?app_nil_r; reflexivity. }
  match goal with |- let w2 := meanwhile negotiation ?W in _ => set (wa := W) end.
  intros w2 w3 w4.
  assert (Hnp : peerId ∉ pendingConnections (mgr w)) by apply Hfresh.
  assert (Hr4 : flag (relayMode (mgr w4)) peerId = true).
  { subst w4. unfold _notifyConnectionState, call_handler.
    match goal with |- context [if ?b then _ else _] => destruct b end;
      js_eval; apply flag_insert_eq. }
  assert (Hensure : ensureConnection peerId negotiation w
    = (Throw e,
       on_mgr (fun m => set_pendingConnections (pendingConnections m ∖ {[peerId]}) m) w3)).
  { assert (Hnotify : forall st w', _notifyConnectionState peerId st w'
              = (Normal tt, snd (_notifyConnectionState peerId st w'))).
    { intros st w'. unfold _notifyConnectionState, call_handler.
      match goal with |- context [if ?b then _ else _] => destruct b end; reflexivity. }
    subst w3 w2 wa w0.
    cbv beta iota zeta delta
      [ensureConnection _establishConnection wait_for_channel_and_key try_catch
       bind gets lift_crypto hasSharedSecret update modify ret throw].
    rewrite Hdc.
    change (on_crypto (fun _ => crypto w) w) with w.
    rewrite bool_decide_eq_false_2 by exact Hnp.
    rewrite (Hnotify "connecting" w), Hdc0, Hoffer.
    destruct (slow negotiation) as [later|].
    - rewrite (Hnotify "slow"), Hset. reflexivity.
    - by rewrite Hset. }
  split; [exact Hr4|].
  assert (Hcatch : forall A (k : JS World A),
    (update (fun m => set_relayMode (<[peerId := true]> (relayMode m)) m);;
     _notifyConnectionState peerId "relay";; k)
      (on_mgr (fun m => set_pendingConnections (pendingConnections m ∖ {[peerId]}) m) w3)
    = k w4).
  { intros A k. unfold bind at 1, update at 1, modify at 1. unfold bind at 1.
    subst w4.
    destruct (_notifyConnectionState peerId "relay" _) as [[[]|e1] wr] eqn:Hn; [done|].
    unfold _notifyConnectionState, call_handler in Hn.
    match type of Hn with context [if ?b then _ else _] => destruct b end;
      discriminate Hn. }
  split.
  { unfold sendText. unfold bind at 1, gets at 1. rewrite Hrelay.
    unfold try_catch. unfold bind at 1. rewrite Hensure.
    rewrite (Hcatch unit). reflexivity. }
  split.
  { unfold sendFile. unfold bind at 1, gets at 1. rewrite Hrelay.
    unfold bind at 1. unfold try_catch at 1. unfold bind at 1. rewrite Hensure.
    rewrite (Hcatch bool). unfold ret at 1. cbn [negb]. reflexivity. }
  intros file' text' negotiation'. split.
  - unfold sendFile. unfold bind at 1, gets at 1. by rewrite Hr4.
  - unfold sendText. unfold bind at 1, gets at 1. by rewrite Hr4.
Qed.

(** ** webrtc.js: the disconnect timers *)

Lemma keeps_timers_ret {A} (a : A) : keeps_timers (ret a).
Proof. by intros w. Qed.

Lemma keeps_timers_gets {A} (f : World -> A) : keeps_timers (gets f).
Proof. by intros w. Qed.

Lemma keeps_timers_bind {A B} (c : JS World A) (k : A -> JS World B) :
  keeps_timers c -> (forall a, keeps_timers (k a)) -> keeps_timers (bind c k).
Proof.
  intros Hc Hk w. unfold bind. specialize (Hc w).
  destruct (c w) as [[a|e] w1]; cbn [snd] in *; [|done].
  by rewrite Hk.
Qed.

Lemma keeps_timers_try_catch {A} (c : JS World A) (h : js_error -> JS World A) :
  keeps_timers c -> (forall e, keeps_timers (h e)) -> keeps_timers (try_catch c h).
Proof.
  intros Hc Hh w. unfold try_catch. specialize (Hc w).
  destruct (c w) as [[a|e] w1]; cbn [snd] in *; [done|].
  by rewrite Hh.
Qed.

Lemma keeps_timers_with_pc {A} q (op : JS RTCPeerConnection A) : keeps_timers (with_pc q op).
Proof.
  intros w. unfold with_pc.
  destruct (connections (mgr w) !! q) as [pc|]; [|done]. by destruct (op pc).
Qed.

Lemma keeps_timers_lift_crypto {A} (c : JS CryptoStore A) : keeps_timers (lift_crypto c).
Proof. intros w. unfold lift_crypto. by destruct (c (crypto w)). Qed.

Lemma keeps_timers_signaling_send m : keeps_timers (signaling_send m).
Proof. by intros w. Qed.

Lemma keeps_timers_log l : keeps_timers (log l).
Proof. by intros w. Qed.

Lemma keeps_timers_update f :
  (forall m, disconnectedTimers (f m) = disconnectedTimers m) -> keeps_timers (update f).
Proof. intros Hf w. unfold update, modify, timer_state. cbn. by rewrite Hf. Qed.

Lemma keeps_timers_release_channel q : keeps_timers (release_channel q).
Proof. by intros w. Qed.

Lemma keeps_timers_release_connection q : keeps_timers (release_connection q).
Proof. by intros w. Qed.

Create HintDb keeps_timers.
#[local] Hint Resolve keeps_timers_ret keeps_timers_gets keeps_timers_with_pc
  keeps_timers_lift_crypto keeps_timers_signaling_send keeps_timers_log
  keeps_timers_release_channel keeps_timers_release_connection : keeps_timers.
#[local] Hint Extern 2 (keeps_timers (bind _ _)) =>
  apply keeps_timers_bind; [|intros] : keeps_timers.
#[local] Hint Extern 2 (keeps_timers (try_catch _ _)) =>
  apply keeps_timers_try_catch; [|intros] : keeps_timers.
#[local] Hint Extern 2 (keeps_timers (update _)) =>
  apply keeps_timers_update; intros; reflexivity : keeps_timers.

Lemma attemptIceRestart_keeps_timers q : keeps_timers (_attemptIceRestart q).
Proof.
  unfold _attemptIceRestart. apply keeps_timers_bind; [auto with keeps_timers|].
  intros n. destruct (MAX_ICE_RESTARTS <=? n)%nat; auto 12 with keeps_timers.
Qed.

Lemma timers_registered_state w w' :
  timer_state w' = timer_state w -> timers_registered w -> timers_registered w'.
Proof.
  unfold timer_state, timers_registered. intros [= Ht Hn Hd] Hw t p.
  rewrite Ht, Hn, Hd. apply Hw.
Qed.

(** After the peer's timer is cleared no timer is armed for the peer. *)
Lemma clear_disconnected_timer_registered q w :
  timers_registered w ->
  timers_registered (snd (clear_disconnected_timer q w)) /\
  disconnectedTimers (mgr (snd (clear_disconnected_timer q w))) !! q = None /\
  next_timer (snd (clear_disconnected_timer q w)) = next_timer w /\
  (forall t, timers (snd (clear_disconnected_timer q w)) !! t = Some q -> False).
Proof.
  intros Hw. unfold clear_disconnected_timer.
  destruct (disconnectedTimers (mgr w) !! q) as [tq|] eqn:Hq;
    unfold timers_registered; js_eval; rewrite Hq; js_eval.
  - split_and!; [|apply lookup_delete_eq|done|].
    + intros t p Ht. apply lookup_delete_Some in Ht as [Hne Ht].
      destruct (Hw t p Ht) as [Hd Hlt]. split; [|done].
      rewrite lookup_delete_ne; [done|]. intros <-.
      by pose proof (eq_trans (eq_sym Hd) Hq) as [= ->].
    + intros t Ht. apply lookup_delete_Some in Ht as [Hne Ht].
      destruct (Hw t q Ht) as [Hd _].
      by pose proof (eq_trans (eq_sym Hd) Hq) as [= ->].
  - split_and!; [done|done|done|].
    intros t Ht. destruct (Hw t q Ht) as [Hd _].
    by pose proof (eq_trans (eq_sym Hd) Hq).
Qed.

Lemma closeConnection_registered q w :
  timers_registered w -> timers_registered (snd (closeConnection q w)).
Proof.
  intros Hw. unfold closeConnection. unfold bind at 1.
  destruct (clear_disconnected_timer_registered q w Hw) as (Hw1 & _).
  destruct (clear_disconnected_timer q w) as [[[]|e] w1] eqn:Hc; cbn [snd] in *; [|done].
  eapply timers_registered_state; [|exact Hw1].
  match goal with
  | |- timer_state (snd (?c w1)) = _ =>
      assert (keeps_timers c) as Hk by auto 20 with keeps_timers; apply Hk
  end.
Qed.

(** The disconnect timers stay in step with the manager's table: whatever
    the browser reports (ICE and connection state changes of any peer, a
    timer firing) and whenever a connection is closed, every armed timer is
    the one on record for its peer.  So a peer never has two timers armed. *)
Theorem disconnect_timers_registered (w : World) :
  timers_registered w ->
  (forall ev, timers_registered (snd (dispatch ev w))) /\
  (forall p, timers_registered (snd (closeConnection p w))) /\
  (forall t1 t2 p, timers w !! t1 = Some p -> timers w !! t2 = Some p -> t1 = t2).
Proof.
  intros Hw. split_and!.
  - intros [p s|p s|t]; unfold dispatch.
    + unfold bind at 1, gets at 1.
      destruct (connections (mgr w) !! p) as [pc|] eqn:Hpc; [|done].
      unfold bind at 1.
      assert (Hw0 : timers_registered (snd (with_pc p (modify (with_iceConnectionState s)) w))).
      { eapply timers_registered_state; [apply keeps_timers_with_pc|done]. }
      destruct (with_pc p (modify (with_iceConnectionState s)) w) as [[[]|e] w0];
        cbn [snd] in *; [|done].
      unfold _handleIceConnectionStateChange. unfold bind at 1.
      assert (Hw0' : timers_registered (snd (with_pc p (gets iceConnectionState) w0))).
      { eapply timers_registered_state; [apply keeps_timers_with_pc|done]. }
      destruct (with_pc p (gets iceConnectionState) w0) as [[st|e] w1];
        cbn [snd] in *; [|done].
      unfold bind at 1.
      destruct (clear_disconnected_timer_registered p w1 Hw0') as (Hw2 & Hd2 & Hn2 & Hfree).
      destruct (clear_disconnected_timer p w1) as [[[]|e] w2]; cbn [snd] in *; [|done].
      destruct st; try done;
        try (eapply timers_registered_state; [|exact Hw2];
             first [ apply attemptIceRestart_keeps_timers
                   | by apply (keeps_timers_update
                       (fun m => set_iceRestartCounts (delete p (iceRestartCounts m)) m)) ]).
      unfold timers_registered, setTimeout_disconnected. js_eval.
      intros t q Ht. destruct (decide (t = next_timer w2)) as [->|Hne].
      * rewrite lookup_insert_eq in Ht. injection Ht as <-.
        rewrite lookup_insert_eq. split; [done|apply Nat.lt_succ_diag_r].
      * rewrite lookup_insert_ne in Ht by done.
        destruct (Hw2 t q Ht) as [Hd Hlt]. split; [|by apply Nat.lt_lt_succ_r].
        rewrite lookup_insert_ne; [done|]. intros <-. by apply (Hfree t).
    + unfold bind at 1, gets at 1.
      destruct (connections (mgr w) !! p) as [pc|] eqn:Hpc; [|done].
      unfold bind at 1.
      assert (Hw0 : timers_registered (snd (with_pc p (modify (with_connectionState s)) w))).
      { eapply timers_registered_state; [apply keeps_timers_with_pc|done]. }
      destruct (with_pc p (modify (with_connectionState s)) w) as [[[]|e] w0];
        cbn [snd] in *; [|done].
      unfold _handleConnectionStateChange. unfold bind at 1.
      assert (Hw0' : timers_registered (snd (with_pc p (gets connectionState) w0))).
      { eapply timers_registered_state; [apply keeps_timers_with_pc|done]. }
      destruct (with_pc p (gets connectionState) w0) as [[st|e] w1];
        cbn [snd] in *; [|done].
      destruct st; try done.
      * unfold bind, gets.
        destruct (MAX_ICE_RESTARTS <=? _)%nat; [|done].
        by apply closeConnection_registered.
      * by apply closeConnection_registered.
    + unfold bind at 1, gets at 1.
      destruct (timers w !! t) as [p|] eqn:Ht; [|done].
      unfold bind at 1, modify at 1.
      assert (Hw1 : timers_registered (on_timers (delete t) id w)).
      { intros t' p' Ht'. cbn in Ht'. apply lookup_delete_Some in Ht' as [_ Ht'].
        apply (Hw t' p' Ht'). }
      unfold disconnected_timeout. unfold bind at 1.
      assert (Hw2 : timers_registered
                (snd (with_pc p (gets iceConnectionState) (on_timers (delete t) id w)))).
      { eapply timers_registered_state; [apply keeps_timers_with_pc|done]. }
      destruct (with_pc p (gets iceConnectionState) (on_timers (delete t) id w))
        as [[st|e] w2]; cbn [snd] in *; [|done].
      destruct st; try done.
      eapply timers_registered_state; [apply attemptIceRestart_keeps_timers|done].
  - intros p. by apply closeConnection_registered.
  - intros t1 t2 p H1 H2. destruct (Hw t1 p H1) as [Hd1 _], (Hw t2 p H2) as [Hd2 _].
    rewrite Hd1 in Hd2. by injection Hd2.
Qed.

(** ** webrtc.js: closing every connection *)

Lemma closeConnection_maps p w :
  exists w',
    closeConnection p w = (Normal tt, w') /\
    connections (mgr w') = delete p (connections (mgr w)) /\
    dataChannels (mgr w') = delete p (dataChannels (mgr w)) /\
    sharedSecrets (cm (crypto w')) = delete p (sharedSecrets (cm (crypto w))) /\
    relayMode (mgr w') = relayMode (mgr w) /\
    incomingTransfers (mgr w') = incomingTransfers (mgr w).
Proof.
  destruct (disconnectedTimers (mgr w) !! p) as [t|] eqn:Ht;
    (eexists; split; [js_unfold; rewrite Ht; reflexivity|]);
    world_unfold; split_and!; try reflexivity; apply delete_alter_eq.
Qed.

Lemma closeAll_maps keys : forall w,
  exists w',
    closeAll keys w = (Normal tt, w') /\
    connections (mgr w') = foldr delete (connections (mgr w)) keys /\
    dataChannels (mgr w') = foldr delete (dataChannels (mgr w)) keys /\
    sharedSecrets (cm (crypto w')) = foldr delete (sharedSecrets (cm (crypto w))) keys /\
    relayMode (mgr w') = relayMode (mgr w) /\
    incomingTransfers (mgr w') = incomingTransfers (mgr w).
Proof.
  unfold closeAll. induction keys as [|p keys IH] using rev_ind; intros w.
  - by exists w.
  - destruct (IH w) as (w1 & Hrun & Hc & Hd & Hs & Hr & Hi).
    destruct (closeConnection_maps p w1) as (w2 & Hrun2 & Hc2 & Hd2 & Hs2 & Hr2 & Hi2).
    exists w2. split.
    { clear - Hrun Hrun2. revert w Hrun. induction keys as [|q keys IHk]; intros w Hrun.
      - injection Hrun as <-. cbn [app for_each]. unfold bind. by rewrite Hrun2.
      - cbn [app for_each] in *. unfold bind in *.
        destruct (closeConnection q w) as [[[]|e] w0]; [|done]. by apply IHk. }
    rewrite Hc2, Hd2, Hs2, Hr2, Hi2, Hc, Hd, Hs, Hr, Hi.
    rewrite !foldr_app. cbn [foldr].
    assert (Hcomm : forall {V} (m : gmap string V),
               foldr delete (delete p m) keys = delete p (foldr delete m keys)).
    { intros V m. clear. induction keys as [|q keys IHk]; [done|].
      cbn [foldr]. by rewrite IHk, delete_delete. }
    by rewrite !Hcomm.
Qed.

Lemma lookup_foldr_delete {V} (m : gmap string V) keys q :
  foldr delete m keys !! q = if decide (q ∈ keys) then None else m !! q.
Proof.
  induction keys as [|p keys IH]; [done|]. cbn [foldr].
  destruct (decide (p = q)) as [->|Hne].
  - rewrite lookup_delete_eq. rewrite decide_True; [done|]. apply elem_of_cons. by left.
  - rewrite lookup_delete_ne, IH by done.
    destruct (decide (q ∈ keys)) as [Hin|Hnin].
    + rewrite decide_True; [done|]. apply elem_of_cons. by right.
    + rewrite decide_False; [done|]. by intros [?|?]%elem_of_cons.
Qed.

(** [closeAll] runs over the peers that have a connection object.  It ends
    normally and leaves no connection at all; each of those peers has lost
    its data channel and its shared secret.  A peer without a connection
    object, such as one reached only through the relay, keeps its data
    channel entry and its shared secret, and nobody's relay-mode flag or
    inbound transfers change. *)
Theorem closeAll_closes_connected_peers (w : World) (keys : list string) :
  (forall p, p ∈ keys <-> is_Some (connections (mgr w) !! p)) ->
  exists w',
    closeAll keys w = (Normal tt, w') /\
    connections (mgr w') = ∅ /\
    (forall p, p ∈ keys ->
       dataChannels (mgr w') !! p = None /\
       sharedSecrets (cm (crypto w')) !! p = None) /\
    (forall p, p ∉ keys ->
       dataChannels (mgr w') !! p = dataChannels (mgr w) !! p /\
       sharedSecrets (cm (crypto w')) !! p = sharedSecrets (cm (crypto w)) !! p) /\
    relayMode (mgr w') = relayMode (mgr w) /\
    incomingTransfers (mgr w') = incomingTransfers (mgr w).
Proof.
  intros Hkeys.
  destruct (closeAll_maps keys w) as (w' & Hrun & Hc & Hd & Hs & Hr & Hi).
  exists w'. split; [exact Hrun|]. split_and!; [| | |exact Hr|exact Hi].
  - apply map_eq. intros q. rewrite Hc, lookup_foldr_delete, lookup_empty.
    destruct (decide (q ∈ keys)) as [Hin|Hnin]; [done|].
    destruct (connections (mgr w) !! q) as [pc|] eqn:Hq; [|done].
    exfalso. apply Hnin, Hkeys. by rewrite Hq.
  - intros p Hin. rewrite Hd, Hs, !lookup_foldr_delete. by rewrite !decide_True.
  - intros p Hnin. rewrite Hd, Hs, !lookup_foldr_delete. by rewrite !decide_False.
Qed.

End Properties.

(** * The reference platform at work *)

Lemma ref_roundtrip k iv p : ref_decrypt k iv (ref_encrypt k iv p) = Some p.
Proof.
  unfold ref_decrypt, ref_encrypt.
  assert (Hlen : length (p ++ ref_tag k iv p) = length p + 16).
  { rewrite length_app. unfold ref_tag. by rewrite length_replicate. }
  rewrite Hlen. replace (length p + 16 - 16) with (length p) by lia.
  destruct (Nat.ltb_spec (length p + 16) 16) as [Hlt|Hge]; [lia|].
  rewrite take_app_length, drop_app_length. by rewrite decide_True.
Qed.

Lemma ref_authentic k iv c p : ref_decrypt k iv c = Some p -> c = ref_encrypt k iv p.
Proof.
  unfold ref_decrypt, ref_encrypt.
  destruct (length c <? 16)%nat; [done|].
  destruct (decide _) as [Heq|]; [|done].
  intros [= <-]. by rewrite <- Heq, take_drop.
Qed.

Lemma ref_atob_btoa b : ref_atob (ref_btoa b) = Some b.
Proof. unfold ref_atob, ref_btoa. by rewrite String.list_byte_of_string_of_list_byte. Qed.

(** ** The model at work *)

Example sendFile_hello_example :
  let r := ref_sendFile "peerB" hello_file (at_once (Normal tt)) sender_world in
  let fileId := ref_uuid (ref_random <$> seq 0 16) in
  let frame := (ref_random <$> seq 16 12)
               ++ ref_encrypt 7 (ref_random <$> seq 16 12) (file_content hello_file) in
  fst r = Normal tt /\
  (dc_sent <$> dataChannels (mgr (snd r)) !! "peerB")
    = Some [DString (Some (FileStart fileId "hello.txt" 5 1)); DBinary frame;
            DString (Some (FileEnd fileId))].
Proof. vm_compute. split; reflexivity. Qed.

Example sendFile_delivers_hello_example :
  let r := ref_sendFile "peerB" hello_file (at_once (Normal tt)) sender_world in
  let sent := default [] (dc_sent <$> dataChannels (mgr (snd r)) !! "peerB") in
  events (ref_deliver "peerA" sent receiver_world)
    = [FileRequest "peerA" (ref_uuid (ref_random <$> seq 0 16)) "hello.txt" 5 1;
       FileReceived "peerA" "hello.txt" (file_content hello_file)].
Proof. vm_compute. reflexivity. Qed.

(** Three ICE failures in a row make two restart attempts, not three. *)
Example three_failures_two_restarts_example :
  restart_attempts "b"
    (console (ref_run_events
                [IceConnectionStateChanged "b" ice_failed;
                 IceConnectionStateChanged "b" ice_failed;
                 IceConnectionStateChanged "b" ice_failed]
                (negotiating_world "a" "b" stable false))) = 2.
Proof. vm_compute. reflexivity. Qed.

(** [closeConnection] on the page whose connection to ["peerB"] is
    disconnected: the armed timer is cancelled and the connection is let go
    closed. *)
Example closeConnection_disconnected_example :
  let w' := snd (ref_closeConnection "peerB" disconnected_world) in
  timers disconnected_world !! 0 = Some "peerB" /\
  timers w' !! 0 = None /\
  connections (mgr w') !! "peerB" = None /\
  (exists pc, released w' = [ReleasedConnection "peerB" pc] /\
              connectionState pc = conn_closed /\ signalingState pc = signaling_closed).
Proof.
  vm_compute. split; [reflexivity|]. split; [reflexivity|]. split; [reflexivity|].
  eexists. split; [reflexivity|]. split; reflexivity.
Qed.

(** [sendText] to a peer the page has no session with: the offer goes out,
    the answer comes in and the channel opens during the wait, and the text
    is sent on the channel. *)
Example sendText_negotiates_example :
  let r := ref_sendText "peerB" "hello" answered_and_opened listening_world in
  fst r = Normal tt /\
  signaling (snd r) = [SigOffer "peerB" local_offer (ref_btoa (ref_exportKey 3)) false] /\
  events (snd r) = [ConnectionStateChange "peerB" "connecting";
                    ConnectionStateChange "peerB" "connected"] /\
  dataChannels (mgr (snd r)) !! "peerB"
    = Some {| readyState := dc_open; dc_sent := [DString (Some (TextMessage "hello"))] |} /\
  flag (relayMode (mgr (snd r))) "peerB" = false /\
  sharedSecrets (cm (crypto (snd r))) !! "peerB" = Some 8.
Proof. vm_compute. repeat first [ split | reflexivity ]. Qed.

(** ** Witnesses *)

(** C1 on the reference platform: the store holds key 7 for ["peerB"] and
    the chunk is the two bytes of "hi". *)
Lemma framed_roundtrip_fail_closed_witness :
  sharedSecrets (cm store_with_key) !! "peerB" = Some 7 /\
  exists iv s',
    length iv = 12 /\
    ref_encryptChunk "peerB" [Byte.x68; Byte.x69] store_with_key
      = (Normal (iv ++ ref_encrypt 7 iv [Byte.x68; Byte.x69]), s') /\
    ref_decryptChunk "peerB" (iv ++ ref_encrypt 7 iv [Byte.x68; Byte.x69]) s'
      = (Normal [Byte.x68; Byte.x69], s').
Proof.
  split; [reflexivity|].
  destruct (framed_roundtrip_fail_closed (platform := ref_platform)
              ref_roundtrip ref_authentic "peerB" 7 [Byte.x68; Byte.x69] store_with_key
              eq_refl) as (iv & s' & Hlen & Henc & Hdec & _).
  exists iv, s'. split; [exact Hlen|]. split; [exact Henc|exact Hdec].
Defined.

(** C6 for the two pages ["peerA"] and ["peerB"]. *)
Lemma polite_role_exclusive_witness :
  myPeerId (mgr sender_world) = Some "peerA" /\
  myPeerId (mgr receiver_world) = Some "peerB" /\
  "peerA" <> "peerB" /\
  exists pa pb : bool,
    _isPolite (platform := ref_platform) "peerB" sender_world = (Normal pa, sender_world) /\
    _isPolite (platform := ref_platform) "peerA" receiver_world = (Normal pb, receiver_world) /\
    pa = negb pb /\ xorb pa pb = true.
Proof.
  split; [reflexivity|]. split; [reflexivity|]. split; [discriminate|].
  apply (polite_role_exclusive (platform := ref_platform) sender_world receiver_world "peerA" "peerB");
    [reflexivity | reflexivity | discriminate].
Defined.

(** C2 for the five bytes of [hello.txt], from the sender's page to the
    receiver's. *)
Lemma sendFile_chunks_roundtrip_witness :
  flag (relayMode (mgr sender_world)) "peerB" = false /\
  dataChannels (mgr sender_world) !! "peerB" = Some open_channel /\
  sharedSecrets (cm (crypto sender_world)) !! "peerB" = Some 7 /\
  sharedSecrets (cm (crypto receiver_world)) !! "peerA" = Some 7 /\
  onFileReceived (handlers (mgr receiver_world)) = true /\
  exists ws' fileId frames,
    ref_sendFile "peerB" hello_file (at_once (Normal tt)) sender_world = (Normal tt, ws') /\
    length frames = ceil_div (file_size hello_file) CHUNK_SIZE /\
    received_files
      (ref_deliver "peerA"
         (DString (Some (FileStart fileId "hello.txt" (file_size hello_file)
                           (ceil_div (file_size hello_file) CHUNK_SIZE)))
          :: (DBinary <$> frames) ++ [DString (Some (FileEnd fileId))])
         receiver_world)
    = [("peerA", "hello.txt", file_content hello_file)].
Proof.
  split; [reflexivity|]. split; [reflexivity|]. split; [reflexivity|].
  split; [reflexivity|]. split; [reflexivity|].
  destruct (sendFile_chunks_roundtrip (platform := ref_platform) ref_roundtrip sender_world receiver_world
              "peerA" "peerB" hello_file (at_once (Normal tt)) open_channel 7
              eq_refl eq_refl eq_refl eq_refl eq_refl eq_refl)
    as (ws' & fileId & frames & Hsend & Hsent & Hlen & Hrecv & Hnone).
  exists ws', fileId, frames. split; [exact Hsend|]. split; [exact Hlen|exact Hrecv].
Defined.

Lemma glare_world_state :
  connections (mgr (glare_world "peerB" "peerA" 5)) !! "peerA"
    = Some (snd (pc_setLocalDescription local_offer new_RTCPeerConnection)) /\
  flag (makingOffer (mgr (glare_world "peerB" "peerA" 5))) "peerA" = false /\
  signaling (glare_world "peerB" "peerA" 5)
    = [SigOffer "peerA" local_offer (ref_btoa (ref_exportKey 5)) false].
Proof. vm_compute. repeat first [ split | reflexivity ]. Qed.

Lemma glare_world_key_material :
  key_material_ok (platform := ref_platform)
    (crypto (glare_world "peerB" "peerA" 5)) (nd_publicKey (offer_from 3)).
Proof.
  right. exists (ref_btoa (ref_exportKey 3)), (ref_exportKey 3), 3,
    (Build_KeyPair (platform := ref_platform) 5 5).
  repeat split.
Qed.

(** ["peerB"] is impolite towards ["peerA"].  Both have sent their offers;
    when the offer of ["peerA"] reaches ["peerB"] it is not ignored:
    ["peerB"] gives up its own offer and answers. *)
Lemma offer_glare_not_detected_witness :
  let wB := glare_world "peerB" "peerA" 5 in
  (isPolite_of (myPeerId (mgr wB)) "peerA" = false /\
   connections (mgr wB) !! "peerA"
     = Some (snd (pc_setLocalDescription local_offer new_RTCPeerConnection)) /\
   flag (makingOffer (mgr wB)) "peerA" = false) /\
  exists w' pc' pub,
    ref_handleOffer "peerA" (offer_from 3) wB = (Normal tt, w') /\
    flag (ignoreOffer (mgr w')) "peerA" = false /\
    connections (mgr w') !! "peerA" = Some pc' /\
    signalingState pc' = stable /\
    currentRemoteDescription pc' = Some local_offer /\
    pendingLocalDescription pc' = None /\
    signaling w' = [SigOffer "peerA" local_offer (ref_btoa (ref_exportKey 5)) false;
                    SigAnswer "peerA" answer_sdp pub].
Proof.
  intros wB.
  destruct glare_world_state as (Hpc & Hmk & Hsig).
  split; [split; [reflexivity|]; split; [exact Hpc|exact Hmk]|].
  destruct (offer_glare_not_detected (platform := ref_platform) wB "peerA"
              (offer_from 3) (offer_from 3)
              (snd (pc_setLocalDescription local_offer new_RTCPeerConnection))
              Hpc eq_refl eq_refl Hmk eq_refl glare_world_key_material)
    as (_ & w' & pc' & pub & H1 & H2 & H3 & H4 & H5 & _ & H6 & H7 & _).
  exists w', pc', pub. split; [exact H1|]. split; [exact H2|]. split; [exact H3|].
  split; [exact H4|]. split; [exact H5|]. split; [exact H6|].
  rewrite H7. fold wB in Hsig. by rewrite Hsig.
Defined.

(** C5 over six events on the connection to ["b"]: failures, a disconnection
    and its timer. *)
Lemma ice_restarts_bounded_witness :
  Forall (fun ev => resets_counter "b" ev = false)
    [IceConnectionStateChanged "b" ice_failed;
     IceConnectionStateChanged "b" ice_disconnected;
     TimerFired 0;
     IceConnectionStateChanged "b" ice_failed;
     ConnectionStateChanged "b" conn_failed;
     IceConnectionStateChanged "b" ice_failed] /\
  restart_attempts "b"
    (console (ref_run_events
                [IceConnectionStateChanged "b" ice_failed;
                 IceConnectionStateChanged "b" ice_disconnected;
                 TimerFired 0;
                 IceConnectionStateChanged "b" ice_failed;
                 ConnectionStateChanged "b" conn_failed;
                 IceConnectionStateChanged "b" ice_failed]
                (negotiating_world "a" "b" stable false)))
  <= restart_attempts "b" (console (negotiating_world "a" "b" stable false)) + 2.
Proof.
  assert (Hevs : Forall (fun ev => resets_counter "b" ev = false)
    [IceConnectionStateChanged "b" ice_failed;
     IceConnectionStateChanged "b" ice_disconnected;
     TimerFired 0;
     IceConnectionStateChanged "b" ice_failed;
     ConnectionStateChanged "b" conn_failed;
     IceConnectionStateChanged "b" ice_failed])
    by (repeat constructor).
  split; [exact Hevs|].
  apply (ice_restarts_bounded (platform := ref_platform)
           (negotiating_world "a" "b" stable false) "b" _ Hevs).
Defined.

(** C10: an offer that carries the key ["k"], on a page that has no key pair
    yet. *)
Lemma importPeerPublicKey_requires_keyPair_witness :
  (keyPair (cm (crypto (negotiating_world "a" "b" stable false))) = None /\
   truthy "k" = true /\ ref_atob "k" = Some [Byte.x6b] /\
   ref_importKey [Byte.x6b] = Some 1) /\
  importPeerPublicKey (platform := ref_platform) "b" "k"
      (crypto (negotiating_world "a" "b" stable false))
    = (Throw TypeError, crypto (negotiating_world "a" "b" stable false)) /\
  exists w' pc',
    ref_handleOffer "b" {| nd_sdp := remote_offer; nd_publicKey := Some "k" |}
        (negotiating_world "a" "b" stable false) = (Normal tt, w') /\
    console w' = [LogOfferError "b" TypeError] /\
    signaling w' = [] /\
    crypto w' = crypto (negotiating_world "a" "b" stable false) /\
    connections (mgr w') !! "b" = Some pc' /\
    remoteDescription pc' = Some remote_offer.
Proof.
  split; [repeat split|].
  apply (importPeerPublicKey_requires_keyPair (platform := ref_platform)
           (negotiating_world "a" "b" stable false) "b" "k" [Byte.x6b] 1
           (connection_in stable) remote_offer);
    reflexivity.
Defined.

(** C3: the text "hello" on the sender's page, on the data channel and in
    relay mode. *)
Lemma sendText_sends_plaintext_witness :
  (flag (relayMode (mgr sender_world)) "peerB" = false /\
   dataChannels (mgr sender_world) !! "peerB" = Some open_channel /\
   sharedSecrets (cm (crypto sender_world)) !! "peerB" = Some 7) /\
  ref_sendText "peerB" "hello" (at_once (Normal tt)) sender_world =
    (Normal tt,
     on_mgr (platform := ref_platform)
       (fun m => set_dataChannels
          (<["peerB" := {| readyState := dc_open;
                           dc_sent := [DString (Some (TextMessage "hello"))] |}]>
             (dataChannels m)) m) sender_world) /\
  crypto (snd (ref_sendText "peerB" "hello" (at_once (Normal tt)) sender_world))
    = crypto sender_world /\
  ref_sendText "peerB" "hello" (at_once (Normal tt))
      (on_mgr (platform := ref_platform) (set_relayMode {["peerB" := true]}) sender_world) =
    (Normal tt,
     on_signaling (platform := ref_platform) (fun l => l ++ [SigRelayData "peerB" (RText "hello")])
       (on_mgr (platform := ref_platform) (set_relayMode {["peerB" := true]}) sender_world)).
Proof.
  split; [repeat split|].
  destruct (sendText_sends_plaintext (platform := ref_platform) sender_world "peerB" "hello" (at_once (Normal tt)))
    as [_ Hdirect].
  destruct (Hdirect open_channel 7 eq_refl eq_refl eq_refl eq_refl) as [Hsent Hcrypto].
  split; [exact Hsent|]. split; [exact Hcrypto|].
  destruct (sendText_sends_plaintext (platform := ref_platform)
              (on_mgr (platform := ref_platform) (set_relayMode {["peerB" := true]}) sender_world)
              "peerB" "hello" (at_once (Normal tt))) as [Hrelay _].
  exact (proj1 (Hrelay eq_refl)).
Defined.

(** C8: a candidate from ["b"] reaches a fresh page before the offer of
    ["b"] does.  After [handleOffer] the remote description is set, the answer
    is out, and the connection has no remote candidate. *)
Lemma buffered_candidate_lost_at_creation_witness :
  (connections (mgr (fresh_world "a")) !! "b" = None /\
   pendingCandidates (mgr (fresh_world "a")) !! "b" = None) /\
  (exists w1 w2,
     ref_handleIceCandidate "b" "cand1" (fresh_world "a") = (Normal tt, w1) /\
     pendingCandidates (mgr w1) !! "b" = Some ["cand1"] /\
     createConnection (platform := ref_platform) "b" w1 = (Normal tt, w2) /\
     connections (mgr w2) !! "b" = Some new_RTCPeerConnection /\
     pendingCandidates (mgr w2) !! "b" = None /\
     console w2 = [LogBufferedCandidateError InvalidStateError]) /\
  let r := ref_handleOffer "b" {| nd_sdp := remote_offer; nd_publicKey := None |}
             (snd (ref_handleIceCandidate "b" "cand1" (fresh_world "a"))) in
  fst r = Normal tt /\
  (remoteDescription <$> connections (mgr (snd r)) !! "b") = Some (Some remote_offer) /\
  (remoteCandidates <$> connections (mgr (snd r)) !! "b") = Some [] /\
  pendingCandidates (mgr (snd r)) !! "b" = None /\
  console (snd r) = [LogBufferedCandidateError InvalidStateError] /\
  length (signaling (snd r)) = 1.
Proof.
  split; [repeat split|]. split.
  - destruct (buffered_candidate_lost_at_creation (platform := ref_platform) (fresh_world "a") "b" "cand1"
                eq_refl (not_elem_of_empty (C := gset string) "b") eq_refl)
      as (w1 & w2 & H1 & H2 & H3 & H4 & _ & _ & H5 & H6).
    exists w1, w2. repeat (split; [assumption|]). exact H6.
  - vm_compute. repeat (split; [reflexivity|]). reflexivity.
Defined.

(** C7 on the receiver's page, which has no transfer from ["peerA"] in
    flight. *)
Lemma inbound_transfer_keyed_by_peer_witness :
  incomingTransfers (mgr receiver_world) !! "peerA" = None /\
  incomingTransfers
    (mgr (snd (ref_handleMessage "peerA" (DString (Some (FileStart "f1" "a.txt" 1 1)))
                 receiver_world))) !! "peerA"
    = Some (new_transfer "f1" "a.txt" 1 1) /\
  ref_handleMessage "peerA" (DBinary [Byte.x00]) receiver_world = (Normal tt, receiver_world) /\
  ref_handleMessage "peerA" (DString (Some (FileEnd "f1"))) receiver_world
    = (Normal tt, receiver_world) /\
  exists w',
    ref_handleRelayData "peerA" (RChunk "f1" "AA") receiver_world = (Normal tt, w') /\
    incomingTransfers (mgr w') = incomingTransfers (mgr receiver_world) /\
    events w' = events receiver_world.
Proof.
  split; [reflexivity|].
  destruct (inbound_transfer_keyed_by_peer (platform := ref_platform)
              receiver_world "peerA") as (Hstart & Hunknown & _).
  split; [exact (proj1 (Hstart "f1" "a.txt" 1 1))|].
  destruct (Hunknown eq_refl) as (Hbin & Hend & Hrelay).
  split; [exact (Hbin [Byte.x00])|]. split; [exact (Hend "f1")|].
  destruct (Hrelay (RChunk "f1" "AA") (or_introl (ex_intro _ "f1" (ex_intro _ "AA" eq_refl))))
    as (w' & H1 & H2 & H3 & _).
  exists w'. split; [exact H1|]. split; [exact H2|exact H3].
Defined.

(** ** Inputs on which the specification's wording fails *)

(** C1, as worded.  The frame of one chunk is replaced on the wire by the
    frame of the next (nonce and ciphertext both differ), or its ciphertext
    alone by that of another plaintext under the same nonce: [decryptChunk]
    raises no error and returns the other plaintext. *)
Lemma replaced_frame_decrypts :
  let p1 := [Byte.x68; Byte.x69] in
  let p2 := [Byte.x79; Byte.x6f] in
  let iv1 := ref_random <$> seq 0 12 in
  let iv2 := ref_random <$> seq 12 12 in
  let f1 := iv1 ++ ref_encrypt 7 iv1 p1 in
  let f2 := iv2 ++ ref_encrypt 7 iv2 p2 in
  let f3 := iv1 ++ ref_encrypt 7 iv1 p2 in
  let r1 := ref_encryptChunk "peerB" p1 store_with_key in
  let r2 := ref_encryptChunk "peerB" p2 (snd r1) in
  fst r1 = Normal f1 /\ fst r2 = Normal f2 /\
  (slice_to 12 f2 <> slice_to 12 f1 /\ slice_from 12 f2 <> slice_from 12 f1) /\
  fst (ref_decryptChunk "peerB" f2 (snd r2)) = Normal p2 /\
  (slice_to 12 f3 = slice_to 12 f1 /\ slice_from 12 f3 <> slice_from 12 f1) /\
  fst (ref_decryptChunk "peerB" f3 (snd r2)) = Normal p2 /\
  p2 <> p1.
Proof.
  vm_compute.
  repeat first [ split | reflexivity | discriminate ].
Qed.

(** C7, as worded.  Two [file-start] records from one peer, then the
    [file-end] of the first: the table holds one transfer, under the peer's
    id and not under a transfer id; the second [file-start] has replaced the
    first transfer; and the stale [file-end "f1"], whose transfer is no
    longer in flight, is not dropped: it completes transfer ["f2"]. *)
Lemma stale_file_end_completes_transfer :
  let start1 := DString (Some (FileStart "f1" "a.txt" 1 1)) in
  let start2 := DString (Some (FileStart "f2" "b.txt" 1 1)) in
  let w1 := ref_deliver "peerA" [start1; start2] receiver_world in
  let w2 := ref_deliver "peerA" [start1; start2; DString (Some (FileEnd "f1"))] receiver_world in
  incomingTransfers (mgr w1) !! "peerA" = Some (new_transfer "f2" "b.txt" 1 1) /\
  incomingTransfers (mgr w1) !! "f1" = None /\
  incomingTransfers (mgr w1) !! "f2" = None /\
  incomingTransfers (mgr w2) !! "peerA" = None /\
  events w2 = [FileRequest "peerA" "f1" "a.txt" 1 1;
               FileRequest "peerA" "f2" "b.txt" 1 1;
               FileReceived "peerA" "b.txt" []].
Proof. vm_compute. repeat first [ split | reflexivity ]. Qed.


(** ** The further properties on the reference platform *)

Lemma ref_short_ciphertext (k : nat) (iv c : bytes) :
  length c < 16 -> ref_decrypt k iv c = None.
Proof.
  intros Hlen. unfold ref_decrypt.
  by destruct (Nat.ltb_spec (length c) 16) as [_|Hge]; [|lia].
Qed.

Lemma ref_ciphertext_length (k : nat) (iv p : bytes) :
  length (ref_encrypt k iv p) = length p + 16.
Proof. unfold ref_encrypt, ref_tag. by rewrite length_app, length_replicate. Qed.

(** A store without any secret: every operation for ["peerB"] fails. *)
Lemma no_shared_key_errors_witness :
  sharedSecrets (cm (store_with_keyPair 3)) !! "peerB" = None /\
  ref_encryptChunk "peerB" [Byte.x68; Byte.x69] (store_with_keyPair 3)
    = (Throw (Error "No shared key for peer: peerB"), store_with_keyPair 3) /\
  ref_decryptChunk "peerB" [Byte.x68; Byte.x69] (store_with_keyPair 3)
    = (Throw (Error "No shared key for peer: peerB"), store_with_keyPair 3).
Proof.
  split; [reflexivity|].
  destruct (no_shared_key_errors (platform := ref_platform) (store_with_keyPair 3) "peerB"
              [Byte.x68; Byte.x69] [] eq_refl) as (_ & _ & Henc & Hdec).
  split; [exact Henc|exact Hdec].
Defined.

(** The key pairs [3] and [5] agree on the key [8]. *)
Lemma key_exchange_agrees_witness :
  (ref_importKey (ref_exportKey 3) = Some 3 /\ ref_importKey (ref_exportKey 5) = Some 5 /\
   ref_deriveKey 3 5 = ref_deriveKey 5 3) /\
  exists pubA pubB k sA' sB',
    importPeerPublicKey (platform := ref_platform) "peerB" pubB (store_with_keyPair 3)
      = (Normal k, sA') /\
    importPeerPublicKey (platform := ref_platform) "peerA" pubA (store_with_keyPair 5)
      = (Normal k, sB') /\
    sharedSecrets (cm sA') !! "peerB" = Some k /\
    sharedSecrets (cm sB') !! "peerA" = Some k /\
    exists frame sA'',
      ref_encryptChunk "peerB" [Byte.x68; Byte.x69] sA' = (Normal frame, sA'') /\
      ref_decryptChunk "peerA" frame sB' = (Normal [Byte.x68; Byte.x69], sB').
Proof.
  split; [repeat split|].
  destruct (key_exchange_agrees (platform := ref_platform) ref_roundtrip ref_atob_btoa
              (store_with_keyPair 3) (store_with_keyPair 5) "peerA" "peerB"
              (Build_KeyPair (platform := ref_platform) 3 3)
              (Build_KeyPair (platform := ref_platform) 5 5)
              [Byte.x68; Byte.x69] eq_refl eq_refl eq_refl eq_refl eq_refl)
    as (pubA & pubB & k & sA' & sB' & frame & sA'' & _ & _ & H1 & H2 & H3 & H4 & H5 & H6).
  exists pubA, pubB, k, sA', sB'. repeat (split; [assumption|]).
  exists frame, sA''. split; assumption.
Defined.

(** Twenty bytes cannot be a frame. *)
Lemma short_frame_rejected_witness :
  (sharedSecrets (cm store_with_key) !! "peerB" = Some 7 /\
   length (replicate 20 Byte.x00) < 28) /\
  ref_decryptChunk "peerB" (replicate 20 Byte.x00) store_with_key
    = (Throw OperationError, store_with_key).
Proof.
  split; [split; [reflexivity|cbn; lia]|].
  apply (short_frame_rejected (platform := ref_platform) store_with_key "peerB" 7
           (replicate 20 Byte.x00) ref_short_ciphertext eq_refl).
  cbn. lia.
Defined.

(** [hello.txt] goes out as one frame of 5 + 28 bytes. *)
Lemma sendFile_frame_sizes_witness :
  (flag (relayMode (mgr sender_world)) "peerB" = false /\
   dataChannels (mgr sender_world) !! "peerB" = Some open_channel /\
   sharedSecrets (cm (crypto sender_world)) !! "peerB" = Some 7) /\
  exists ws' (frames : list bytes),
    ref_sendFile "peerB" hello_file (at_once (Normal tt)) sender_world = (Normal tt, ws') /\
    Forall (fun frame => 29 <= length frame <= CHUNK_SIZE + 28) frames /\
    length (concat frames)
      = file_size hello_file + 28 * ceil_div (file_size hello_file) CHUNK_SIZE.
Proof.
  split; [repeat split|].
  destruct (sendFile_frame_sizes (platform := ref_platform) sender_world "peerB" hello_file
              (at_once (Normal tt)) open_channel 7 ref_ciphertext_length eq_refl eq_refl eq_refl eq_refl)
    as (ws' & fileId & frames & Hsend & _ & Hsizes & Htotal).
  exists ws', frames. split; [exact Hsend|]. split; [exact Hsizes|exact Htotal].
Defined.

(** The TURN server comes first whatever its probe would say, the STUN
    servers that answered follow by latency, and the rest is dropped. *)
Example rankIceServers_example :
  rankIceServers example_health example_servers = [turn_t; stun_b; stun_a] /\
  rankIceServers (fun _ _ => None) [stun_a; other_o] = FALLBACK_ICE_SERVERS.
Proof. vm_compute. split; reflexivity. Qed.

(** Two candidates reach the page that has sent its offer; the answer
    follows, and a third candidate after it. *)
Lemma candidates_before_answer_applied_witness :
  (exists pc,
     connections (mgr (offering_world "a" "b")) !! "b" = Some pc /\
     signalingState pc = have_local_offer /\ remoteDescription pc = None) /\
  exists w2,
    ref_handleAnswer "b" {| nd_sdp := remote_answer; nd_publicKey := None |}
      (deliver_candidates "b" ["c1"; "c2"] (offering_world "a" "b")) = (Normal tt, w2) /\
    (remoteCandidates <$> connections (mgr w2) !! "b") = Some ["c1"; "c2"] /\
    pendingCandidates (mgr w2) !! "b" = None /\
    exists w3,
      ref_handleIceCandidate "b" "c3" w2 = (Normal tt, w3) /\
      (remoteCandidates <$> connections (mgr w3) !! "b") = Some ["c1"; "c2"; "c3"].
Proof.
  split; [eexists; repeat split|].
  destruct (candidates_before_answer_applied (platform := ref_platform)
              (offering_world "a" "b") "b"
              (snd (pc_setLocalDescription local_offer new_RTCPeerConnection))
              ["c1"; "c2"] {| nd_sdp := remote_answer; nd_publicKey := None |} "c3"
              eq_refl eq_refl eq_refl eq_refl eq_refl (or_introl eq_refl))
    as (_ & _ & w2 & pc2 & Hrun & Hpc2 & _ & _ & _ & Hcs & Hbuf & _ & w3 & Hrun3 & Hcs3 & _).
  exists w2. split; [exact Hrun|]. split; [rewrite Hpc2; exact (f_equal Some Hcs)|].
  split; [exact Hbuf|]. exists w3. split; [exact Hrun3|exact Hcs3].
Defined.

(** A fresh page makes a connection for ["peerB"]. *)
Lemma createConnection_replaces_witness :
  no_session "peerB" (keyed_world "peerA" 3) /\
  exists w',
    createConnection (platform := ref_platform) "peerB" (keyed_world "peerA" 3)
      = (Normal tt, w') /\
    connections (mgr w') !! "peerB" = Some new_RTCPeerConnection /\
    createConnection (platform := ref_platform) "peerB" w' = (Normal tt, w').
Proof.
  assert (Hfresh : no_session "peerB" (keyed_world "peerA" 3)).
  { split; [exact I|]. split; [apply not_elem_of_empty|reflexivity]. }
  split; [exact Hfresh|].
  destruct (createConnection_replaces (platform := ref_platform) (keyed_world "peerA" 3)
              "peerB" Hfresh)
    as (w' & H1 & H2 & _ & _ & _ & _ & _ & _ & _ & _ & _ & H3).
  exists w'. split; [exact H1|]. split; [exact H2|exact H3].
Defined.

(** A fresh page offers to ["peerB"], once. *)
Lemma createOffer_sends_one_offer_witness :
  (no_session "peerB" (keyed_world "peerA" 3) /\
   dataChannels (mgr (keyed_world "peerA" 3)) !! "peerB" = None) /\
  exists w' pub,
    ref_createOffer "peerB" (keyed_world "peerA" 3) = (Normal tt, w') /\
    signaling w' = [SigOffer "peerB" local_offer pub false] /\
    ref_createOffer "peerB" w' = (Normal tt, w').
Proof.
  assert (Hfresh : no_session "peerB" (keyed_world "peerA" 3)).
  { split; [exact I|]. split; [apply not_elem_of_empty|reflexivity]. }
  split; [split; [exact Hfresh|reflexivity]|].
  destruct (createOffer_sends_one_offer (platform := ref_platform) (keyed_world "peerA" 3)
              "peerB" Hfresh eq_refl)
    as (w' & pub & pc & H1 & _ & H2 & _ & _ & _ & _ & _ & _ & H3).
  exists w', pub. split; [exact H1|]. split; [exact H2|exact H3].
Defined.

(** An impolite page in [have-remote-offer], and a polite page that is
    making an offer of its own. *)
Lemma offer_collision_resolution_witness :
  (connections (mgr (negotiating_world "b" "a" have_remote_offer false)) !! "a"
     = Some (connection_in have_remote_offer) /\
   usable (connection_in have_remote_offer) = true /\
   offerCollision (platform := ref_platform) (negotiating_world "b" "a" have_remote_offer false) "a"
     (connection_in have_remote_offer) = true /\
   isPolite_of (Some "b") "a" = false /\
   isPolite_of (Some "a") "b" = true) /\
  ref_handleOffer "a" {| nd_sdp := remote_offer; nd_publicKey := None |}
      (negotiating_world "b" "a" have_remote_offer false)
    = (Normal tt,
       on_console (platform := ref_platform) (fun c => c ++ [LogIgnoringOffer "a"])
         (on_mgr (platform := ref_platform)
            (fun m => set_ignoreOffer (<["a" := true]> (ignoreOffer m)) m)
            (negotiating_world "b" "a" have_remote_offer false))) /\
  exists w' pc' pub,
    ref_handleOffer "b" {| nd_sdp := remote_offer; nd_publicKey := None |}
        (negotiating_world "a" "b" have_local_offer true) = (Normal tt, w') /\
    connections (mgr w') !! "b" = Some pc' /\
    signalingState pc' = stable /\
    currentRemoteDescription pc' = Some remote_offer /\
    pendingLocalDescription pc' = None /\
    signaling w' = [SigAnswer "b" answer_sdp pub] /\
    console w' = [LogRollback "b"].
Proof.
  split; [repeat split|]. split.
  - apply (offer_collision_resolution (platform := ref_platform)
             (negotiating_world "b" "a" have_remote_offer false) "a"
             {| nd_sdp := remote_offer; nd_publicKey := None |}
             (connection_in have_remote_offer) eq_refl eq_refl eq_refl).
    reflexivity.
  - destruct (offer_collision_resolution (platform := ref_platform)
                (negotiating_world "a" "b" have_local_offer true) "b"
                {| nd_sdp := remote_offer; nd_publicKey := None |}
                (connection_in have_local_offer) eq_refl eq_refl eq_refl)
      as (_ & Hpolite & _).
    destruct (Hpolite eq_refl eq_refl
                ltac:(apply list_elem_of_further, list_elem_of_here)
                (or_introl eq_refl))
      as (w' & pc' & pub & H1 & H2 & H3 & H4 & H5 & H6 & H7 & H8).
    exists w', pc', pub. repeat (split; [assumption|]). assumption.
Defined.

(** A polite peer has sent an offer and received a provisional answer, so
    its connection is in [have-remote-pranswer]; an offer from the peer is
    then a collision by the test of [handleOffer].  The polite peer does not
    roll back, the browser refuses the offer, and no answer is sent.  On the
    impolite side the [ignoreOffer] flag of the peer goes from [false] to
    [true]. *)
Lemma polite_collision_unanswered :
  let offer := {| nd_sdp := remote_offer; nd_publicKey := None |} in
  let w := pranswered_world "a" "b" in
  let r := ref_handleOffer "b" offer w in
  let w2 := negotiating_world "b" "a" have_remote_offer false in
  let r2 := ref_handleOffer "a" offer w2 in
  (isPolite_of (myPeerId (mgr w)) "b" = true /\
   (signalingState <$> connections (mgr w) !! "b") = Some have_remote_pranswer /\
   (offerCollision w "b" <$> connections (mgr w) !! "b") = Some true /\
   fst r = Normal tt /\
   signaling (snd r) = [] /\
   console (snd r) = [LogOfferError "b" InvalidStateError] /\
   connections (mgr (snd r)) !! "b" = connections (mgr w) !! "b") /\
  (isPolite_of (myPeerId (mgr w2)) "a" = false /\
   offerCollision w2 "a" (connection_in have_remote_offer) = true /\
   ignoreOffer (mgr w2) !! "a" = Some false /\
   ignoreOffer (mgr (snd r2)) !! "a" = Some true).
Proof. vm_compute. repeat first [ split | reflexivity ]. Qed.

(** The pages of ["peerA"] (key pair 3) and ["peerB"] (key pair 5) shake
    hands and agree on the key 8. *)
Lemma offer_answer_handshake_witness :
  (no_session "peerB" (keyed_world "peerA" 3) /\ no_session "peerA" (keyed_world "peerB" 5) /\
   ref_importKey (ref_exportKey 3) = Some 3 /\ ref_importKey (ref_exportKey 5) = Some 5 /\
   ref_deriveKey 3 5 = ref_deriveKey 5 3) /\
  exists wA1 wB1 wA2 pubA pubB k,
    ref_createOffer "peerB" (keyed_world "peerA" 3) = (Normal tt, wA1) /\
    signaling wA1 = [SigOffer "peerB" local_offer pubA false] /\
    ref_handleOffer "peerA" {| nd_sdp := local_offer; nd_publicKey := Some pubA |}
      (keyed_world "peerB" 5) = (Normal tt, wB1) /\
    signaling wB1 = [SigAnswer "peerA" answer_sdp pubB] /\
    ref_handleAnswer "peerB" {| nd_sdp := answer_sdp; nd_publicKey := Some pubB |} wA1
      = (Normal tt, wA2) /\
    sharedSecrets (cm (crypto wA2)) !! "peerB" = Some k /\
    sharedSecrets (cm (crypto wB1)) !! "peerA" = Some k.
Proof.
  assert (HfreshA : no_session "peerB" (keyed_world "peerA" 3)).
  { split; [exact I|]. split; [apply not_elem_of_empty|reflexivity]. }
  assert (HfreshB : no_session "peerA" (keyed_world "peerB" 5)).
  { split; [exact I|]. split; [apply not_elem_of_empty|reflexivity]. }
  split; [split; [exact HfreshA|]; split; [exact HfreshB|]; repeat split|].
  destruct (offer_answer_handshake (platform := ref_platform) ref_atob_btoa
              (keyed_world "peerA" 3) (keyed_world "peerB" 5) "peerA" "peerB"
              (Build_KeyPair (platform := ref_platform) 3 3)
              (Build_KeyPair (platform := ref_platform) 5 5)
              HfreshA eq_refl HfreshB eq_refl eq_refl eq_refl eq_refl eq_refl eq_refl eq_refl)
    as (wA1 & wB1 & wA2 & k & pcA & pcB & H1 & H2 & H3 & H4 & H5 & H6 & H7 & _).
  exists wA1, wB1, wA2. do 2 eexists. exists k.
  split; [exact H1|]. split; [exact H2|]. split; [exact H3|]. split; [exact H4|].
  split; [exact H5|]. split; [exact H6|exact H7].
Defined.

(** [hello.txt] over the relay. *)
Lemma sendFile_relay_roundtrip_witness :
  (flag (relayMode (mgr relaying_sender_world)) "peerB" = true /\
   sharedSecrets (cm (crypto relaying_sender_world)) !! "peerB" = Some 7 /\
   sharedSecrets (cm (crypto receiver_world)) !! "peerA" = Some 7 /\
   onFileReceived (handlers (mgr receiver_world)) = true) /\
  exists ws' fileId (frames : list bytes),
    ref_sendFile "peerB" hello_file (at_once (Normal tt)) relaying_sender_world = (Normal tt, ws') /\
    length frames = ceil_div (file_size hello_file) CHUNK_SIZE /\
    received_files
      (deliver_relay (platform := ref_platform) "peerA"
         (RFileStart fileId "hello.txt" (file_size hello_file)
                     (ceil_div (file_size hello_file) CHUNK_SIZE)
          :: ((fun f => RChunk fileId (ref_btoa f)) <$> frames) ++ [RFileEnd fileId])
         receiver_world)
    = [("peerA", "hello.txt", file_content hello_file)].
Proof.
  split; [repeat split|].
  destruct (sendFile_relay_roundtrip (platform := ref_platform) ref_roundtrip ref_atob_btoa
              relaying_sender_world receiver_world "peerA" "peerB" hello_file (at_once (Normal tt)) 7
              eq_refl eq_refl eq_refl eq_refl)
    as (ws' & fileId & frames & Hsend & _ & Hlen & Hrecv & _).
  exists ws', fileId, frames. split; [exact Hsend|]. split; [exact Hlen|exact Hrecv].
Defined.

(** A frame that authenticates and a buffer that does not: the file is the
    plaintext of the first. *)
Lemma receiver_keeps_authenticated_chunks_witness :
  (sharedSecrets (cm (crypto receiver_world)) !! "peerA" = Some 7 /\
   onFileReceived (handlers (mgr receiver_world)) = true /\
   opens (platform := ref_platform) 7 good_frame = Some [Byte.x68; Byte.x69] /\
   opens (platform := ref_platform) 7 bad_frame = None) /\
  received_files
    (ref_deliver "peerA"
       [DString (Some (FileStart "f1" "a.txt" 4 2)); DBinary good_frame; DBinary bad_frame;
        DString (Some (FileEnd "f1"))] receiver_world)
  = [("peerA", "a.txt", [Byte.x68; Byte.x69])].
Proof.
  split; [repeat split|].
  destruct (receiver_keeps_authenticated_chunks (platform := ref_platform) receiver_world
              "peerA" 7 "f1" "a.txt" "f1" 4 2 [good_frame; bad_frame] eq_refl eq_refl)
    as (_ & Hrecv & _).
  exact Hrecv.
Defined.

(** The receiver's page holds no transfer, so the count is right to begin
    with; it is right after any message. *)
Lemma received_counts_bytes_witness :
  transfers_consistent receiver_world /\
  transfers_consistent
    (snd (ref_handleMessage "peerA" (DString (Some (FileStart "f1" "a.txt" 4 2)))
            receiver_world)) /\
  transfers_consistent
    (snd (ref_handleRelayData "peerA" (RChunk "f1" "AAAA") receiver_world)).
Proof.
  assert (Hw : transfers_consistent receiver_world) by apply map_Forall_empty.
  split; [exact Hw|].
  destruct (received_counts_bytes (platform := ref_platform) receiver_world "peerA" Hw)
    as [Hdirect Hrelay].
  split; [apply Hdirect|apply Hrelay].
Defined.

(** The sender's page in relay mode closes the connection to ["peerB"] and
    then tries to send [hello.txt]. *)
Lemma relay_send_after_close_fails_witness :
  (flag (relayMode (mgr relaying_sender_world)) "peerB" = true /\
   0 < file_size hello_file) /\
  exists w1 w2,
    ref_closeConnection "peerB" relaying_sender_world = (Normal tt, w1) /\
    ref_sendFile "peerB" hello_file (at_once (Normal tt)) w1
      = (Throw (Error "No shared key for peer: peerB"), w2) /\
    length (signaling w2) = 1.
Proof.
  split; [split; [reflexivity|cbn; lia]|].
  destruct (relay_send_after_close_fails (platform := ref_platform) relaying_sender_world
              "peerB" hello_file "hello" (at_once (Normal tt)) eq_refl ltac:(cbn; lia))
    as (w1 & w2 & fileId & Hclose & _ & Hsend & Hsig & _).
  exists w1, w2. split; [exact Hclose|]. split; [exact Hsend|]. by rewrite Hsig.
Defined.

Lemma sendText_timed_out :
  signaling (snd (ref_sendText "peerB" "hello" timed_out listening_world))
    = [SigOffer "peerB" local_offer (ref_btoa (ref_exportKey 3)) false;
       SigRelayData "peerB" (RText "hello")] /\
  events (snd (ref_sendText "peerB" "hello" timed_out listening_world))
    = [ConnectionStateChange "peerB" "connecting";
       ConnectionStateChange "peerB" "slow";
       ConnectionStateChange "peerB" "relay"].
Proof. vm_compute. split; reflexivity. Qed.

(** A page cannot reach ["peerB"]: the offer goes out, the wait runs into
    its limit, and the text goes over the relay. *)
Lemma send_falls_back_to_relay_witness :
  (flag (relayMode (mgr listening_world)) "peerB" = false /\
   no_session "peerB" listening_world /\
   dataChannels (mgr listening_world) !! "peerB" = None /\
   settled timed_out = Throw (Error "Channel timeout")) /\
  exists w4,
    ref_sendText "peerB" "hello" timed_out listening_world
    = (Normal tt, on_signaling (fun l => l ++ [SigRelayData "peerB" (RText "hello")]) w4) /\
    flag (relayMode (mgr w4)) "peerB" = true /\
    signaling (snd (ref_sendText "peerB" "hello" timed_out listening_world))
    = [SigOffer "peerB" local_offer (ref_btoa (ref_exportKey 3)) false;
       SigRelayData "peerB" (RText "hello")] /\
    events (snd (ref_sendText "peerB" "hello" timed_out listening_world))
    = [ConnectionStateChange "peerB" "connecting";
       ConnectionStateChange "peerB" "slow";
       ConnectionStateChange "peerB" "relay"].
Proof.
  assert (Hfresh : no_session "peerB" listening_world).
  { split; [exact I|]. split; [apply not_elem_of_empty|reflexivity]. }
  split; [split; [reflexivity|]; split; [exact Hfresh|]; split; reflexivity|].
  pose proof (send_falls_back_to_relay (platform := ref_platform) listening_world
                "peerB" hello_file "hello" timed_out (Error "Channel timeout")
                eq_refl Hfresh eq_refl eq_refl)
    as (w1 & pub & _ & _ & _ & Hflag & Htext & _).
  eexists. split; [exact Htext|]. split; [exact Hflag|]. exact sendText_timed_out.
Defined.

Lemma offering_world_registered me peer : timers_registered (offering_world me peer).
Proof.
  intros t p Ht. exfalso.
  change ((∅ : gmap nat string) !! t = Some p) in Ht.
  by rewrite lookup_empty in Ht.
Qed.

Lemma disconnected_world_timer : timers disconnected_world !! 0 = Some "peerB".
Proof. vm_compute. reflexivity. Qed.

(** With the timer of ["peerB"] armed, whatever happens next keeps the
    timers registered, and ["peerB"] has that one timer. *)
Lemma disconnect_timers_registered_witness :
  timers_registered disconnected_world /\
  timers disconnected_world !! 0 = Some "peerB" /\
  (forall ev, timers_registered
                (snd (dispatch (platform := ref_platform) ev disconnected_world))) /\
  (forall p, timers_registered
               (snd (closeConnection (platform := ref_platform) p disconnected_world))) /\
  (forall t, timers disconnected_world !! t = Some "peerB" -> t = 0).
Proof.
  pose proof (proj1 (disconnect_timers_registered (platform := ref_platform)
                       (offering_world "peerA" "peerB")
                       (offering_world_registered "peerA" "peerB"))
                (IceConnectionStateChanged "peerB" ice_disconnected)) as H1.
  change (timers_registered disconnected_world) in H1.
  split; [exact H1|]. split; [exact disconnected_world_timer|].
  pose proof (disconnect_timers_registered (platform := ref_platform)
                disconnected_world H1) as (Hev & Hclose & Hone).
  split; [exact Hev|]. split; [exact Hclose|].
  intros t Ht. exact (Hone t 0 "peerB" Ht disconnected_world_timer).
Defined.

Lemma offering_world_keys me peer p :
  p ∈ [peer] <-> is_Some (connections (mgr (offering_world me peer)) !! p).
Proof.
  change (connections (mgr (offering_world me peer)))
    with ({[peer := snd (pc_setLocalDescription local_offer new_RTCPeerConnection)]}
           : gmap string RTCPeerConnection).
  rewrite list_elem_of_singleton. split.
  - intros ->. rewrite lookup_singleton_eq. by eexists.
  - intros [pc Hpc]. by apply lookup_singleton_Some in Hpc as [<- _].
Qed.

(** A page with one connection closes it. *)
Lemma closeAll_closes_connected_peers_witness :
  (forall p, p ∈ ["peerB"] <->
             is_Some (connections (mgr (offering_world "peerA" "peerB")) !! p)) /\
  exists w',
    closeAll (platform := ref_platform) ["peerB"] (offering_world "peerA" "peerB")
      = (Normal tt, w') /\
    connections (mgr w') = ∅.
Proof.
  split; [exact (offering_world_keys "peerA" "peerB")|].
  pose proof (closeAll_closes_connected_peers (platform := ref_platform)
                (offering_world "peerA" "peerB") ["peerB"]
                (offering_world_keys "peerA" "peerB")) as (w' & H1 & H2 & _).
  exists w'. split; [exact H1|exact H2].
Defined.
